(** * Device meshes and parallelism search

    A shallow embedding of [realhf/api/quickstart/device_mesh.py]: the
    [DeviceMesh] dataclass (validation, naming, [split], [sub_device_meshes],
    [__eq__], [to_dict] / [from_dict]), [find_parallel_strategies] and
    [RPCAllocation].

    Python calls that may raise are functions into [result]; [numpy] arrays
    of the mapping are two-dimensional integer arrays; the helpers of
    [realhf.base.slurm_utils] and [realhf.base.cluster] that the module
    imports are collected in an environment record. *)

From Stdlib Require Import ZArith String Ascii Bool Lia DecimalString DecimalNat List Sorted.
Import ListNotations.
Local Open Scope string_scope.
Local Open Scope list_scope.
Local Open Scope Z_scope.

(** ** Python exceptions and results *)

Module Py.

(** The exceptions that the modelled code can raise.  [Diverges] is not an
    exception: it marks a call whose Python loop never terminates. *)
Inductive exn : Type :=
| RuntimeError (msg : string)
| AssertionError (msg : string)
| AttributeError (msg : string)
| IndexError (msg : string)
| ValueError (msg : string)
| ZeroDivisionError
| Diverges.

Inductive result (A : Type) : Type :=
| Ok (a : A)
| Raise (e : exn).
Arguments Ok {A} a.
Arguments Raise {A} e.

Definition bind {A B} (c : result A) (k : A -> result B) : result B :=
  match c with
  | Ok a => k a
  | Raise e => Raise e
  end.

Definition raises {A} (c : result A) : Prop := exists e, c = Raise e.

(** [assert cond, msg] *)
Definition py_assert (cond : bool) (msg : string) : result unit :=
  if cond then Ok tt else Raise (AssertionError msg).

(** [for x in xs: acc = body(acc, x)], stopping at the first exception. *)
Fixpoint for_each {A S} (xs : list A) (body : S -> A -> result S) (acc : S)
  : result S :=
  match xs with
  | [] => Ok acc
  | x :: rest => bind (body acc x) (for_each rest body)
  end.

(** A list comprehension whose element expression may raise. *)
Fixpoint comprehension {A B} (f : A -> result B) (xs : list A)
  : result (list B) :=
  match xs with
  | [] => Ok []
  | x :: rest =>
      bind (f x) (fun y => bind (comprehension f rest) (fun ys => Ok (y :: ys)))
  end.

(** [a % b] and [a // b] on Python integers. *)
Definition py_mod (a b : Z) : result Z :=
  if b =? 0 then Raise ZeroDivisionError else Ok (a mod b).

Definition py_floordiv (a b : Z) : result Z :=
  if b =? 0 then Raise ZeroDivisionError else Ok (a / b).

(** [range(start, stop, step)] *)
Definition py_range (start stop step : Z) : result (list Z) :=
  if step =? 0 then Raise (ValueError "range() arg 3 must not be zero")
  else if 0 <? step
       then Ok (map (fun i => start + Z.of_nat i * step)
                    (seq 0 (Z.to_nat ((stop - start + step - 1) / step))))
       else Ok (map (fun i => start + Z.of_nat i * step)
                    (seq 0 (Z.to_nat ((start - stop - step - 1) / (- step))))).

(** [str(n)] for a non-negative integer. *)
Definition str_of_nat (n : nat) : string :=
  NilZero.string_of_uint (Nat.to_uint n).

(** [f"{n:0{width}d}"] for a non-negative integer. *)
Definition zero_padded (width n : nat) : string :=
  let s := str_of_nat n in
  (String.concat "" (repeat "0" (width - String.length s)) ++ s)%string.

End Py.
Import Py.

Notation "'let*' x ':=' c 'in' k" := (Py.bind c (fun x => k))
  (at level 10, x pattern, c at level 100, k at level 200).

(** ** Two-dimensional integer arrays *)

Module Np.

(** A 2-D [numpy] array: its rows, and the column count (which the rows
    alone do not determine when there are none). *)
Record ndarray : Type := mk_ndarray {
  ncols : nat;
  rows : list (list Z)
}.

Definition shape (a : ndarray) : Z * Z :=
  (Z.of_nat (length (rows a)), Z.of_nat (ncols a)).

(** Every array has rows of [ncols] cells; the model checks it where the
    code compares shapes. *)
Definition rectangular (a : ndarray) : bool :=
  forallb (fun r => Nat.eqb (length r) (ncols a)) (rows a).

Definition sum_list (l : list Z) : Z := fold_right Z.add 0 l.

(** [a.flatten()], [a.sum()], [a.sum(1)] *)
Definition flatten (a : ndarray) : list Z := concat (rows a).
Definition sum (a : ndarray) : Z := sum_list (flatten a).
Definition sum_axis1 (a : ndarray) : list Z := map sum_list (rows a).

(** [np.zeros((r, c))] *)
Definition zeros (r c : nat) : ndarray :=
  mk_ndarray c (repeat (repeat 0 c) r).

(** [a.tolist()] and [np.array(nested_list)] *)
Definition tolist (a : ndarray) : list (list Z) := rows a.
Definition array (l : list (list Z)) : ndarray :=
  mk_ndarray (length (hd [] l)) l.

Definition enumerate {A} (l : list A) : list (nat * A) :=
  combine (seq 0 (length l)) l.

(** [np.where(a == v)]: row and column indices in row-major order. *)
Definition where_eq (v : Z) (a : ndarray) : list nat * list nat :=
  let hits :=
    flat_map (fun '(i, r) =>
                map (fun '(j, _) => (i, j))
                    (filter (fun '(_, x) => x =? v) (enumerate r)))
             (enumerate (rows a)) in
  (map fst hits, map snd hits).

(** [np.unique]: the sorted distinct values. *)
Fixpoint insert_unique (x : nat) (l : list nat) : list nat :=
  match l with
  | [] => [x]
  | y :: rest =>
      if Nat.ltb x y then x :: l
      else if Nat.eqb x y then l
      else y :: insert_unique x rest
  end.
Definition unique (l : list nat) : list nat :=
  fold_right insert_unique [] l.

(** [cols[rows == row]] *)
Definition select_eq (keys vals : list nat) (k : nat) : list nat :=
  map snd (filter (fun '(k', _) => Nat.eqb k' k) (combine keys vals)).

(** [np.min] *)
Definition min (l : list nat) : result nat :=
  match l with
  | [] => Raise (ValueError "zero-size array to reduction operation minimum")
  | x :: rest => Ok (fold_right Nat.min x rest)
  end.

(** Bounds of the slice [lo:hi] on an axis of length [len]. *)
Definition slice_bound (len : nat) (x : Z) : nat :=
  if x <? 0 then Z.to_nat (Z.max 0 (x + Z.of_nat len))
  else Nat.min (Z.to_nat x) len.

(** [l[lo:hi] = v] on one axis. *)
Definition set_slice {A} (lo hi : Z) (f : A -> A) (l : list A) : list A :=
  let b := slice_bound (length l) lo in
  let e := slice_bound (length l) hi in
  map (fun '(i, x) => if Nat.leb b i && Nat.ltb i e then f x else x)
      (enumerate l).

(** [a[i, lo:hi] = v] for a row index within bounds, else [IndexError]. *)
Definition set_row_slice (i : nat) (lo hi : Z) (v : Z) (a : ndarray)
  : result ndarray :=
  if Nat.ltb i (length (rows a)) then
    Ok (mk_ndarray (ncols a)
          (map (fun '(i', r) =>
                  if Nat.eqb i' i then set_slice lo hi (fun _ => v) r else r)
               (enumerate (rows a))))
  else Raise (IndexError "index out of bounds for axis 0").

(** [a[lo:hi, :] = v] *)
Definition set_rows (lo hi : Z) (v : Z) (a : ndarray) : ndarray :=
  mk_ndarray (ncols a) (set_slice lo hi (map (fun _ => v)) (rows a)).

(** An index on an axis of length [len]: negative indices count from the
    end, anything outside the axis is an [IndexError]. *)
Definition axis_index (axis : string) (len : nat) (i : Z) : result nat :=
  let i' := if i <? 0 then i + Z.of_nat len else i in
  if (0 <=? i') && (i' <? Z.of_nat len) then Ok (Z.to_nat i')
  else Raise (IndexError ("index out of bounds for axis " ++ axis)).

Fixpoint update {A} (i : nat) (f : A -> A) (l : list A) : list A :=
  match l, i with
  | [], _ => []
  | x :: rest, O => f x :: rest
  | x :: rest, S i' => x :: update i' f rest
  end.

(** [a[i, j]] *)
Definition get (a : ndarray) (i j : Z) : result Z :=
  let* i' := axis_index "0" (length (rows a)) i in
  let* j' := axis_index "1" (ncols a) j in
  Ok (nth j' (nth i' (rows a) []) 0).

(** [a[i, j] = v] *)
Definition set (a : ndarray) (i j : Z) (v : Z) : result ndarray :=
  let* i' := axis_index "0" (length (rows a)) i in
  let* j' := axis_index "1" (ncols a) j in
  Ok (mk_ndarray (ncols a) (update i' (update j' (fun _ => v)) (rows a))).

(** Element-wise operations on two arrays of one shape. *)
Definition zip_with (f : Z -> Z -> Z) (a b : ndarray) : ndarray :=
  mk_ndarray (ncols a)
    (map (fun '(r1, r2) => map (fun '(x, y) => f x y) (combine r1 r2))
         (combine (rows a) (rows b))).

Definition sub : ndarray -> ndarray -> ndarray := zip_with Z.sub.
Definition bit_or : ndarray -> ndarray -> ndarray := zip_with Z.lor.
Definition bit_and : ndarray -> ndarray -> ndarray := zip_with Z.land.

(** Broadcasting of two axes: equal lengths, or one of them of length 1,
    which is then repeated. *)
Definition broadcastable (d1 d2 : nat) : bool :=
  Nat.eqb d1 d2 || Nat.eqb d1 1 || Nat.eqb d2 1.

Definition broadcast_dim (d1 d2 : nat) : nat :=
  if Nat.eqb d1 1 then d2 else d1.

Definition stretch {A} (n : nat) (l : list A) : list A :=
  match l with
  | [x] => repeat x n
  | _ => l
  end.

Definition broadcast_to (r c : nat) (a : ndarray) : ndarray :=
  mk_ndarray c (map (stretch c) (stretch r (rows a))).

(** [np.all(a == b)].  Shapes that do not broadcast raise [ValueError], as
    [numpy] does from version 1.25 on. *)
Definition all_eq (a b : ndarray) : result bool :=
  let r1 := length (rows a) in
  let r2 := length (rows b) in
  if broadcastable r1 r2 && broadcastable (ncols a) (ncols b) then
    let r := broadcast_dim r1 r2 in
    let c := broadcast_dim (ncols a) (ncols b) in
    Ok (forallb (fun '(r1, r2) => forallb (fun '(x, y) => x =? y) (combine r1 r2))
          (combine (rows (broadcast_to r c a)) (rows (broadcast_to r c b))))
  else Raise (ValueError "operands could not be broadcast together").

End Np.

(** ** [realhf.base.slurm_utils] and [realhf.base.cluster] *)

Module SlurmUtils.

(** Positions of the cells equal to 1. *)
Definition one_positions (bits : list Z) : list nat :=
  map fst (filter (fun '(_, x) => x =? 1) (Np.enumerate bits)).

Fixpoint consecutive (l : list nat) : bool :=
  match l with
  | a :: ((b :: _) as rest) => Nat.eqb b (S a) && consecutive rest
  | _ => true
  end.

(** Modelled from the spec: [are_ones_contiguous] lives in
    [realhf/base/slurm_utils.py], which is not among the sources.  The
    specification describes it as: given a flattened 0/1 sequence, reports
    whether all 1s form a single uninterrupted run. *)
Definition are_ones_contiguous (bits : list Z) : bool :=
  match one_positions bits with
  | [] => false
  | ps => consecutive ps
  end.

(** The remaining imports of the module: the cluster specification
    ([node_name_prefix], [suffix_n_digits]) and the two node-list
    functions.  Their code is not among the sources, so the mesh
    operations take them as an environment. *)
Record env : Type := mk_env {
  node_name_prefix : string;
  suffix_n_digits : nat;
  parse_nodelist : option string -> string -> result (list string);
  nodelist_from_nodes : list string -> string -> result string
}.

End SlurmUtils.
Import SlurmUtils.

(** ** The [DeviceMesh] dataclass *)

(** The value held by the [mapping] attribute: a [numpy] array, or the nested
    list that [tolist] produces and [from_dict] receives. *)
Inductive mapping_value : Type :=
| NdArray (a : Np.ndarray)
| NestedList (l : list (list Z)).

Module DeviceMesh.

Record t : Type := mk {
  n_nodes : Z;
  n_gpus_per_node : Z;
  mapping : mapping_value;
  global_mesh_name : option string;
  name : option string;
  gpu_memory_capacity : Z
}.

(** The default of the [gpu_memory_capacity] field. *)
Definition default_gpu_memory_capacity : Z := 80 * 1024 ^ 3.

(** The dictionary of [to_dict], keyed by the field names. *)
Record dict : Type := mk_dict {
  d_n_nodes : Z;
  d_n_gpus_per_node : Z;
  d_mapping : mapping_value;
  d_global_mesh_name : option string;
  d_name : option string;
  d_gpu_memory_capacity : Z
}.

(** Attribute access [mapping.<attr>] for an attribute of arrays. *)
Definition ndarray_attr (attr : string) (m : mapping_value)
  : result Np.ndarray :=
  match m with
  | NdArray a => Ok a
  | NestedList _ =>
      Raise (AttributeError ("'list' object has no attribute '" ++ attr ++ "'"))
  end.

(** [np.sum(mapping)], which accepts nested lists as well. *)
Definition np_sum (m : mapping_value) : Z :=
  match m with
  | NdArray a => Np.sum a
  | NestedList l => Np.sum_list (concat l)
  end.

(** [math.log(n, 2).is_integer()] and [int(math.log(n, 2))].  The code
    computes the logarithm in floating point; here it is taken exactly, so
    the first says that [n] is a power of two and the second is its
    exponent.  [math.log] raises [ValueError] outside the positive
    numbers. *)
Definition log2_is_integer (n : Z) : result bool :=
  if n <=? 0 then Raise (ValueError "math domain error")
  else Ok (2 ^ Z.log2 n =? n).

Definition int_log2 (n : Z) : result Z :=
  if n <=? 0 then Raise (ValueError "math domain error")
  else Ok (Z.log2 n).

Definition msg_shape : string := "Invalid mapping shape".
Definition msg_value : string := "Invalid mapping value".
Definition msg_sub_node : string :=
  "Invalid mapping. If using GPUs less than an entire node, only 1, 2, 4, 8, ... GPUs are allowed.".
Definition msg_whole_nodes : string :=
  "Invalid mapping sum. If using GPUs more than an entire node, only several complete nodes are allowed.".
Definition msg_contiguous : string := "mapping devices are not contiguous".

(** [self.mapping.shape != (self.n_nodes, self.n_gpus_per_node)], on an array
    whose rows all have [ncols] cells. *)
Definition shape_differs (a : Np.ndarray) (nodes gpus : Z) : bool :=
  negb ((Z.of_nat (length (Np.rows a)) =? nodes)
        && (Z.of_nat (Np.ncols a) =? gpus)
        && Np.rectangular a).

Definition _is_valid_mapping (self : t) : result bool :=
  let* a := ndarray_attr "shape" (mapping self) in
  let n := n_gpus_per_node self in
  if shape_differs a (n_nodes self) n then Raise (RuntimeError msg_shape)
  else if negb (forallb (forallb (fun x => (x =? 0) || (x =? 1))) (Np.rows a))
  then Raise (RuntimeError msg_value)
  else
    let* is_int := log2_is_integer n in
    let* _ := py_assert is_int "" in
    let* k := int_log2 n in
    let one_node_valid_gpus :=
      map (fun i => 2 ^ Z.of_nat i) (seq 0 (Z.to_nat k)) in
    let* _ :=
      if Np.sum a <? n then
        if negb (existsb (fun g => Np.sum a =? g) one_node_valid_gpus)
        then Raise (RuntimeError msg_sub_node)
        else Ok tt
      else
        if negb ((Np.sum a mod n =? 0)
                 && forallb (fun s => (s =? n) || (s =? 0)) (Np.sum_axis1 a))
        then Raise (RuntimeError msg_whole_nodes)
        else Ok tt in
    if negb (are_ones_contiguous (Np.flatten a))
    then Raise (RuntimeError msg_contiguous)
    else Ok true.

(** [l[i]] on a Python list, for a non-negative index. *)
Definition list_item {A} (l : list A) (i : nat) : result A :=
  match nth_error l i with
  | Some x => Ok x
  | None => Raise (IndexError "list index out of range")
  end.

(** [arr[i]] on a one-dimensional array, for a non-negative index. *)
Definition array_item {A} (arr : list A) (i : nat) : result A :=
  match nth_error arr i with
  | Some x => Ok x
  | None => Raise (IndexError "index is out of bounds for axis 0")
  end.

Definition device_mesh_name_from_mapping
    (e : env) (global_mesh_name : option string) (mapping : mapping_value)
  : result string :=
  let prefix := node_name_prefix e in
  let* node_list := parse_nodelist e global_mesh_name prefix in
  let n_nodes := length node_list in
  let* a := ndarray_attr "shape" mapping in
  let n_gpus_per_node := Z.of_nat (Np.ncols a) in
  let* _ := py_assert (Nat.eqb (length (Np.rows a)) n_nodes) "" in
  let '(node_indices, gpu_ids) := Np.where_eq 1 a in
  if Np.sum a <? n_gpus_per_node then
    let* first := array_item node_indices 0 in
    let* node_name := list_item node_list first in
    Ok (node_name ++ ":" ++ String.concat "," (map str_of_nat gpu_ids))%string
  else
    let unique_node_indices := Np.unique node_indices in
    let* sub_node_list :=
      comprehension (list_item node_list) unique_node_indices in
    nodelist_from_nodes e sub_node_list prefix.

(** The whole-cluster name that [__post_init__] derives. *)
Definition default_global_mesh_name (e : env) (nodes : Z) : string :=
  let n := suffix_n_digits e in
  if nodes >? 1 then
    (node_name_prefix e ++ "[" ++ zero_padded n 1 ++ "-"
       ++ zero_padded n (Z.to_nat nodes) ++ "]")%string
  else (node_name_prefix e ++ zero_padded n 1)%string.

Definition __post_init__ (e : env) (self : t) : result t :=
  let gmn :=
    match global_mesh_name self with
    | None => Some (default_global_mesh_name e (n_nodes self))
    | Some g => Some g
    end in
  let* nm :=
    match name self with
    | None =>
        let* s := device_mesh_name_from_mapping e gmn (mapping self) in
        Ok (Some s)
    | Some s => Ok (Some s)
    end in
  let self' :=
    mk (n_nodes self) (n_gpus_per_node self) (mapping self) gmn nm
       (gpu_memory_capacity self) in
  let* _ := _is_valid_mapping self' in
  Ok self'.

(** The constructor call [DeviceMesh(n_nodes=..., ..., name=...)]. *)
Definition new (e : env) (nodes gpus : Z) (m : mapping_value)
    (gmn nm : option string) : result t :=
  __post_init__ e (mk nodes gpus m gmn nm default_gpu_memory_capacity).

Definition to_dict (self : t) : result dict :=
  let* a := ndarray_attr "tolist" (mapping self) in
  Ok (mk_dict (n_nodes self) (n_gpus_per_node self)
        (NestedList (Np.tolist a)) (global_mesh_name self) (name self)
        (gpu_memory_capacity self)).

(** [np.array(value)] *)
Definition np_array (m : mapping_value) : Np.ndarray :=
  match m with
  | NdArray a => a
  | NestedList l => Np.array l
  end.

Definition from_dict (e : env) (d : dict) : result t :=
  let* device_mesh :=
    __post_init__ e
      (mk (d_n_nodes d) (d_n_gpus_per_node d) (d_mapping d)
          (d_global_mesh_name d) (d_name d) (d_gpu_memory_capacity d)) in
  Ok (mk (n_nodes device_mesh) (n_gpus_per_node device_mesh)
         (NdArray (np_array (d_mapping d)))
         (global_mesh_name device_mesh) (name device_mesh)
         (gpu_memory_capacity device_mesh)).

Definition option_string_eqb (a b : option string) : bool :=
  match a, b with
  | Some x, Some y => String.eqb x y
  | None, None => true
  | _, _ => false
  end.

Definition __eq__ (self other : t) : result bool :=
  let* _ :=
    py_assert
      (match global_mesh_name self with None => true | Some _ => false end
       || option_string_eqb (global_mesh_name self) (global_mesh_name other))
      "Only device meshes that on the same cluster mesh is comparable" in
  match mapping self, mapping other with
  | NdArray a, NdArray b => Np.all_eq a b
  | NdArray a, NestedList l => Np.all_eq a (Np.array l)
  | NestedList l, NdArray b => Np.all_eq (Np.array l) b
  | NestedList l1, NestedList l2 =>
      Ok (if list_eq_dec (list_eq_dec Z.eq_dec) l1 l2 then true else false)
  end.

(** The [while t > 0] loop of [split].  Every iteration either advances
    [cnt] or clears a cell and decrements [t], and indexing past the grid
    raises, so [fuel] iterations suffice when [fuel] exceeds the number of
    cells plus [t] (lemma [split_loop_flat]). *)
Fixpoint split_loop (fuel : nat) (n_gpus_per_node : Z)
    (sub_mapping2 : Np.ndarray) (t cnt : Z) : result Np.ndarray :=
  match fuel with
  | O => Ok sub_mapping2
  | S fuel' =>
      if t >? 0 then
        let* i := py_floordiv cnt n_gpus_per_node in
        let* j := py_mod cnt n_gpus_per_node in
        let* x := Np.get sub_mapping2 i j in
        if x =? 0 then
          split_loop fuel' n_gpus_per_node sub_mapping2 t (cnt + 1)
        else
          let* sub_mapping2' := Np.set sub_mapping2 i j 0 in
          split_loop fuel' n_gpus_per_node sub_mapping2' (t - 1) cnt
      else Ok sub_mapping2
  end.

Definition split_fuel (a : Np.ndarray) (split_n_gpus : Z) : nat :=
  (length (Np.flatten a) + Z.to_nat split_n_gpus + 1)%nat.

Definition split (e : env) (self : t) (split_n_gpus : Z) : result (t * t) :=
  let* _ := _is_valid_mapping self in
  let* a := ndarray_attr "sum" (mapping self) in
  let* _ :=
    py_assert (Np.sum a >? split_n_gpus)
      "split size should be smaller than the number of current GPUs" in
  let* sub_mapping2 :=
    split_loop (split_fuel a split_n_gpus) (n_gpus_per_node self)
      a split_n_gpus 0 in
  let sub_mapping1 := Np.sub a sub_mapping2 in
  let* name1 :=
    device_mesh_name_from_mapping e (global_mesh_name self)
      (NdArray sub_mapping1) in
  let* d1 :=
    new e (n_nodes self) (n_gpus_per_node self) (NdArray sub_mapping1)
      (global_mesh_name self) (Some name1) in
  let* name2 :=
    device_mesh_name_from_mapping e (global_mesh_name self)
      (NdArray sub_mapping2) in
  let* d2 :=
    new e (n_nodes self) (n_gpus_per_node self) (NdArray sub_mapping2)
      (global_mesh_name self) (Some name2) in
  let* _ := _is_valid_mapping d1 in
  let* _ := _is_valid_mapping d2 in
  Ok (d1, d2).

(** [np.zeros((r, c), dtype=np.int32)] for Python integers [r], [c]. *)
Definition np_zeros (r c : Z) : result Np.ndarray :=
  if (r <? 0) || (c <? 0)
  then Raise (ValueError "negative dimensions are not allowed")
  else Ok (Np.zeros (Z.to_nat r) (Z.to_nat c)).

(** The [while n_gpus < min(...)] loop of [sub_device_meshes] for one row.
    [n_gpus] doubles, so [bound] iterations suffice when it starts
    positive; a non-positive [n_gpus] below [bound] never reaches it, and
    the Python loop then runs forever. *)
Fixpoint widths_loop (fuel : nat) (self : t) (row : nat)
    (this_cols : list nat) (bound n_gpus : Z) (sub_mappings : list Np.ndarray)
  : result (list Np.ndarray) :=
  match fuel with
  | O => if n_gpus <? bound then Raise Diverges else Ok sub_mappings
  | S fuel' =>
      if n_gpus <? bound then
        let* first_col := Np.min this_cols in
        let* starts :=
          py_range (Z.of_nat first_col) (n_gpus_per_node self) n_gpus in
        let* sub_mappings' :=
          for_each starts
            (fun acc start =>
               let* zeros := np_zeros (n_nodes self) (n_gpus_per_node self) in
               let* sub_mapping :=
                 Np.set_row_slice row start (start + n_gpus) 1 zeros in
               Ok (acc ++ [sub_mapping]))
            sub_mappings in
        widths_loop fuel' self row this_cols bound (n_gpus * 2) sub_mappings'
      else Ok sub_mappings
  end.

(** The array part of [sub_device_meshes]: the list [sub_mappings]. *)
Definition sub_mappings (self : t) (min_n_gpus : Z)
  : result (list Np.ndarray) :=
  let* a :=
    match mapping self with
    | NdArray a => Ok a
    | NestedList _ =>
        Raise (ValueError "not enough values to unpack (expected 2, got 1)")
    end in
  let '(rows, cols) := Np.where_eq 1 a in
  let unique_rows := Np.unique rows in
  let* single_node :=
    for_each unique_rows
      (fun acc row =>
         let this_cols := Np.select_eq rows cols row in
         let* r1 := py_mod (n_gpus_per_node self) min_n_gpus in
         let* divides :=
           if r1 =? 0 then Ok true
           else let* r2 := py_mod min_n_gpus (n_gpus_per_node self) in
                Ok (r2 =? 0) in
         let* _ := py_assert divides "" in
         let bound := Z.min (n_gpus_per_node self) (Np.sum a) in
         widths_loop (Z.to_nat bound) self row this_cols bound min_n_gpus acc)
      [] in
  let n_unique := length unique_rows in
  for_each (seq 1 n_unique)
    (fun acc n_rows =>
       for_each (seq 0 (n_unique - n_rows + 1))
         (fun acc start =>
            let* zeros := np_zeros (n_nodes self) (n_gpus_per_node self) in
            let sub_mapping :=
              Np.set_rows (Z.of_nat start) (Z.of_nat (start + n_rows)) 1 zeros in
            Ok (acc ++ [sub_mapping]))
         acc)
    single_node.

Definition sub_device_meshes (e : env) (self : t) (min_n_gpus : Z)
  : result (list t) :=
  let* sub_mappings := sub_mappings self min_n_gpus in
  comprehension
    (fun sub_mapping =>
       let* nm :=
         device_mesh_name_from_mapping e (global_mesh_name self)
           (NdArray sub_mapping) in
       new e (n_nodes self) (n_gpus_per_node self) (NdArray sub_mapping)
         (global_mesh_name self) (Some nm))
    sub_mappings.

End DeviceMesh.

(** ** Parallelism strategies *)

(** Modelled from the spec: [ParallelismConfig] is declared in
    [realhf/api/cli_args.py], which is not among the sources.  The
    specification gives the triple as (pipeline, model-parallel,
    data-parallel) degrees, the order of the positional arguments in
    [find_parallel_strategies]; the field names are those read by
    [RPCAllocation.__post_init__]. *)
Record ParallelismConfig : Type := mk_parallel {
  pipeline_parallel_size : Z;
  model_parallel_size : Z;
  data_parallel_size : Z
}.

(** The [while num_pp <= num_dp_pp] loop: [num_pp] counts up from 1, so
    [num_dp_pp] iterations exhaust it. *)
Fixpoint pp_loop (fuel : nat) (n_gpus num_mp num_dp_pp num_pp : Z)
    (res : list ParallelismConfig) : list ParallelismConfig :=
  match fuel with
  | O => res
  | S fuel' =>
      if num_pp <=? num_dp_pp then
        let num_dp_mp := n_gpus / num_pp in
        let valid :=
          (existsb (Z.eqb num_dp_mp) [1; 2; 4; 8] || (num_dp_mp mod 8 =? 0))
          && (num_dp_pp mod num_pp =? 0) in
        let res' :=
          if valid
          then res ++ [mk_parallel num_pp num_mp (num_dp_pp / num_pp)]
          else res in
        pp_loop fuel' n_gpus num_mp num_dp_pp (num_pp + 1) res'
      else res
  end.

Definition find_parallel_strategies (device_mesh : DeviceMesh.t)
  : result (list ParallelismConfig) :=
  let n_gpus := DeviceMesh.np_sum (DeviceMesh.mapping device_mesh) in
  for_each [1; 2; 4; 8]
    (fun res num_mp =>
       if n_gpus >=? num_mp then
         let* _ := py_assert (n_gpus mod num_mp =? 0) "" in
         let num_dp_pp := n_gpus / num_mp in
         Ok (pp_loop (Z.to_nat num_dp_pp) n_gpus num_mp num_dp_pp 1 res)
       else Ok res)
    [].

(** ** Allocation records *)

Module RPCAllocation.
Section WithMFCDef.

(** [MFCDef] comes from [realhf.api.core.dfg]; only its [name] attribute is
    used here. *)
Variable MFCDef : Type.
Variable mfc_name : MFCDef -> string.

(** The [rpc] attribute holds an [MFCDef], or the string that [from_dict]
    stores there. *)
Inductive rpc_value : Type :=
| RpcDef (d : MFCDef)
| RpcName (s : string).

Record t : Type := mk {
  rpc : rpc_value;
  device_mesh : DeviceMesh.t;
  parallel : ParallelismConfig
}.

Record dict : Type := mk_dict {
  d_rpc : string;
  d_device_mesh : DeviceMesh.dict;
  d_parallel : ParallelismConfig
}.

Definition __post_init__ (self : t) : result t :=
  let world_size :=
    model_parallel_size (parallel self)
    * pipeline_parallel_size (parallel self)
    * data_parallel_size (parallel self) in
  let* a :=
    DeviceMesh.ndarray_attr "sum" (DeviceMesh.mapping (device_mesh self)) in
  let* _ :=
    py_assert (world_size =? Np.sum a)
      "World size of ParallelismConfig does not match number of GPUs in device mesh" in
  Ok self.

Definition new (r : rpc_value) (m : DeviceMesh.t) (p : ParallelismConfig)
  : result t :=
  __post_init__ (mk r m p).

Definition to_dict (self : t) : result dict :=
  let* rpc_name :=
    match rpc self with
    | RpcDef d => Ok (mfc_name d)
    | RpcName _ => Raise (AttributeError "'str' object has no attribute 'name'")
    end in
  let* dm := DeviceMesh.to_dict (device_mesh self) in
  Ok (mk_dict rpc_name dm (parallel self)).

Definition from_dict (e : env) (d : dict) : result t :=
  let* dm := DeviceMesh.from_dict e (d_device_mesh d) in
  new (RpcName (d_rpc d)) dm (d_parallel d).

End WithMFCDef.
End RPCAllocation.

(** ** A reference naming environment *)

Module Topology.

(** [s.split(sep)] for a one-character separator. *)
Fixpoint split_on (sep : ascii) (s : string) : list string :=
  match s with
  | EmptyString => [EmptyString]
  | String c rest =>
      if Ascii.eqb c sep then EmptyString :: split_on sep rest
      else match split_on sep rest with
           | [] => [String c EmptyString]
           | w :: ws => String c w :: ws
           end
  end.

(** A non-empty string of decimal digits. *)
Definition parse_index (s : string) : option nat :=
  match s with
  | EmptyString => None
  | _ => option_map Nat.of_uint (NilEmpty.uint_of_string s)
  end.

(** One entry of a range list: [i] or [i-j]. *)
Definition parse_entry (s : string) : option (list nat) :=
  match split_on "-" s with
  | [a] => option_map (fun i => [i]) (parse_index a)
  | [a; b] =>
      match parse_index a, parse_index b with
      | Some i, Some j => Some (seq i (S j - i))
      | _, _ => None
      end
  | _ => None
  end.

Fixpoint parse_entries (l : list string) : option (list nat) :=
  match l with
  | [] => Some []
  | s :: rest =>
      match parse_entry s, parse_entries rest with
      | Some ids, Some ids' => Some (ids ++ ids')
      | _, _ => None
      end
  end.

Definition malformed {A} : result A :=
  Raise (ValueError "MalformedTopologyName").

Definition strip_prefix (prefix s : string) : option string :=
  if String.prefix prefix s
  then Some (substring (String.length prefix)
               (String.length s - String.length prefix) s)
  else None.

(** Modelled from the spec: [parse_nodelist] lives in
    [realhf/base/slurm_utils.py], which is not among the sources.  The
    specification: parses a compact range syntax ([PREFIX[i-j]],
    [PREFIX[i,j,k-l]], or a single [PREFIXi]) into an explicit,
    order-preserving list of node names; fails when the prefix does not
    match or the numeric ranges are unparsable.  Indices are zero-padded
    to the configured width. *)
Definition parse_nodelist (width : nat) (nodelist : option string)
    (prefix : string) : result (list string) :=
  match nodelist with
  | None => malformed
  | Some s =>
      match strip_prefix prefix s with
      | None => malformed
      | Some body =>
          match body with
          | String "[" inner =>
              let n := String.length inner in
              if String.eqb (substring (n - 1) 1 inner) "]" then
                match parse_entries (split_on "," (substring 0 (n - 1) inner)) with
                | Some ids =>
                    Ok (map (fun i => (prefix ++ zero_padded width i)%string) ids)
                | None => malformed
                end
              else malformed
          | _ =>
              match parse_index body with
              | Some _ => Ok [s]
              | None => malformed
              end
          end
      end
  end.

(** Maximal runs of consecutive indices, as (first, last) pairs. *)
Fixpoint runs_from (first last : nat) (l : list nat) : list (nat * nat) :=
  match l with
  | [] => [(first, last)]
  | i :: rest =>
      if Nat.eqb i (S last) then runs_from first i rest
      else (first, last) :: runs_from i i rest
  end.

Definition render_run (width : nat) (r : nat * nat) : string :=
  let '(a, b) := r in
  if Nat.eqb a b then zero_padded width a
  else (zero_padded width a ++ "-" ++ zero_padded width b)%string.

Fixpoint node_indices (prefix : string) (nodes : list string)
  : option (list nat) :=
  match nodes with
  | [] => Some []
  | s :: rest =>
      match strip_prefix prefix s with
      | Some body =>
          match parse_index body, node_indices prefix rest with
          | Some i, Some ids => Some (i :: ids)
          | _, _ => None
          end
      | None => None
      end
  end.

(** Modelled from the spec: [nodelist_from_nodes] lives in
    [realhf/base/slurm_utils.py], which is not among the sources.  The
    specification: the inverse of the parser; contiguous runs collapse to
    [i-j], disjoint entries are comma-joined, a single node renders as
    [PREFIXi]. *)
Definition nodelist_from_nodes (width : nat) (nodes : list string)
    (prefix : string) : result string :=
  match node_indices prefix nodes with
  | Some [i] => Ok (prefix ++ zero_padded width i)%string
  | Some (i :: rest) =>
      Ok (prefix ++ "["
            ++ String.concat "," (map (render_run width) (runs_from i i rest))
            ++ "]")%string
  | _ => malformed
  end.

(** A cluster whose nodes are called [NODE01], [NODE02], ... *)
Definition cluster : env :=
  mk_env "NODE" 2 (parse_nodelist 2) (nodelist_from_nodes 2).

End Topology.

(** ** Specification-level notions *)

Module Spec.

Definition is_power_of_two (n : Z) : Prop := exists k, 0 <= k /\ n = 2 ^ k.

(** The six invariants of a mesh, by the name of what breaks them. *)
Inductive violation : Type :=
| BadValues
| BadShape
| GpusNotPowerOfTwo
| SubNodeCount
| PartialNodes
| NotContiguous.

Definition invariant (v : violation) (nodes gpus : Z) (a : Np.ndarray)
  : Prop :=
  match v with
  | BadValues => Forall (Forall (fun x => x = 0 \/ x = 1)) (Np.rows a)
  | BadShape => Np.shape a = (nodes, gpus) /\ Np.rectangular a = true
  | GpusNotPowerOfTwo => is_power_of_two gpus
  | SubNodeCount => Np.sum a < gpus -> is_power_of_two (Np.sum a)
  | PartialNodes =>
      gpus <= Np.sum a ->
      Np.sum a mod gpus = 0
      /\ Forall (fun s => s = gpus \/ s = 0) (Np.sum_axis1 a)
  | NotContiguous => are_ones_contiguous (Np.flatten a) = true
  end.

Definition invariants (nodes gpus : Z) (a : Np.ndarray) : Prop :=
  forall v, invariant v nodes gpus a.

Definition violates (v : violation) (nodes gpus : Z) (a : Np.ndarray)
  : Prop :=
  ~ invariant v nodes gpus a.

(** The error with which [_is_valid_mapping] reports each violation. *)
Definition identifies (err : exn) (v : violation) : Prop :=
  match v with
  | BadValues => err = RuntimeError DeviceMesh.msg_value
  | BadShape => err = RuntimeError DeviceMesh.msg_shape
  | GpusNotPowerOfTwo =>
      err = AssertionError "" \/ err = ValueError "math domain error"
  | SubNodeCount => err = RuntimeError DeviceMesh.msg_sub_node
  | PartialNodes => err = RuntimeError DeviceMesh.msg_whole_nodes
  | NotContiguous => err = RuntimeError DeviceMesh.msg_contiguous
  end.

(** A mesh object whose mapping passes validation. *)
Definition valid (m : DeviceMesh.t) : Prop :=
  DeviceMesh._is_valid_mapping m = Ok true.

(** Total number of claimed GPUs of a mesh object. *)
Definition total (m : DeviceMesh.t) : Z :=
  DeviceMesh.np_sum (DeviceMesh.mapping m).

End Spec.

(** ** Definitions of the statements *)

(** The cluster name under which [__post_init__] derives the mesh name. *)
Definition cluster_name (e : env) (self : DeviceMesh.t) : option string :=
  match DeviceMesh.global_mesh_name self with
  | None => Some (DeviceMesh.default_global_mesh_name e (DeviceMesh.n_nodes self))
  | Some g => Some g
  end.

(** The fields of a mesh claiming GPUs 0, 1, 2 of one eight-GPU node. *)
Definition three_of_eight : DeviceMesh.t :=
  DeviceMesh.mk 1 8 (NdArray (Np.mk_ndarray 8 [[1; 1; 1; 0; 0; 0; 0; 0]]))
    None None DeviceMesh.default_gpu_memory_capacity.

(** The fields of a mesh claiming nodes 0 and 2 of a three-node cluster. *)
Definition nodes_0_and_2 : DeviceMesh.t :=
  DeviceMesh.mk 3 8
    (NdArray (Np.mk_ndarray 8 [repeat 1 8%nat; repeat 0 8%nat; repeat 1 8%nat]))
    None None DeviceMesh.default_gpu_memory_capacity.

(** One fully claimed node, as the constructor returns it. *)
Definition full_node : DeviceMesh.t :=
  DeviceMesh.mk 1 8 (NdArray (Np.mk_ndarray 8 [repeat 1 8%nat])) (Some "NODE01")
    (Some "NODE01") DeviceMesh.default_gpu_memory_capacity.

(** The fields of a mesh claiming nothing of one eight-GPU node. *)
Definition all_zeros_1x8 : DeviceMesh.t :=
  DeviceMesh.mk 1 8 (NdArray (Np.zeros 1 8))
    None None DeviceMesh.default_gpu_memory_capacity.

(** The combined data and model width fits within a node or spans whole
    nodes. *)
Definition width_ok (w : Z) : Prop := In w [1; 2; 4; 8] \/ w mod 8 = 0.

(** The constraints on a triple for [n] devices. *)
Definition legal_triple (n : Z) (p : ParallelismConfig) : Prop :=
  let pp := pipeline_parallel_size p in
  let mp := model_parallel_size p in
  let dp := data_parallel_size p in
  In mp [1; 2; 4; 8] /\ mp <= n /\ n mod mp = 0
  /\ 1 <= pp <= n / mp
  /\ dp = n / (pp * mp) /\ n mod (pp * mp) = 0
  /\ width_ok (n / pp)
  /\ (n / mp) mod pp = 0.

(** Ascending model-parallel degree, then ascending pipeline degree. *)
Definition triple_lt (p q : ParallelismConfig) : Prop :=
  model_parallel_size p < model_parallel_size q
  \/ (model_parallel_size p = model_parallel_size q
      /\ pipeline_parallel_size p < pipeline_parallel_size q).

(** The [valid] flag of the search loop. *)
Definition pp_valid (n mp pp : Z) : bool :=
  (existsb (Z.eqb (n / pp)) [1; 2; 4; 8] || ((n / pp) mod 8 =? 0))
  && ((n / mp) mod pp =? 0).

(** The triples appended for [count] pipeline degrees from [first] on. *)
Definition strategies_from (n mp : Z) (first : Z) (count : nat)
  : list ParallelismConfig :=
  map (fun pp => mk_parallel pp mp (n / mp / pp))
      (filter (pp_valid n mp)
         (map (fun i => first + Z.of_nat i) (seq 0 count))).

(** The triples appended for one model-parallel degree. *)
Definition chunk (n mp : Z) : list ParallelismConfig :=
  if n >=? mp then strategies_from n mp 1 (Z.to_nat (n / mp)) else [].

(** Every model-parallel degree that is tried divides the device count. *)
Definition divisors_ok (n : Z) : Prop :=
  forall mp, In mp [1; 2; 4; 8] -> mp <= n -> n mod mp = 0.

(** [np.ones((r, c))] *)
Definition ones (r c : nat) : Np.ndarray := Np.mk_ndarray c (repeat (repeat 1 c) r).

(** Three fully claimed nodes of four GPUs each, as the constructor
    returns it. *)
Definition mesh_3x4 : DeviceMesh.t :=
  DeviceMesh.mk 3 4 (NdArray (ones 3 4)) (Some "NODE[01-03]")
    (Some "NODE[01-03]") DeviceMesh.default_gpu_memory_capacity.

(** One fully claimed node of eight GPUs. *)
Definition mesh_1x8 : DeviceMesh.t :=
  DeviceMesh.mk 1 8 (NdArray (ones 1 8)) (Some "NODE01")
    (Some "NODE01") DeviceMesh.default_gpu_memory_capacity.

(** [a] claims no cell that [b] does not claim. *)
Definition within (a b : Np.ndarray) : bool :=
  forallb (fun '(r1, r2) => forallb (fun '(x, y) => x <=? y) (combine r1 r2))
    (combine (Np.rows a) (Np.rows b)).

(** The array claiming GPUs [start .. start + size - 1] of node [row]. *)
Definition row_block (nodes gpus row start size : nat) : Np.ndarray :=
  Np.mk_ndarray gpus
    (map (fun i =>
            map (fun j =>
                   if Nat.eqb i row && Nat.leb start j && Nat.ltb j (start + size)
                   then 1 else 0)
                (seq 0 gpus))
         (seq 0 nodes)).

(** The array claiming the whole nodes [first .. first + count - 1]. *)
Definition node_span (nodes gpus first count : nat) : Np.ndarray :=
  Np.mk_ndarray gpus
    (map (fun i =>
            repeat (if Nat.leb first i && Nat.ltb i (first + count) then 1 else 0)
                   gpus)
         (seq 0 nodes)).

(** The second node of a two-node cluster, fully claimed. *)
Definition mesh_node_1_of_2 : DeviceMesh.t :=
  DeviceMesh.mk 2 8 (NdArray (node_span 2 8 1 1)) (Some "NODE[01-02]")
    (Some "NODE02") DeviceMesh.default_gpu_memory_capacity.

(** GPUs 1 to 4 of a single eight-GPU node. *)
Definition mesh_gpus_1_to_4 : DeviceMesh.t :=
  DeviceMesh.mk 1 8 (NdArray (row_block 1 8 0 1 4)) (Some "NODE01")
    (Some "NODE01:1,2,3,4") DeviceMesh.default_gpu_memory_capacity.

(** The dictionary of [mesh_1x8]. *)
Definition dict_1x8 : DeviceMesh.dict :=
  DeviceMesh.mk_dict 1 8 (NestedList [[1; 1; 1; 1; 1; 1; 1; 1]]) (Some "NODE01")
    (Some "NODE01") DeviceMesh.default_gpu_memory_capacity.

(** The error of [mapping.shape] on a nested list. *)
Definition no_shape_attribute : exn :=
  AttributeError "'list' object has no attribute 'shape'".

(** An allocation of the full node to a task named by a string. *)
Definition allocation_1x8 : RPCAllocation.t string :=
  RPCAllocation.mk string (RPCAllocation.RpcDef string "actor_train")
    mesh_1x8 (mk_parallel 1 1 8).

(** The sub-mappings enumerated for two fully claimed nodes of a
    four-node, eight-GPU cluster with [min_n_gpus = 4]. *)
Definition expected_sub_mappings : list Np.ndarray :=
  [row_block 4 8 0 0 4; row_block 4 8 0 4 4;
   row_block 4 8 1 0 4; row_block 4 8 1 4 4;
   node_span 4 8 0 1; node_span 4 8 1 1; node_span 4 8 0 2].

(** The mesh of [mesh_1x8] with its cluster name removed. *)
Definition mesh_1x8_unnamed : DeviceMesh.t :=
  DeviceMesh.mk 1 8 (NdArray (ones 1 8)) None
    (Some "NODE01") DeviceMesh.default_gpu_memory_capacity.

(** The assertion failure of [__eq__]. *)
Definition not_comparable : exn :=
  AssertionError "Only device meshes that on the same cluster mesh is comparable".

(** Membership in an explicit list, by finding the element. *)
Ltac find_in :=
  cbn [In map]; repeat (first [left; reflexivity | right]).

(** The row-major cell sequence with only its first [k] claimed cells
    kept, and with its first [k] claimed cells cleared. *)
Fixpoint keep_claimed (k : nat) (cells : list Z) : list Z :=
  match cells with
  | [] => []
  | c :: rest =>
      if c =? 0 then 0 :: keep_claimed k rest
      else match k with
           | O => 0 :: keep_claimed O rest
           | S k' => c :: keep_claimed k' rest
           end
  end.

Fixpoint drop_claimed (k : nat) (cells : list Z) : list Z :=
  match cells with
  | [] => []
  | c :: rest =>
      if c =? 0 then c :: drop_claimed k rest
      else match k with
           | O => c :: drop_claimed O rest
           | S k' => 0 :: drop_claimed k' rest
           end
  end.

(** [r] rows of [c] cells each, cut from a cell sequence. *)
Fixpoint chunks (c r : nat) (cells : list Z) : list (list Z) :=
  match r with
  | O => []
  | S r' => firstn c cells :: chunks c r' (skipn c cells)
  end.

Definition reshape_like (a : Np.ndarray) (cells : list Z) : Np.ndarray :=
  Np.mk_ndarray (Np.ncols a) (chunks (Np.ncols a) (length (Np.rows a)) cells).

(** The two halves that [split k] is to produce. *)
Definition first_claimed (k : Z) (a : Np.ndarray) : Np.ndarray :=
  reshape_like a (keep_claimed (Z.to_nat k) (Np.flatten a)).

Definition rest_claimed (k : Z) (a : Np.ndarray) : Np.ndarray :=
  reshape_like a (drop_claimed (Z.to_nat k) (Np.flatten a)).

(** Number of claimed cells of a sequence. *)
Definition count_claimed (cells : list Z) : nat :=
  length (filter (fun x => negb (x =? 0)) cells).

(** Rows of [c] cells each. *)
Definition uniform (c : nat) (rs : list (list Z)) : Prop :=
  Forall (fun r => length r = c) rs.

(** Cells that are all 0 or 1. *)
Definition binary_cells (l : list Z) : Prop := Forall (fun x => x = 0 \/ x = 1) l.

(** Cell-wise combination of two sequences. *)
Definition map2 (f : Z -> Z -> Z) (l1 l2 : list Z) : list Z :=
  map (fun '(x, y) => f x y) (combine l1 l2).

(** The error of indexing past the last row. *)
Definition out_of_grid : exn := IndexError "index out of bounds for axis 0".

(** The assertion failure of [split] on a size that is not below the
    total. *)
Definition split_too_large : exn :=
  AssertionError "split size should be smaller than the number of current GPUs".

(** ** Set operations on meshes: [overlap], [contain], [contained_by] *)

Module MeshOps.

(** The result of a call that may also raise [TypeError], which none of
    the operations above does. *)
Inductive outcome (A : Type) : Type :=
| Value (a : A)
| Error (e : exn)
| TypeError (msg : string).
Arguments Value {A} a.
Arguments Error {A} e.
Arguments TypeError {A} msg.

Definition lift {A} (c : result A) : outcome A :=
  match c with
  | Ok a => Value a
  | Raise e => Error e
  end.

Definition and_then {A B} (c : outcome A) (k : A -> outcome B) : outcome B :=
  match c with
  | Value a => k a
  | Error e => Error e
  | TypeError msg => TypeError msg
  end.

(** [np.any(a)] *)
Definition np_any (a : Np.ndarray) : bool :=
  existsb (existsb (fun x => negb (x =? 0))) (Np.rows a).

(** [a & b] on two arrays: element-wise after broadcasting, [ValueError]
    when the shapes do not broadcast. *)
Definition np_and (a b : Np.ndarray) : result Np.ndarray :=
  let r1 := length (Np.rows a) in
  let r2 := length (Np.rows b) in
  if Np.broadcastable r1 r2 && Np.broadcastable (Np.ncols a) (Np.ncols b) then
    let r := Np.broadcast_dim r1 r2 in
    let c := Np.broadcast_dim (Np.ncols a) (Np.ncols b) in
    Ok (Np.bit_and (Np.broadcast_to r c a) (Np.broadcast_to r c b))
  else Raise (ValueError "operands could not be broadcast together").

(** [m1 & m2] on two [mapping] attributes: an array operand converts a
    list operand, two lists have no [&]. *)
Definition mapping_and (m1 m2 : mapping_value) : outcome Np.ndarray :=
  match m1, m2 with
  | NestedList _, NestedList _ =>
      TypeError "unsupported operand type(s) for &: 'list' and 'list'"
  | _, _ => lift (np_and (DeviceMesh.np_array m1) (DeviceMesh.np_array m2))
  end.

Definition __op_assertion (self other : DeviceMesh.t) : result unit :=
  let* _ :=
    py_assert
      (match DeviceMesh.global_mesh_name self with None => true | Some _ => false end
       || DeviceMesh.option_string_eqb (DeviceMesh.global_mesh_name self)
            (DeviceMesh.global_mesh_name other))
      "operation only support device meshes on the same cluster nodes" in
  let* _ :=
    py_assert (DeviceMesh.n_nodes self =? DeviceMesh.n_nodes other) "" in
  py_assert
    (DeviceMesh.n_gpus_per_node self =? DeviceMesh.n_gpus_per_node other) "".

Definition overlap (self other : DeviceMesh.t) : outcome bool :=
  and_then (lift (__op_assertion self other)) (fun _ =>
  and_then (mapping_and (DeviceMesh.mapping self) (DeviceMesh.mapping other))
    (fun both => Value (np_any both))).

Definition contain (self other : DeviceMesh.t) : outcome bool :=
  and_then (lift (__op_assertion self other)) (fun _ =>
  and_then (mapping_and (DeviceMesh.mapping self) (DeviceMesh.mapping other))
    (fun both =>
       lift (Np.all_eq both (DeviceMesh.np_array (DeviceMesh.mapping self))))).

Definition contained_by (self other : DeviceMesh.t) : outcome bool :=
  and_then (lift (__op_assertion self other)) (fun _ =>
  and_then (mapping_and (DeviceMesh.mapping self) (DeviceMesh.mapping other))
    (fun both =>
       lift (Np.all_eq both (DeviceMesh.np_array (DeviceMesh.mapping other))))).

End MeshOps.

(** The cell of node [i], GPU [j], and whether the mesh array claims it. *)
Definition cell (a : Np.ndarray) (i j : nat) : Z := nth j (nth i (Np.rows a) []) 0.

Definition claimed (a : Np.ndarray) (i j : nat) : Prop := cell a i j = 1.

(** Two meshes on which the guard of the set operations passes in both
    directions. *)
Definition compatible (m1 m2 : DeviceMesh.t) : Prop :=
  DeviceMesh.global_mesh_name m1 = DeviceMesh.global_mesh_name m2
  /\ DeviceMesh.n_nodes m1 = DeviceMesh.n_nodes m2
  /\ DeviceMesh.n_gpus_per_node m1 = DeviceMesh.n_gpus_per_node m2.

Definition not_same_cluster : exn :=
  AssertionError "operation only support device meshes on the same cluster nodes".

(** GPUs 0 to 3 and GPUs 4 to 7 of one eight-GPU node. *)
Definition half_low : DeviceMesh.t :=
  DeviceMesh.mk 1 8 (NdArray (row_block 1 8 0 0 4)) (Some "NODE01")
    (Some "NODE01:0,1,2,3") DeviceMesh.default_gpu_memory_capacity.

Definition half_high : DeviceMesh.t :=
  DeviceMesh.mk 1 8 (NdArray (row_block 1 8 0 4 4)) (Some "NODE01")
    (Some "NODE01:4,5,6,7") DeviceMesh.default_gpu_memory_capacity.

(** A full eight-GPU node whose memory capacity is not the default. *)
Definition mesh_1x8_small : DeviceMesh.t :=
  DeviceMesh.mk 1 8 (NdArray (ones 1 8)) (Some "NODE01") (Some "NODE01")
    (16 * 1024 ^ 3).

(** Number of fully claimed nodes of an array, for [gpus] GPUs per node. *)
Definition full_nodes (gpus : Z) (a : Np.ndarray) : Z :=
  Z.of_nat (length (filter (fun s => s =? gpus) (Np.sum_axis1 a))).

(** The device counts on which no assertion of the search fails. *)
Definition searchable (n : Z) : Prop :=
  n < 1 \/ n = 1 \/ n = 2 \/ n = 4 \/ n mod 8 = 0.

(** Number of nodes on which an array claims a GPU. *)
Definition claimed_nodes (a : Np.ndarray) : nat :=
  length (Np.unique (fst (Np.where_eq 1 a))).

(** The whole-node spans in the order of the enumeration: every length
    from 1 to [j], and for each length every start from node 0 on that keeps
    the span within the first [j] nodes. *)
Definition whole_node_spans (nodes gpus j : nat) : list Np.ndarray :=
  flat_map
    (fun n_rows =>
       map (fun start => node_span nodes gpus start n_rows)
           (seq 0 (j - n_rows + 1)))
    (seq 1 j).

(** The dictionary [d] with its [mapping] entry converted by [np.array]. *)
Definition with_array_mapping (d : DeviceMesh.dict) : DeviceMesh.dict :=
  DeviceMesh.mk_dict (DeviceMesh.d_n_nodes d) (DeviceMesh.d_n_gpus_per_node d)
    (NdArray (DeviceMesh.np_array (DeviceMesh.d_mapping d)))
    (DeviceMesh.d_global_mesh_name d) (DeviceMesh.d_name d)
    (DeviceMesh.d_gpu_memory_capacity d).

(** ** Meshes from names *)

Module MeshNames.

(** [c in s] for a one-character string [c]. *)
Definition contains (c : ascii) (s : string) : bool :=
  existsb (Ascii.eqb c) (list_ascii_of_string s).

(** [a, b = l]: unpacking a list into two names. *)
Definition unpack_pair (l : list string) : result (string * string) :=
  match l with
  | [a; b] => Ok (a, b)
  | _ :: _ :: _ :: _ => Raise (ValueError "too many values to unpack (expected 2)")
  | _ => Raise (ValueError "not enough values to unpack (expected 2)")
  end.

(** [l.index(x)]: the first position of [x], [ValueError] when absent. *)
Fixpoint list_index (x : string) (l : list string) : result nat :=
  match l with
  | [] => Raise (ValueError "value is not in list")
  | y :: rest =>
      if String.eqb y x then Ok O
      else let* i := list_index x rest in Ok (S i)
  end.

(** [a[rows, :] = v] for a list of row indices. *)
Definition set_rows_at (idx : list Z) (v : Z) (a : Np.ndarray)
  : result Np.ndarray :=
  let* idx' := comprehension (Np.axis_index "0" (length (Np.rows a))) idx in
  Ok (Np.mk_ndarray (Np.ncols a)
        (fold_left (fun rs i => Np.update i (map (fun _ => v)) rs) idx'
           (Np.rows a))).

(** [a[i, cols] = v] for a list of column indices. *)
Definition set_cells_at (i : Z) (cols : list Z) (v : Z) (a : Np.ndarray)
  : result Np.ndarray :=
  let* i' := Np.axis_index "0" (length (Np.rows a)) i in
  let* cols' := comprehension (Np.axis_index "1" (Np.ncols a)) cols in
  Ok (Np.mk_ndarray (Np.ncols a)
        (Np.update i'
           (fun r => fold_left (fun r j => Np.update j (fun _ => v) r) cols' r)
           (Np.rows a))).

Section WithInt.

(** Python's [int] on a string: the integer that the string denotes, or a
    [ValueError]. *)
Variable py_int : string -> result Z.

Definition make_device_mesh_from_name
    (e : env) (global_mesh_name name : string) (n_gpus_per_node : Z)
  : result DeviceMesh.t :=
  let prefix := node_name_prefix e in
  let* node_list := parse_nodelist e (Some global_mesh_name) prefix in
  let n_nodes := length node_list in
  let* parsed :=
    if contains ":" name then
      let* halves := unpack_pair (Topology.split_on ":" name) in
      let* gpu_ids := comprehension py_int (Topology.split_on "," (snd halves)) in
      let* _ :=
        py_assert (forallb (fun gpu_id => gpu_id <? n_gpus_per_node) gpu_ids) "" in
      Ok (fst halves, Some gpu_ids)
    else Ok (name, None) in
  let* node_names := parse_nodelist e (Some (fst parsed)) prefix in
  let* zeros := DeviceMesh.np_zeros (Z.of_nat n_nodes) n_gpus_per_node in
  let* mapping :=
    match snd parsed with
    | None =>
        let* node_indices :=
          comprehension (fun node_name => list_index node_name node_list)
            node_names in
        set_rows_at (map Z.of_nat node_indices) 1 zeros
    | Some gpu_ids =>
        let* _ := py_assert (Nat.eqb (length node_names) 1) "" in
        let* first := DeviceMesh.list_item node_names 0 in
        let* node_index := list_index first node_list in
        set_cells_at (Z.of_nat node_index) gpu_ids 1 zeros
    end in
  DeviceMesh.__post_init__ e
    (DeviceMesh.mk (Z.of_nat n_nodes) n_gpus_per_node (NdArray mapping)
       (Some global_mesh_name) (Some name) DeviceMesh.default_gpu_memory_capacity).

End WithInt.

(** [int] on the decimal numerals: digits, with an optional minus sign.
    Python reads these strings the same way; the examples use no others. *)
Definition int_of_decimal (s : string) : result Z :=
  match NilZero.int_of_string s with
  | Some (Decimal.Pos d) => Ok (Z.of_nat (Nat.of_uint d))
  | Some (Decimal.Neg d) => Ok (- Z.of_nat (Nat.of_uint d))
  | None => Raise (ValueError "invalid literal for int() with base 10")
  end.

End MeshNames.

(** The names of the nodes on which an array claims a GPU, in the order of
    the cluster's node list. *)
Definition claimed_node_names (node_list : list string) (a : Np.ndarray)
  : list string :=
  map (fun r => nth r node_list "") (Np.unique (fst (Np.where_eq 1 a))).

(** * Properties *)

(** ** Validation *)

Lemma pow2_pos n : Spec.is_power_of_two n -> 0 < n.
Proof. intros (k & Hk & ->). apply Z.pow_pos_nonneg; lia. Qed.

Lemma log2_exact_iff n :
  0 < n -> (2 ^ Z.log2 n =? n) = true <-> Spec.is_power_of_two n.
Proof.
  intros Hn. rewrite Z.eqb_eq. split.
  - intros H. exists (Z.log2 n). split; [apply Z.log2_nonneg | lia].
  - intros (k & Hk & ->). now rewrite Z.log2_pow2.
Qed.

Lemma shape_differs_false a nodes gpus :
  DeviceMesh.shape_differs a nodes gpus = false
  <-> Spec.invariant Spec.BadShape nodes gpus a.
Proof.
  unfold DeviceMesh.shape_differs, Spec.invariant, Np.shape.
  rewrite negb_false_iff, !andb_true_iff, !Z.eqb_eq.
  split.
  - intros [[-> ->] ?]. auto.
  - intros [H ?]. inversion H. auto.
Qed.

Lemma binary_check a :
  forallb (forallb (fun x => (x =? 0) || (x =? 1))) (Np.rows a) = true
  <-> Spec.invariant Spec.BadValues 0 0 a.
Proof.
  simpl. rewrite forallb_forall, Forall_forall.
  split; intros H r Hr; specialize (H r Hr).
  - rewrite forallb_forall in H. apply Forall_forall. intros x Hx.
    specialize (H x Hx). lia.
  - rewrite Forall_forall in H. apply forallb_forall. intros x Hx.
    specialize (H x Hx). lia.
Qed.

Lemma one_node_valid_gpus_spec s K :
  0 <= K -> s < 2 ^ K ->
  existsb (fun g => s =? g) (map (fun i => 2 ^ Z.of_nat i) (seq 0 (Z.to_nat K)))
  = true <-> Spec.is_power_of_two s.
Proof.
  intros HK Hs. rewrite existsb_exists. split.
  - intros (g & Hg & Heq). apply in_map_iff in Hg as (i & <- & _).
    apply Z.eqb_eq in Heq. exists (Z.of_nat i). split; [lia | assumption].
  - intros (k & Hk & ->). exists (2 ^ k). split; [| apply Z.eqb_refl].
    apply in_map_iff. exists (Z.to_nat k). split.
    + now rewrite Z2Nat.id.
    + apply in_seq. assert (k < K) by (apply (Z.pow_lt_mono_r_iff 2); lia). lia.
Qed.

Lemma whole_nodes_check a n :
  (Np.sum a mod n =? 0)
  && forallb (fun s => (s =? n) || (s =? 0)) (Np.sum_axis1 a) = true
  <-> Np.sum a mod n = 0 /\ Forall (fun s => s = n \/ s = 0) (Np.sum_axis1 a).
Proof.
  rewrite andb_true_iff, Z.eqb_eq, forallb_forall, Forall_forall.
  split; intros [H1 H2]; split; auto; intros s Hs; specialize (H2 s Hs); lia.
Qed.

(** The validator accepts exactly the arrays that satisfy the six
    invariants. *)
Lemma valid_iff_invariants m :
  Spec.valid m <->
  exists a, DeviceMesh.mapping m = NdArray a
            /\ Spec.invariants (DeviceMesh.n_nodes m) (DeviceMesh.n_gpus_per_node m) a.
Proof.
  unfold Spec.valid, DeviceMesh._is_valid_mapping.
  destruct m as [nodes gpus mp gmn nm cap]; simpl.
  destruct mp as [a | l]; simpl.
  2: { split; [discriminate | intros (a & ? & _); discriminate]. }
  split.
  - intros H. exists a. split; [reflexivity |].
    destruct (DeviceMesh.shape_differs a nodes gpus) eqn:Hshape; [discriminate |].
    destruct (forallb _ (Np.rows a)) eqn:Hval; simpl in H; [| discriminate].
    unfold DeviceMesh.log2_is_integer, DeviceMesh.int_log2 in H.
    destruct (gpus <=? 0) eqn:Hpos; simpl in H; [discriminate |].
    destruct (2 ^ Z.log2 gpus =? gpus) eqn:Hpow; simpl in H; [| discriminate].
    apply Z.leb_gt in Hpos. apply log2_exact_iff in Hpow; [| assumption].
    assert (Hg : gpus = 2 ^ Z.log2 gpus).
    { destruct Hpow as (k & Hk & ->). now rewrite Z.log2_pow2. }
    destruct (Np.sum a <? gpus) eqn:Hlt.
    + destruct (existsb _ _) eqn:Hex; simpl in H; [| discriminate].
      destruct (are_ones_contiguous (Np.flatten a)) eqn:Hc; simpl in H; [| discriminate].
      apply Z.ltb_lt in Hlt.
      apply one_node_valid_gpus_spec in Hex; [| apply Z.log2_nonneg | lia].
      intros []; simpl; auto.
      * now apply binary_check.
      * now apply shape_differs_false.
      * lia.
    + destruct ((Np.sum a mod gpus =? 0) && _) eqn:Hw; simpl in H; [| discriminate].
      destruct (are_ones_contiguous (Np.flatten a)) eqn:Hc; simpl in H; [| discriminate].
      apply Z.ltb_ge in Hlt. apply whole_nodes_check in Hw.
      intros []; simpl; auto.
      * now apply binary_check.
      * now apply shape_differs_false.
      * lia.
  - intros (a' & Heq & Hinv). injection Heq as <-.
    pose proof (Hinv Spec.BadShape) as Hs. apply shape_differs_false in Hs.
    pose proof (Hinv Spec.BadValues) as Hv. apply binary_check in Hv.
    pose proof (Hinv Spec.GpusNotPowerOfTwo) as Hp. simpl in Hp.
    pose proof (pow2_pos _ Hp) as Hpos.
    pose proof (Hinv Spec.NotContiguous) as Hc. simpl in Hc.
    rewrite Hs, Hv. simpl.
    unfold DeviceMesh.log2_is_integer, DeviceMesh.int_log2.
    destruct (gpus <=? 0) eqn:E; [apply Z.leb_le in E; lia |]. simpl.
    pose proof (proj2 (log2_exact_iff gpus Hpos) Hp) as Hpow.
    rewrite Hpow. simpl.
    apply Z.eqb_eq in Hpow.
    destruct (Np.sum a <? gpus) eqn:Hlt.
    + apply Z.ltb_lt in Hlt.
      pose proof (Hinv Spec.SubNodeCount Hlt) as Hsub.
      apply (one_node_valid_gpus_spec _ (Z.log2 gpus)) in Hsub;
        [| apply Z.log2_nonneg | lia].
      rewrite Hsub. simpl. now rewrite Hc.
    + apply Z.ltb_ge in Hlt.
      pose proof (Hinv Spec.PartialNodes Hlt) as Hw. apply whole_nodes_check in Hw.
      rewrite Hw. simpl. now rewrite Hc.
Qed.

(** When the validator rejects an array, the error names an invariant that
    the array breaks. *)
Lemma validator_verdict nodes gpus a gmn nm cap :
  let m := DeviceMesh.mk nodes gpus (NdArray a) gmn nm cap in
  Spec.valid m
  \/ exists err v,
       DeviceMesh._is_valid_mapping m = Raise err
       /\ Spec.violates v nodes gpus a /\ Spec.identifies err v.
Proof.
  intros m. unfold Spec.valid, m, DeviceMesh._is_valid_mapping. simpl.
  destruct (DeviceMesh.shape_differs a nodes gpus) eqn:Hshape.
  { right. exists (RuntimeError DeviceMesh.msg_shape), Spec.BadShape.
    repeat split; auto. intros H. apply shape_differs_false in H. congruence. }
  destruct (forallb _ (Np.rows a)) eqn:Hval; simpl.
  2: { right. exists (RuntimeError DeviceMesh.msg_value), Spec.BadValues.
       repeat split; auto. intros H. apply (binary_check a) in H. congruence. }
  unfold DeviceMesh.log2_is_integer, DeviceMesh.int_log2.
  destruct (gpus <=? 0) eqn:Hpos; simpl.
  { right. exists (ValueError "math domain error"), Spec.GpusNotPowerOfTwo.
    repeat split; simpl; auto. intros H. apply pow2_pos in H.
    apply Z.leb_le in Hpos. lia. }
  apply Z.leb_gt in Hpos.
  destruct (2 ^ Z.log2 gpus =? gpus) eqn:Hpow; simpl.
  2: { right. exists (AssertionError ""), Spec.GpusNotPowerOfTwo.
       repeat split; simpl; auto. intros H.
       apply (log2_exact_iff gpus Hpos) in H. congruence. }
  pose proof Hpow as Hg. apply Z.eqb_eq in Hg.
  destruct (Np.sum a <? gpus) eqn:Hlt.
  - apply Z.ltb_lt in Hlt.
    destruct (existsb _ _) eqn:Hex; simpl.
    2: { right. exists (RuntimeError DeviceMesh.msg_sub_node), Spec.SubNodeCount.
         repeat split; simpl; auto. intros H. specialize (H Hlt).
         apply (one_node_valid_gpus_spec _ (Z.log2 gpus)) in H;
           [congruence | apply Z.log2_nonneg | lia]. }
    destruct (are_ones_contiguous (Np.flatten a)) eqn:Hc; simpl; auto.
    right. exists (RuntimeError DeviceMesh.msg_contiguous), Spec.NotContiguous.
    repeat split; simpl; auto. unfold Spec.violates; simpl. congruence.
  - apply Z.ltb_ge in Hlt.
    destruct ((Np.sum a mod gpus =? 0) && _) eqn:Hw; simpl.
    2: { right. exists (RuntimeError DeviceMesh.msg_whole_nodes), Spec.PartialNodes.
         repeat split; simpl; auto. intros H. specialize (H Hlt).
         apply whole_nodes_check in H. congruence. }
    destruct (are_ones_contiguous (Np.flatten a)) eqn:Hc; simpl; auto.
    right. exists (RuntimeError DeviceMesh.msg_contiguous), Spec.NotContiguous.
    repeat split; simpl; auto. unfold Spec.violates; simpl. congruence.
Qed.

Lemma validator_rejects nodes gpus a gmn nm cap :
  (exists v, Spec.violates v nodes gpus a) ->
  exists err v,
    DeviceMesh._is_valid_mapping (DeviceMesh.mk nodes gpus (NdArray a) gmn nm cap)
    = Raise err
    /\ Spec.violates v nodes gpus a /\ Spec.identifies err v.
Proof.
  intros (v & Hv).
  destruct (validator_verdict nodes gpus a gmn nm cap) as [Hok | H]; [| exact H].
  apply valid_iff_invariants in Hok as (a' & Heq & Hinv). simpl in *.
  injection Heq as <-. elim Hv. apply Hinv.
Qed.

(** Validation only reads the node count, the GPU count and the mapping. *)
Lemma validator_fields nodes gpus mp g1 n1 c1 g2 n2 c2 :
  DeviceMesh._is_valid_mapping (DeviceMesh.mk nodes gpus mp g1 n1 c1)
  = DeviceMesh._is_valid_mapping (DeviceMesh.mk nodes gpus mp g2 n2 c2).
Proof. reflexivity. Qed.

Lemma valid_returns_true m b :
  DeviceMesh._is_valid_mapping m = Ok b -> b = true.
Proof.
  unfold DeviceMesh._is_valid_mapping.
  destruct (DeviceMesh.ndarray_attr "shape" (DeviceMesh.mapping m)); simpl; [| discriminate].
  repeat match goal with
         | |- context [if ?c then _ else _] => destruct c; simpl
         | |- context [Py.bind ?c _] => destruct c; simpl
         end; congruence.
Qed.

(** What a successful [__post_init__] returns. *)
Lemma post_init_ok e self m :
  DeviceMesh.__post_init__ e self = Ok m ->
  Spec.valid m
  /\ DeviceMesh.n_nodes m = DeviceMesh.n_nodes self
  /\ DeviceMesh.n_gpus_per_node m = DeviceMesh.n_gpus_per_node self
  /\ DeviceMesh.mapping m = DeviceMesh.mapping self
  /\ DeviceMesh.gpu_memory_capacity m = DeviceMesh.gpu_memory_capacity self
  /\ (exists g, DeviceMesh.global_mesh_name m = Some g)
  /\ (exists s, DeviceMesh.name m = Some s)
  /\ (forall g, DeviceMesh.global_mesh_name self = Some g ->
                DeviceMesh.global_mesh_name m = Some g)
  /\ (forall s, DeviceMesh.name self = Some s -> DeviceMesh.name m = Some s).
Proof.
  unfold DeviceMesh.__post_init__.
  set (gmn := match DeviceMesh.global_mesh_name self with
              | Some g => Some g
              | None => _ end).
  destruct (match DeviceMesh.name self with Some s => _ | None => _ end)
    as [nm | err] eqn:Hnm; simpl; [| discriminate].
  destruct (DeviceMesh._is_valid_mapping _) as [b | err] eqn:Hv; simpl;
    [| discriminate].
  intros H. injection H as <-. simpl.
  pose proof (valid_returns_true _ _ Hv) as ->.
  repeat split; auto.
  - subst gmn. destruct (DeviceMesh.global_mesh_name self); eauto.
  - destruct (DeviceMesh.name self).
    + injection Hnm as <-. eauto.
    + destruct (DeviceMesh.device_mesh_name_from_mapping _ _ _); simpl in Hnm;
        [injection Hnm as <-; eauto | discriminate].
  - intros g Hg. subst gmn. now rewrite Hg.
  - intros s Hs. rewrite Hs in Hnm. congruence.
Qed.

(** With the name supplied, [__post_init__] is validation alone. *)
Lemma post_init_named e nodes gpus mp gmn s cap :
  DeviceMesh.__post_init__ e (DeviceMesh.mk nodes gpus mp gmn (Some s) cap)
  = let m := DeviceMesh.mk nodes gpus mp
               (match gmn with
                | Some g => Some g
                | None => Some (DeviceMesh.default_global_mesh_name e nodes)
                end) (Some s) cap in
    let* _ := DeviceMesh._is_valid_mapping m in Ok m.
Proof. reflexivity. Qed.

Lemma valid_total_pos m : Spec.valid m -> 1 <= Spec.total m.
Proof.
  intros H. apply valid_iff_invariants in H as (a & Heq & Hinv).
  unfold Spec.total. rewrite Heq. simpl.
  pose proof (Hinv Spec.GpusNotPowerOfTwo) as Hp. apply pow2_pos in Hp.
  destruct (Z_lt_le_dec (Np.sum a) (DeviceMesh.n_gpus_per_node m)) as [Hlt | Hge].
  - pose proof (Hinv Spec.SubNodeCount Hlt) as Hs. apply pow2_pos in Hs. lia.
  - lia.
Qed.

Lemma sum_all_zero a :
  Forall (Forall (fun x => x = 0)) (Np.rows a) -> Np.sum a = 0.
Proof.
  unfold Np.sum, Np.flatten. induction 1 as [| r rs Hr _ IH]; simpl; [reflexivity |].
  unfold Np.sum_list in *. rewrite fold_right_app, IH.
  induction Hr as [| x xs -> _ IHr]; simpl; auto.
Qed.


Lemma three_is_not_a_power_of_two : ~ Spec.is_power_of_two 3.
Proof.
  intros (k & Hk & E).
  assert (k = 0 \/ k = 1 \/ 2 <= k) as [-> | [-> | H]] by lia; try discriminate.
  pose proof (Z.pow_le_mono_r 2 2 k ltac:(lia) H) as Hle.
  change (2 ^ 2) with 4 in Hle. lia.
Qed.


(** The two scenarios of the specification. *)
Example three_of_eight_rejected :
  DeviceMesh.__post_init__ Topology.cluster three_of_eight
  = Raise (RuntimeError DeviceMesh.msg_sub_node).
Proof. reflexivity. Qed.

Example nodes_0_and_2_rejected :
  DeviceMesh.__post_init__ Topology.cluster nodes_0_and_2
  = Raise (RuntimeError DeviceMesh.msg_contiguous).
Proof. reflexivity. Qed.


(** Claim C10.  An all-zero mapping is rejected at construction, and every
    mesh that construction returns is valid and claims at least one GPU. *)
Theorem constructed_mesh_claims_a_gpu e self :
  (forall a,
      DeviceMesh.mapping self = NdArray a ->
      Forall (Forall (fun x => x = 0)) (Np.rows a) ->
      raises (DeviceMesh.__post_init__ e self))
  /\ (forall m,
        DeviceMesh.__post_init__ e self = Ok m ->
        Spec.valid m /\ 1 <= Spec.total m).
Proof.
  assert (Hok : forall m, DeviceMesh.__post_init__ e self = Ok m ->
                          Spec.valid m /\ 1 <= Spec.total m).
  { intros m Hm. apply post_init_ok in Hm as (Hv & _). split; [assumption |].
    now apply valid_total_pos. }
  split; [| exact Hok].
  intros a Hmap Hzero.
  destruct (DeviceMesh.__post_init__ e self) as [m | err] eqn:Hm.
  - pose proof Hm as Hm'. apply post_init_ok in Hm' as (_ & _ & _ & Hmp & _).
    destruct (Hok m eq_refl) as [_ Hpos].
    unfold Spec.total in Hpos. rewrite Hmp, Hmap in Hpos. simpl in Hpos.
    rewrite (sum_all_zero a Hzero) in Hpos. lia.
  - now exists err.
Qed.

Lemma constructed_mesh_claims_a_gpu_witness :
  raises (DeviceMesh.__post_init__ Topology.cluster all_zeros_1x8)
  /\ Spec.valid full_node /\ 1 <= Spec.total full_node.
Proof.
  split.
  - apply (proj1 (constructed_mesh_claims_a_gpu Topology.cluster all_zeros_1x8)
             (Np.zeros 1 8) eq_refl).
    repeat constructor.
  - apply (proj2 (constructed_mesh_claims_a_gpu Topology.cluster
                    (DeviceMesh.mk 1 8 (NdArray (Np.mk_ndarray 8 [repeat 1 8%nat]))
                       None None DeviceMesh.default_gpu_memory_capacity))).
    reflexivity.
Defined.

(** Without a name from the caller, an all-zero mapping never reaches the
    validator: the name derivation stops first, whatever the node-list
    functions are. *)
Lemma where_eq_all_zero a :
  Forall (Forall (fun x => x = 0)) (Np.rows a) -> Np.where_eq 1 a = ([], []).
Proof.
  intros H. unfold Np.where_eq, Np.enumerate.
  assert (E : forall start,
             flat_map
               (fun '(i, r) =>
                  map (fun '(j, _) => (i, j))
                    (filter (fun '(_, x) => x =? 1)
                       (combine (seq 0 (length r)) r)))
               (combine (seq start (length (Np.rows a))) (Np.rows a)) = []).
  { induction H as [| r rs Hr _ IH]; intros start; simpl; [reflexivity |].
    rewrite IH, app_nil_r.
    replace (filter _ (combine (seq 0 (length r)) r)) with (@nil (nat * Z));
      [reflexivity |].
    symmetry. generalize 0%nat.
    induction Hr as [| x xs -> _ IHr]; intros n; simpl; auto. }
  now rewrite E.
Qed.

Lemma all_zero_without_name e self a :
  DeviceMesh.mapping self = NdArray a ->
  DeviceMesh.name self = None ->
  Forall (Forall (fun x => x = 0)) (Np.rows a) ->
  (0 < Np.ncols a)%nat ->
  exists err,
    DeviceMesh.__post_init__ e self = Raise err
    /\ (parse_nodelist e (cluster_name e self) (node_name_prefix e) = Raise err
        \/ err = AssertionError ""
        \/ err = IndexError "index is out of bounds for axis 0").
Proof.
  intros Hmap Hname Hzero Hcols.
  unfold DeviceMesh.__post_init__, cluster_name. rewrite Hname, Hmap.
  set (g := match DeviceMesh.global_mesh_name self with
            | Some g => Some g
            | None => _ end).
  unfold DeviceMesh.device_mesh_name_from_mapping.
  destruct (parse_nodelist e g (node_name_prefix e)) as [node_list | err];
    cbn [bind]; [| exists err; auto].
  cbn [DeviceMesh.ndarray_attr bind].
  destruct (Nat.eqb (length (Np.rows a)) (length node_list)); cbn [py_assert bind];
    [| eexists; split; [reflexivity | auto]].
  rewrite (where_eq_all_zero a Hzero), (sum_all_zero a Hzero).
  replace (0 <? Z.of_nat (Np.ncols a)) with true by (symmetry; apply Z.ltb_lt; lia).
  cbn. eexists; split; [reflexivity | auto].
Qed.

Lemma strategies_from_S n mp first count :
  strategies_from n mp first (S count)
  = (if pp_valid n mp first then [mk_parallel first mp (n / mp / first)] else [])
      ++ strategies_from n mp (first + 1) count.
Proof.
  unfold strategies_from. cbn [seq map]. rewrite <- seq_shift, map_map.
  cbn [filter]. rewrite Z.add_0_r.
  replace (map (fun x => first + Z.of_nat (S x)) (seq 0 count))
    with (map (fun i => first + 1 + Z.of_nat i) (seq 0 count))
    by (apply map_ext; intros; lia).
  destruct (pp_valid n mp first); reflexivity.
Qed.

Lemma pp_loop_spec n mp fuel : forall num_pp res,
  Z.of_nat fuel = n / mp - num_pp + 1 ->
  pp_loop fuel n mp (n / mp) num_pp res
  = res ++ strategies_from n mp num_pp fuel.
Proof.
  induction fuel as [| fuel IH]; intros num_pp res Hfuel.
  - simpl. unfold strategies_from. simpl. now rewrite app_nil_r.
  - cbn [pp_loop]. destruct (num_pp <=? n / mp) eqn:Hle; [| apply Z.leb_gt in Hle; lia].
    rewrite IH by lia. rewrite strategies_from_S.
    fold (pp_valid n mp num_pp).
    destruct (pp_valid n mp num_pp); [now rewrite <- app_assoc | reflexivity].
Qed.

Lemma pp_loop_chunk n mp res :
  0 < mp -> mp <= n ->
  pp_loop (Z.to_nat (n / mp)) n mp (n / mp) 1 res
  = res ++ strategies_from n mp 1 (Z.to_nat (n / mp)).
Proof.
  intros Hmp Hle. apply pp_loop_spec.
  assert (0 <= n / mp) by (apply Z.div_pos; lia). lia.
Qed.

Lemma find_parallel_strategies_verdict d :
  let n := Spec.total d in
  (divisors_ok n
   /\ find_parallel_strategies d
      = Ok (chunk n 1 ++ chunk n 2 ++ chunk n 4 ++ chunk n 8))
  \/ (~ divisors_ok n
      /\ find_parallel_strategies d = Raise (AssertionError "")).
Proof.
  intros n. unfold find_parallel_strategies. fold (Spec.total d). fold n.
  assert (Hstep : forall mp res,
             0 < mp ->
             (if n >=? mp
              then let* _ := py_assert (n mod mp =? 0) "" in
                   Ok (pp_loop (Z.to_nat (n / mp)) n mp (n / mp) 1 res)
              else Ok res)
             = if (n >=? mp) && negb (n mod mp =? 0)
               then Raise (AssertionError "")
               else Ok (res ++ chunk n mp)).
  { intros mp res Hmp. unfold chunk.
    destruct (n >=? mp) eqn:Hge; simpl; [| now rewrite app_nil_r].
    destruct (n mod mp =? 0); simpl; [| reflexivity].
    rewrite pp_loop_chunk; [reflexivity | lia | lia]. }
  cbn [for_each].
  rewrite (Hstep 1 []) by lia.
  destruct ((n >=? 1) && negb (n mod 1 =? 0)) eqn:H1; cbn [bind].
  { right. split; [| reflexivity]. intros H.
    apply andb_true_iff in H1 as [Ha Hb]. apply negb_true_iff, Z.eqb_neq in Hb.
    apply Hb, H; simpl; auto. lia. }
  rewrite (Hstep 2) by lia.
  destruct ((n >=? 2) && negb (n mod 2 =? 0)) eqn:H2; cbn [bind].
  { right. split; [| reflexivity]. intros H.
    apply andb_true_iff in H2 as [Ha Hb]. apply negb_true_iff, Z.eqb_neq in Hb.
    apply Hb, H; simpl; auto. lia. }
  rewrite (Hstep 4) by lia.
  destruct ((n >=? 4) && negb (n mod 4 =? 0)) eqn:H4; cbn [bind].
  { right. split; [| reflexivity]. intros H.
    apply andb_true_iff in H4 as [Ha Hb]. apply negb_true_iff, Z.eqb_neq in Hb.
    apply Hb, H; simpl; auto. lia. }
  rewrite (Hstep 8) by lia.
  destruct ((n >=? 8) && negb (n mod 8 =? 0)) eqn:H8; cbn [bind].
  { right. split; [| reflexivity]. intros H.
    apply andb_true_iff in H8 as [Ha Hb]. apply negb_true_iff, Z.eqb_neq in Hb.
    apply Hb, H; simpl; auto. lia. }
  left. split.
  - intros mp Hin Hle.
    simpl in Hin. destruct Hin as [<- | [<- | [<- | [<- | []]]]].
    + apply andb_false_iff in H1 as [H | H]; [lia |].
      now apply negb_false_iff, Z.eqb_eq in H.
    + apply andb_false_iff in H2 as [H | H]; [lia |].
      now apply negb_false_iff, Z.eqb_eq in H.
    + apply andb_false_iff in H4 as [H | H]; [lia |].
      now apply negb_false_iff, Z.eqb_eq in H.
    + apply andb_false_iff in H8 as [H | H]; [lia |].
      now apply negb_false_iff, Z.eqb_eq in H.
  - simpl. now rewrite <- !app_assoc.
Qed.

Lemma pp_valid_spec n mp pp :
  pp_valid n mp pp = true <-> width_ok (n / pp) /\ (n / mp) mod pp = 0.
Proof.
  unfold pp_valid, width_ok.
  rewrite andb_true_iff, orb_true_iff, existsb_exists, !Z.eqb_eq.
  split; intros [Hw Hd]; (split; [| exact Hd]).
  - destruct Hw as [(x & Hin & Hx) | Hw]; [left | now right].
    apply Z.eqb_eq in Hx. now subst.
  - destruct Hw as [Hin | Hw]; [left | now right].
    exists (n / pp). split; [assumption | apply Z.eqb_refl].
Qed.

Lemma in_strategies_from n mp first count p :
  In p (strategies_from n mp first count)
  <-> model_parallel_size p = mp
      /\ first <= pipeline_parallel_size p < first + Z.of_nat count
      /\ pp_valid n mp (pipeline_parallel_size p) = true
      /\ data_parallel_size p = n / mp / pipeline_parallel_size p.
Proof.
  unfold strategies_from. rewrite in_map_iff. split.
  - intros (pp & <- & Hin). apply filter_In in Hin as [Hin Hv].
    apply in_map_iff in Hin as (i & <- & Hi). apply in_seq in Hi.
    simpl. repeat split; auto; lia.
  - intros (Hmp & Hpp & Hv & Hdp). exists (pipeline_parallel_size p). split.
    + destruct p; simpl in *. now subst.
    + apply filter_In. split; [| assumption].
      apply in_map_iff. exists (Z.to_nat (pipeline_parallel_size p - first)).
      split; [lia |]. apply in_seq. lia.
Qed.

Lemma in_chunk n mp p :
  0 < mp ->
  In p (chunk n mp)
  <-> mp <= n
      /\ model_parallel_size p = mp
      /\ 1 <= pipeline_parallel_size p <= n / mp
      /\ pp_valid n mp (pipeline_parallel_size p) = true
      /\ data_parallel_size p = n / mp / pipeline_parallel_size p.
Proof.
  intros Hmp. unfold chunk. destruct (n >=? mp) eqn:Hge.
  - rewrite in_strategies_from.
    assert (0 <= n / mp) by (apply Z.div_pos; lia).
    split; intros H'; repeat split; try tauto; lia.
  - simpl. split; [tauto | intros [? _]; lia].
Qed.

Lemma exact_quotient n mp pp :
  0 < mp -> 0 < pp -> n mod mp = 0 -> (n / mp) mod pp = 0 ->
  n / mp / pp = n / (pp * mp) /\ n mod (pp * mp) = 0
  /\ pp * mp * (n / mp / pp) = n.
Proof.
  intros Hmp Hpp H1 H2.
  pose proof (Z.div_mod n mp ltac:(lia)) as E1.
  pose proof (Z.div_mod (n / mp) pp ltac:(lia)) as E2.
  set (q := n / mp / pp) in *.
  assert (En : n = q * (pp * mp)) by nia.
  clearbody q. clear E1 E2 H1 H2. subst n.
  repeat split.
  - rewrite Z.div_mul by lia. reflexivity.
  - apply Z.mod_mul. lia.
  - lia.
Qed.

(** Under the divisibility that the assertion demands, the enumerated
    triples are exactly the legal ones. *)
Lemma in_chunks_legal n p :
  divisors_ok n ->
  In p (chunk n 1 ++ chunk n 2 ++ chunk n 4 ++ chunk n 8) <-> legal_triple n p.
Proof.
  intros Hdiv. rewrite !in_app_iff, !in_chunk by lia.
  unfold legal_triple. split.
  - intros H.
    assert (Hc : exists mp, In mp [1; 2; 4; 8] /\ mp <= n
                            /\ model_parallel_size p = mp
                            /\ 1 <= pipeline_parallel_size p <= n / mp
                            /\ pp_valid n mp (pipeline_parallel_size p) = true
                            /\ data_parallel_size p = n / mp / pipeline_parallel_size p).
    { destruct H as [H | [H | [H | H]]];
        [exists 1 | exists 2 | exists 4 | exists 8]; simpl; tauto. }
    destruct Hc as (mp & Hin & Hle & Hmp & Hpp & Hv & Hdp).
    assert (0 < mp) by (simpl in Hin; lia).
    pose proof (Hdiv mp Hin Hle) as Hmod.
    apply pp_valid_spec in Hv as [Hw Hd].
    destruct (exact_quotient n mp (pipeline_parallel_size p)) as (E1 & E2 & _);
      try assumption; try lia.
    rewrite Hmp. repeat split; try assumption; try lia; congruence.
  - intros (Hin & Hle & Hmod & Hpp & Hdp & Hex & Hw & Hd).
    assert (0 < model_parallel_size p) by (simpl in Hin; lia).
    destruct (exact_quotient n (model_parallel_size p) (pipeline_parallel_size p))
      as (E1 & _); try assumption; try lia.
    assert (Hv : pp_valid n (model_parallel_size p) (pipeline_parallel_size p) = true)
      by (apply pp_valid_spec; auto).
    simpl in Hin.
    destruct Hin as [E | [E | [E | [E | []]]]]; rewrite <- E in *;
      [left | right; left | right; right; left | right; right; right];
      repeat split; auto; try lia; congruence.
Qed.

Lemma strategies_from_sorted n mp count : forall first,
  StronglySorted triple_lt (strategies_from n mp first count).
Proof.
  induction count as [| count IH]; intros first.
  - constructor.
  - rewrite strategies_from_S.
    destruct (pp_valid n mp first); simpl; [| apply IH].
    constructor; [apply IH |].
    apply Forall_forall. intros q Hq.
    apply in_strategies_from in Hq as (Hmp & Hpp & _).
    right. simpl. split; [congruence | lia].
Qed.

Lemma chunk_sorted n mp : StronglySorted triple_lt (chunk n mp).
Proof.
  unfold chunk. destruct (n >=? mp); [apply strategies_from_sorted | constructor].
Qed.

Lemma chunk_model n mp p : In p (chunk n mp) -> model_parallel_size p = mp.
Proof.
  unfold chunk. destruct (n >=? mp); [| contradiction].
  intros H. now apply in_strategies_from in H.
Qed.

Lemma sorted_app {A} (R : A -> A -> Prop) (l1 l2 : list A) :
  StronglySorted R l1 -> StronglySorted R l2 ->
  (forall x y, In x l1 -> In y l2 -> R x y) ->
  StronglySorted R (l1 ++ l2).
Proof.
  induction 1 as [| x l1 Hs IH Hx]; intros H2 Hcross; simpl; [assumption |].
  constructor.
  - apply IH; [assumption |]. intros; apply Hcross; simpl; auto.
  - apply Forall_app. split; [assumption |].
    apply Forall_forall. intros y Hy. apply Hcross; simpl; auto.
Qed.

Lemma chunks_sorted n :
  StronglySorted triple_lt (chunk n 1 ++ chunk n 2 ++ chunk n 4 ++ chunk n 8).
Proof.
  repeat apply sorted_app; try apply chunk_sorted;
    intros x y Hx Hy; left;
    repeat (apply in_app_or in Hy as [Hy | Hy]);
    apply chunk_model in Hx; apply chunk_model in Hy; lia.
Qed.

Example mesh_3x4_constructed :
  DeviceMesh.new Topology.cluster 3 4 (NdArray (ones 3 4)) None None = Ok mesh_3x4.
Proof. reflexivity. Qed.

Example mesh_1x8_constructed :
  DeviceMesh.new Topology.cluster 1 8 (NdArray (ones 1 8)) None None = Ok mesh_1x8.
Proof. reflexivity. Qed.

(** Claim C5 as stated fails for three whole nodes of four GPUs: the mesh
    is valid, its total is 12, and the search stops at the assertion for
    [num_mp = 8] instead of skipping that value. *)
Lemma strategy_search_asserts_divisibility :
  Spec.valid mesh_3x4
  /\ Spec.total mesh_3x4 = 12
  /\ find_parallel_strategies mesh_3x4 = Raise (AssertionError "")
  /\ ~ (exists res, find_parallel_strategies mesh_3x4 = Ok res).
Proof.
  repeat split; try reflexivity.
  intros (res & H). vm_compute in H. discriminate.
Qed.

(** Claim C5, as the code has it.  When every value of 1, 2, 4, 8 that does
    not exceed the device count divides it, the search returns, and the
    result holds exactly the triples that satisfy the constraints; larger
    values are skipped.  Otherwise the divisibility assertion fails. *)
Theorem strategy_search_enumerates d :
  (divisors_ok (Spec.total d) ->
   exists res,
     find_parallel_strategies d = Ok res
     /\ forall p, In p res <-> legal_triple (Spec.total d) p)
  /\ (~ divisors_ok (Spec.total d) ->
      find_parallel_strategies d = Raise (AssertionError "")).
Proof.
  destruct (find_parallel_strategies_verdict d) as [[Hdiv Hres] | [Hdiv Hres]].
  - split; [| tauto]. intros _. eexists. split; [exact Hres |].
    intros p. now apply in_chunks_legal.
  - split; [tauto |]. intros _. exact Hres.
Qed.

Lemma divisors_ok_8 : divisors_ok 8.
Proof.
  intros mp Hin _. simpl in Hin.
  destruct Hin as [<- | [<- | [<- | [<- | []]]]]; reflexivity.
Qed.

Lemma strategy_search_enumerates_witness :
  divisors_ok (Spec.total mesh_1x8)
  /\ exists res,
       find_parallel_strategies mesh_1x8 = Ok res
       /\ forall p, In p res <-> legal_triple (Spec.total mesh_1x8) p.
Proof.
  split; [exact divisors_ok_8 |].
  apply (proj1 (strategy_search_enumerates mesh_1x8)). exact divisors_ok_8.
Defined.

(** Claim C6.  Every returned triple has product equal to the device count,
    the result is in ascending order of model-parallel degree and then of
    pipeline degree, and for eight devices it includes (1,1,8), (1,8,1),
    (1,2,4), (1,4,2), (2,1,4) and (8,1,1). *)
Theorem strategy_search_products_and_order d res :
  find_parallel_strategies d = Ok res ->
  (forall p, In p res ->
     pipeline_parallel_size p * model_parallel_size p * data_parallel_size p
     = Spec.total d)
  /\ StronglySorted triple_lt res
  /\ (Spec.total d = 8 ->
      In (mk_parallel 1 1 8) res /\ In (mk_parallel 1 8 1) res
      /\ In (mk_parallel 1 2 4) res /\ In (mk_parallel 1 4 2) res
      /\ In (mk_parallel 2 1 4) res /\ In (mk_parallel 8 1 1) res).
Proof.
  intros Hres.
  destruct (find_parallel_strategies_verdict d) as [[Hdiv Hc] | [_ Hc]];
    [| rewrite Hc in Hres; discriminate].
  rewrite Hc in Hres. injection Hres as <-.
  split; [| split].
  - intros p Hp. apply in_chunks_legal in Hp; [| assumption].
    destruct Hp as (Hin & Hle & Hmod & Hpp & Hdp & Hex & _).
    assert (0 < model_parallel_size p) by (simpl in Hin; lia).
    pose proof (Z.div_mod (Spec.total d)
                  (pipeline_parallel_size p * model_parallel_size p)
                  ltac:(nia)) as E.
    rewrite Hex, <- Hdp in E. lia.
  - apply chunks_sorted.
  - intros H8. rewrite H8. vm_compute. tauto.
Qed.

Lemma strategy_search_products_and_order_witness :
  find_parallel_strategies mesh_1x8
  = Ok [mk_parallel 1 1 8; mk_parallel 2 1 4; mk_parallel 4 1 2;
        mk_parallel 8 1 1; mk_parallel 1 2 4; mk_parallel 2 2 2;
        mk_parallel 4 2 1; mk_parallel 1 4 2; mk_parallel 2 4 1;
        mk_parallel 1 8 1]
  /\ StronglySorted triple_lt
       [mk_parallel 1 1 8; mk_parallel 2 1 4; mk_parallel 4 1 2;
        mk_parallel 8 1 1; mk_parallel 1 2 4; mk_parallel 2 2 2;
        mk_parallel 4 2 1; mk_parallel 1 4 2; mk_parallel 2 4 1;
        mk_parallel 1 8 1].
Proof.
  split; [reflexivity |].
  apply (strategy_search_products_and_order mesh_1x8). reflexivity.
Defined.

(** ** Serialization *)

(** Whatever mesh the constructor returns, reading back its dictionary
    raises: [__post_init__] validates the nested list before [from_dict]
    converts it to an array. *)
Lemma from_dict_of_to_dict_raises e self m :
  DeviceMesh.__post_init__ e self = Ok m ->
  exists d, DeviceMesh.to_dict m = Ok d
            /\ DeviceMesh.from_dict e d = Raise no_shape_attribute.
Proof.
  intros Hm. apply post_init_ok in Hm
    as (Hv & _ & _ & _ & _ & (g & Hg) & (s & Hs) & _).
  apply valid_iff_invariants in Hv as (a & Ha & _).
  destruct m as [nodes gpus mp gmn nm cap]. simpl in *. subst.
  eexists. split; reflexivity.
Qed.

Lemma allocation_from_dict_of_to_dict_raises
    (MFCDef : Type) (mfc_name : MFCDef -> string) e self m r p :
  DeviceMesh.__post_init__ e self = Ok m ->
  forall alloc, RPCAllocation.new MFCDef (RPCAllocation.RpcDef MFCDef r) m p = Ok alloc ->
  exists d, RPCAllocation.to_dict MFCDef mfc_name alloc = Ok d
            /\ RPCAllocation.from_dict MFCDef e d = Raise no_shape_attribute.
Proof.
  intros Hm alloc Halloc.
  destruct (from_dict_of_to_dict_raises e self m Hm) as (d & Hd & Hfrom).
  unfold RPCAllocation.new, RPCAllocation.__post_init__ in Halloc. simpl in Halloc.
  destruct (DeviceMesh.ndarray_attr "sum" (DeviceMesh.mapping m)); simpl in Halloc;
    [| discriminate].
  destruct (py_assert _ _); simpl in Halloc; [| discriminate].
  injection Halloc as <-.
  unfold RPCAllocation.to_dict, RPCAllocation.from_dict. simpl.
  rewrite Hd. simpl. eexists. split; [reflexivity |]. simpl.
  now rewrite Hfrom.
Qed.

(** Claim C4, evaluated on one fully claimed node: the mesh is constructed
    and serialized, and [from_dict] on the result raises [AttributeError],
    for the mesh and for an allocation record that holds it. *)
Theorem serialized_mesh_does_not_deserialize :
  DeviceMesh.new Topology.cluster 1 8 (NdArray (ones 1 8)) None None = Ok mesh_1x8
  /\ DeviceMesh.to_dict mesh_1x8 = Ok dict_1x8
  /\ DeviceMesh.from_dict Topology.cluster dict_1x8 = Raise no_shape_attribute
  /\ RPCAllocation.new string (RPCAllocation.RpcDef string "actor_train")
       mesh_1x8 (mk_parallel 1 1 8) = Ok allocation_1x8
  /\ RPCAllocation.to_dict string (fun s => s) allocation_1x8
     = Ok (RPCAllocation.mk_dict "actor_train" dict_1x8 (mk_parallel 1 1 8))
  /\ RPCAllocation.from_dict string Topology.cluster
       (RPCAllocation.mk_dict "actor_train" dict_1x8 (mk_parallel 1 1 8))
     = Raise no_shape_attribute.
Proof. repeat split. Qed.

(** ** Sub-mesh enumeration *)

(** Claim C7, evaluated on the second node of a two-node cluster: the
    enumeration returns the first node, which the mesh does not claim. *)
Theorem sub_mesh_outside_parent :
  DeviceMesh.new Topology.cluster 2 8 (NdArray (node_span 2 8 1 1)) None None
  = Ok mesh_node_1_of_2
  /\ DeviceMesh.sub_device_meshes Topology.cluster mesh_node_1_of_2 4
     = Ok [DeviceMesh.mk 2 8 (NdArray (row_block 2 8 1 0 4)) (Some "NODE[01-02]")
             (Some "NODE02:0,1,2,3") DeviceMesh.default_gpu_memory_capacity;
           DeviceMesh.mk 2 8 (NdArray (row_block 2 8 1 4 4)) (Some "NODE[01-02]")
             (Some "NODE02:4,5,6,7") DeviceMesh.default_gpu_memory_capacity;
           DeviceMesh.mk 2 8 (NdArray (node_span 2 8 0 1)) (Some "NODE[01-02]")
             (Some "NODE01") DeviceMesh.default_gpu_memory_capacity]
  /\ within (node_span 2 8 0 1) (node_span 2 8 1 1) = false.
Proof. repeat split. Qed.

(** The single-node widths start at the first claimed GPU, whatever its
    index, and run to the end of the node. *)
Example sub_mesh_misaligned :
  Spec.valid mesh_gpus_1_to_4
  /\ exists l,
       DeviceMesh.sub_device_meshes Topology.cluster mesh_gpus_1_to_4 2 = Ok l
       /\ map DeviceMesh.mapping l
          = [NdArray (row_block 1 8 0 1 2); NdArray (row_block 1 8 0 3 2);
             NdArray (row_block 1 8 0 5 2); NdArray (row_block 1 8 0 7 1);
             NdArray (node_span 1 8 0 1)]
       /\ within (row_block 1 8 0 5 2) (row_block 1 8 0 1 4) = false.
Proof. split; [reflexivity |]. eexists. repeat split. Qed.

Lemma comprehension_ok {A B} (f : A -> result B) (P : A -> B -> Prop) xs :
  (forall x, In x xs -> exists y, f x = Ok y /\ P x y) ->
  exists ys, comprehension f xs = Ok ys /\ Forall2 P xs ys.
Proof.
  induction xs as [| x xs IH]; intros H; simpl.
  - exists []. split; [reflexivity | constructor].
  - destruct (H x (or_introl eq_refl)) as (y & Hy & HP).
    destruct IH as (ys & Hys & HF); [intros; apply H; now right |].
    exists (y :: ys). rewrite Hy. simpl. rewrite Hys. simpl.
    split; [reflexivity | now constructor].
Qed.

Lemma mappings_of_forall2 xs ys :
  Forall2 (fun a d => DeviceMesh.mapping d = NdArray a) xs ys ->
  map DeviceMesh.mapping ys = map NdArray xs.
Proof.
  induction 1 as [| a d xs ys Hd _ IH]; simpl; [reflexivity |].
  now rewrite Hd, IH.
Qed.

Lemma expected_sub_mappings_valid a gmn nm cap :
  In a expected_sub_mappings ->
  Spec.valid (DeviceMesh.mk 4 8 (NdArray a) gmn nm cap).
Proof.
  intros H. simpl in H.
  repeat (destruct H as [<- | H]; [reflexivity |]). contradiction.
Qed.

(** Claim C8.  For nodes 0 and 1 of a 4 x 8 cluster and [min_n_gpus = 4],
    provided each enumerated mapping can be named, the enumeration returns
    and holds a one-node mesh, the two-node mesh and the size-4 blocks at
    offsets 0 and 4 of both nodes; it holds no size-4 block at offset 1 and
    no mesh of three GPUs. *)
Theorem sub_meshes_of_two_full_nodes e g nm cap :
  (forall a, In a expected_sub_mappings ->
             exists s, DeviceMesh.device_mesh_name_from_mapping e (Some g)
                         (NdArray a) = Ok s) ->
  exists l,
    DeviceMesh.sub_device_meshes e
      (DeviceMesh.mk 4 8 (NdArray (node_span 4 8 0 2)) (Some g) (Some nm) cap) 4
    = Ok l
    /\ map DeviceMesh.mapping l = map NdArray expected_sub_mappings
    /\ In (NdArray (node_span 4 8 0 1)) (map DeviceMesh.mapping l)
    /\ In (NdArray (node_span 4 8 0 2)) (map DeviceMesh.mapping l)
    /\ (forall row start, (row = 0 \/ row = 1)%nat -> (start = 0 \/ start = 4)%nat ->
          In (NdArray (row_block 4 8 row start 4)) (map DeviceMesh.mapping l))
    /\ (forall row, ~ In (NdArray (row_block 4 8 row 1 4)) (map DeviceMesh.mapping l))
    /\ (forall a, In (NdArray a) (map DeviceMesh.mapping l) -> Np.sum a <> 3).
Proof.
  intros Hname.
  unfold DeviceMesh.sub_device_meshes.
  replace (DeviceMesh.sub_mappings _ 4) with (Ok expected_sub_mappings)
    by (vm_compute; reflexivity).
  cbn [bind].
  destruct (comprehension_ok
              (fun sub_mapping =>
                 let* nm0 := DeviceMesh.device_mesh_name_from_mapping e (Some g)
                               (NdArray sub_mapping) in
                 DeviceMesh.new e 4 8 (NdArray sub_mapping) (Some g) (Some nm0))
              (fun a d => DeviceMesh.mapping d = NdArray a)
              expected_sub_mappings) as (l & Hl & HF).
  { intros a Ha. destruct (Hname a Ha) as (s & Hs). rewrite Hs. cbn [bind].
    unfold DeviceMesh.new. rewrite post_init_named. cbv zeta.
    rewrite (expected_sub_mappings_valid a _ _ _ Ha). cbn [bind].
    eexists. split; reflexivity. }
  exists l. split; [exact Hl |].
  assert (Hmap : map DeviceMesh.mapping l = map NdArray expected_sub_mappings).
  { now apply mappings_of_forall2. }
  rewrite Hmap. split; [reflexivity |].
  split; [find_in |]. split; [find_in |].
  split; [| split].
  - intros row start [-> | ->] [-> | ->]; find_in.
  - intros row H.
    destruct row as [| [| [| [| row]]]]; vm_compute in H;
      repeat (destruct H as [H | H]; [discriminate |]); exact H.
  - intros a H. simpl in H.
    repeat (destruct H as [H | H]; [injection H as <-; vm_compute; discriminate |]).
    contradiction.
Qed.

Lemma sub_meshes_of_two_full_nodes_witness :
  exists l,
    DeviceMesh.sub_device_meshes Topology.cluster
      (DeviceMesh.mk 4 8 (NdArray (node_span 4 8 0 2)) (Some "NODE[01-04]")
         (Some "NODE[01-02]") DeviceMesh.default_gpu_memory_capacity) 4
    = Ok l
    /\ map DeviceMesh.mapping l = map NdArray expected_sub_mappings.
Proof.
  destruct (sub_meshes_of_two_full_nodes Topology.cluster "NODE[01-04]"
              "NODE[01-02]" DeviceMesh.default_gpu_memory_capacity)
    as (l & Hl & Hmap & _).
  - intros a Ha. simpl in Ha.
    repeat (destruct Ha as [<- | Ha]; [eexists; reflexivity |]). contradiction.
  - exists l. split; assumption.
Defined.

(** ** Comparison *)

Lemma list_eqb_spec (l1 l2 : list Z) :
  length l1 = length l2 ->
  forallb (fun '(x, y) => x =? y) (combine l1 l2) = true <-> l1 = l2.
Proof.
  revert l2. induction l1 as [| x l1 IH]; intros [| y l2] Hlen; simpl in *;
    try discriminate; [tauto |].
  rewrite andb_true_iff, Z.eqb_eq, IH by lia.
  split; [intros [-> ->]; reflexivity | intros H; injection H; auto].
Qed.

Lemma rows_eqb_spec (c : nat) (r1 r2 : list (list Z)) :
  length r1 = length r2 ->
  Forall (fun r => length r = c) r1 -> Forall (fun r => length r = c) r2 ->
  forallb (fun '(x, y) => forallb (fun '(u, v) => u =? v) (combine x y))
    (combine r1 r2) = true <-> r1 = r2.
Proof.
  revert r2. induction r1 as [| x r1 IH]; intros [| y r2] Hlen H1 H2; simpl in *;
    try discriminate; [tauto |].
  inversion H1; inversion H2; subst.
  rewrite andb_true_iff, list_eqb_spec, IH by (auto; lia).
  split; [intros [-> ->]; reflexivity | intros H; injection H; auto].
Qed.

Lemma rectangular_spec a :
  Np.rectangular a = true <-> Forall (fun r => length r = Np.ncols a) (Np.rows a).
Proof.
  unfold Np.rectangular. rewrite forallb_forall, Forall_forall.
  split; intros H r Hr; specialize (H r Hr); now apply Nat.eqb_eq.
Qed.

Lemma if_both {A} (b : bool) (x : A) : (if b then x else x) = x.
Proof. now destruct b. Qed.

Lemma stretch_id {A} (n : nat) (l : list A) :
  length l = n -> Np.stretch n l = l.
Proof.
  destruct l as [| x [| y l]]; simpl; intros <-; reflexivity.
Qed.

Lemma broadcast_to_id a :
  Np.rectangular a = true ->
  Np.broadcast_to (length (Np.rows a)) (Np.ncols a) a = a.
Proof.
  intros H. apply rectangular_spec in H. destruct a as [c rs]. simpl in *.
  unfold Np.broadcast_to. simpl. f_equal.
  rewrite stretch_id by reflexivity.
  induction H as [| r rs Hr _ IH]; simpl; [reflexivity |].
  now rewrite stretch_id, IH.
Qed.

Lemma all_eq_same_shape a b :
  Np.shape a = Np.shape b ->
  Np.rectangular a = true -> Np.rectangular b = true ->
  exists r, Np.all_eq a b = Ok r /\ (r = true <-> a = b).
Proof.
  intros Hshape Ha Hb. unfold Np.shape in Hshape.
  injection Hshape as Hr Hc.
  apply Nat2Z.inj in Hr. apply Nat2Z.inj in Hc.
  unfold Np.all_eq. cbv zeta. rewrite <- Hr, <- Hc.
  unfold Np.broadcastable, Np.broadcast_dim. rewrite !Nat.eqb_refl.
  cbn [orb andb].
  rewrite !if_both.
  rewrite (broadcast_to_id a Ha).
  rewrite Hr, Hc, (broadcast_to_id b Hb).
  eexists. split; [reflexivity |].
  rewrite (rows_eqb_spec (Np.ncols a)); try assumption.
  - destruct a, b; simpl in *. split; [intros ->; now subst | intros H; now injection H].
  - now apply rectangular_spec.
  - rewrite Hc. now apply rectangular_spec.
Qed.

Lemma option_string_eqb_spec a b :
  DeviceMesh.option_string_eqb a b = true <-> a = b.
Proof.
  destruct a as [x |], b as [y |]; simpl; try (split; congruence).
  rewrite String.eqb_eq. split; congruence.
Qed.

(** Claim C9 as stated fails when only the right-hand mesh has no cluster
    name: the comparison raises instead of succeeding. *)
Lemma equality_not_symmetric_in_unset_names :
  DeviceMesh.global_mesh_name mesh_1x8_unnamed = None
  /\ DeviceMesh.__eq__ mesh_1x8 mesh_1x8_unnamed = Raise not_comparable
  /\ ~ (exists r, DeviceMesh.__eq__ mesh_1x8 mesh_1x8_unnamed = Ok r).
Proof.
  repeat split. intros (r & H). vm_compute in H. discriminate.
Qed.

(** Claim C9, as the code has it.  When the left mesh has no cluster name
    or both names are equal, comparing meshes of one shape returns
    element-wise equality of the mappings; when the left name is set and
    the right one differs from it, unset included, the comparison fails. *)
Theorem guarded_equality self other :
  (DeviceMesh.global_mesh_name self = None
   \/ DeviceMesh.global_mesh_name self = DeviceMesh.global_mesh_name other ->
   forall a b,
     DeviceMesh.mapping self = NdArray a ->
     DeviceMesh.mapping other = NdArray b ->
     Np.shape a = Np.shape b ->
     Np.rectangular a = true -> Np.rectangular b = true ->
     exists r, DeviceMesh.__eq__ self other = Ok r /\ (r = true <-> a = b))
  /\ (forall g,
        DeviceMesh.global_mesh_name self = Some g ->
        DeviceMesh.global_mesh_name other <> Some g ->
        DeviceMesh.__eq__ self other = Raise not_comparable).
Proof.
  unfold DeviceMesh.__eq__. split.
  - intros Hname a b Ha Hb Hshape Hra Hrb.
    replace (_ || DeviceMesh.option_string_eqb _ _) with true.
    + simpl. rewrite Ha, Hb. now apply all_eq_same_shape.
    + symmetry. destruct Hname as [-> | Heq]; [reflexivity |].
      apply orb_true_iff. right. now apply option_string_eqb_spec.
  - intros g Hg Hother. rewrite Hg.
    destruct (DeviceMesh.option_string_eqb (Some g)
                (DeviceMesh.global_mesh_name other)) eqn:E; [| reflexivity].
    apply option_string_eqb_spec in E. congruence.
Qed.

Lemma guarded_equality_witness :
  (exists r, DeviceMesh.__eq__ mesh_1x8 mesh_1x8 = Ok r
             /\ (r = true <-> ones 1 8 = ones 1 8))
  /\ DeviceMesh.__eq__ mesh_1x8 mesh_1x8_unnamed = Raise not_comparable.
Proof.
  split.
  - apply (proj1 (guarded_equality mesh_1x8 mesh_1x8)); try reflexivity.
    now right.
  - apply (proj2 (guarded_equality mesh_1x8 mesh_1x8_unnamed) "NODE01");
      [reflexivity | discriminate].
Defined.

(** ** Arrays as row-major sequences *)

Section RowMajor.

Variable c : nat.

Lemma uniform_length_concat rs :
  uniform c rs -> length (concat rs) = (length rs * c)%nat.
Proof.
  induction 1 as [| r rs Hr _ IH]; simpl; [reflexivity |].
  rewrite length_app, IH, Hr. reflexivity.
Qed.

Lemma chunks_concat rs : uniform c rs -> chunks c (length rs) (concat rs) = rs.
Proof.
  induction 1 as [| r rs Hr _ IH]; simpl; [reflexivity |].
  rewrite firstn_app, skipn_app.
  replace (c - length r)%nat with 0%nat by lia.
  rewrite firstn_O, skipn_O, app_nil_r.
  rewrite firstn_all2, skipn_all2 by lia. simpl. now rewrite IH.
Qed.

Lemma nth_concat rs i j :
  uniform c rs -> (j < c)%nat ->
  nth (i * c + j) (concat rs) 0 = nth j (nth i rs []) 0.
Proof.
  intros H Hj. revert i. induction H as [| r rs Hr _ IH]; intros i.
  - simpl. now destruct (i * c + j)%nat, i, j.
  - destruct i as [| i]; simpl.
    + rewrite app_nth1 by lia. reflexivity.
    + rewrite app_nth2 by lia. rewrite <- IH. f_equal. lia.
Qed.

Lemma update_app_l {A} (f : A -> A) (l1 l2 : list A) n :
  (n < length l1)%nat -> Np.update n f (l1 ++ l2) = Np.update n f l1 ++ l2.
Proof.
  revert n. induction l1 as [| x l1 IH]; intros n Hn; simpl in *; [lia |].
  destruct n; simpl; [reflexivity |]. rewrite IH by lia. reflexivity.
Qed.

Lemma update_app_r {A} (f : A -> A) (l1 l2 : list A) n :
  Np.update (length l1 + n) f (l1 ++ l2) = l1 ++ Np.update n f l2.
Proof.
  induction l1 as [| x l1 IH]; simpl; [reflexivity |]. now rewrite IH.
Qed.

Lemma length_update {A} (f : A -> A) (l : list A) n :
  length (Np.update n f l) = length l.
Proof.
  revert n. induction l as [| x l IH]; intros [| n]; simpl; auto.
Qed.

Lemma update_concat (f : Z -> Z) rs i j :
  uniform c rs -> (j < c)%nat ->
  Np.update (i * c + j) f (concat rs) = concat (Np.update i (Np.update j f) rs).
Proof.
  intros H Hj. revert i. induction H as [| r rs Hr _ IH]; intros i.
  - now destruct (i * c + j)%nat, i.
  - destruct i as [| i]; simpl.
    + rewrite update_app_l by lia. reflexivity.
    + rewrite <- IH.
      replace (c + i * c + j)%nat with (length r + (i * c + j))%nat by lia.
      apply update_app_r.
Qed.

Lemma uniform_update (f : Z -> Z) rs i j :
  uniform c rs -> uniform c (Np.update i (Np.update j f) rs).
Proof.
  intros H. revert i. induction H as [| r rs Hr Hrs IH]; intros i.
  - destruct i; constructor.
  - destruct i; simpl; constructor.
    + now rewrite length_update.
    + exact Hrs.
    + exact Hr.
    + apply IH.
Qed.

End RowMajor.

Lemma flatten_mk c rs : Np.flatten (Np.mk_ndarray c rs) = concat rs.
Proof. reflexivity. Qed.

Lemma reshape_like_flatten a :
  Np.rectangular a = true -> reshape_like a (Np.flatten a) = a.
Proof.
  intros H. apply rectangular_spec in H. destruct a as [c rs].
  unfold reshape_like, Np.flatten. simpl in *. now rewrite chunks_concat.
Qed.

Lemma axis_index_in axis len i :
  (i < len)%nat -> Np.axis_index axis len (Z.of_nat i) = Ok i.
Proof.
  intros H. unfold Np.axis_index.
  destruct (Z.of_nat i <? 0) eqn:E; [apply Z.ltb_lt in E; lia |].
  replace ((0 <=? Z.of_nat i) && (Z.of_nat i <? Z.of_nat len)) with true
    by (symmetry; apply andb_true_iff; split; [apply Z.leb_le | apply Z.ltb_lt]; lia).
  now rewrite Nat2Z.id.
Qed.

Lemma axis_index_out axis len i :
  (len <= i)%nat ->
  Np.axis_index axis len (Z.of_nat i)
  = Raise (IndexError ("index out of bounds for axis " ++ axis)).
Proof.
  intros H. unfold Np.axis_index.
  destruct (Z.of_nat i <? 0) eqn:E; [apply Z.ltb_lt in E; lia |].
  replace (Z.of_nat i <? Z.of_nat len) with false
    by (symmetry; apply Z.ltb_ge; lia).
  now rewrite andb_false_r.
Qed.

Section FlatIndex.

Variable a : Np.ndarray.
Hypothesis Hrect : Np.rectangular a = true.
Hypothesis Hcols : (0 < Np.ncols a)%nat.

Abbreviation c := (Np.ncols a).
Abbreviation r := (length (Np.rows a)).

Lemma length_flatten : length (Np.flatten a) = (r * c)%nat.
Proof. apply uniform_length_concat. now apply rectangular_spec. Qed.

Lemma quotient_in_range cnt : (cnt < r * c)%nat -> (cnt / c < r)%nat.
Proof. intros H. apply Nat.Div0.div_lt_upper_bound. lia. Qed.

Lemma get_flat cnt :
  (cnt < r * c)%nat ->
  Np.get a (Z.of_nat cnt / Z.of_nat c) (Z.of_nat cnt mod Z.of_nat c)
  = Ok (nth cnt (Np.flatten a) 0).
Proof.
  intros H. rewrite <- Nat2Z.inj_div, <- Nat2Z.inj_mod. unfold Np.get.
  rewrite axis_index_in by now apply quotient_in_range.
  cbn [bind]. rewrite axis_index_in by (apply Nat.mod_upper_bound; lia).
  cbn [bind]. f_equal. unfold Np.flatten.
  rewrite <- (nth_concat c) by
    (try (apply rectangular_spec, Hrect); apply Nat.mod_upper_bound; lia).
  f_equal. pose proof (Nat.div_mod_eq cnt c). lia.
Qed.

Lemma get_flat_out cnt :
  (r * c <= cnt)%nat ->
  Np.get a (Z.of_nat cnt / Z.of_nat c) (Z.of_nat cnt mod Z.of_nat c)
  = Raise (IndexError "index out of bounds for axis 0").
Proof.
  intros H. rewrite <- Nat2Z.inj_div, <- Nat2Z.inj_mod. unfold Np.get.
  rewrite axis_index_out; [reflexivity |].
  apply Nat.div_le_lower_bound; lia.
Qed.

Lemma set_flat cnt v :
  (cnt < r * c)%nat ->
  exists a',
    Np.set a (Z.of_nat cnt / Z.of_nat c) (Z.of_nat cnt mod Z.of_nat c) v = Ok a'
    /\ Np.rectangular a' = true
    /\ Np.ncols a' = c
    /\ length (Np.rows a') = r
    /\ Np.flatten a' = Np.update cnt (fun _ => v) (Np.flatten a).
Proof.
  intros H. rewrite <- Nat2Z.inj_div, <- Nat2Z.inj_mod. unfold Np.set.
  rewrite axis_index_in by now apply quotient_in_range.
  cbn [bind]. rewrite axis_index_in by (apply Nat.mod_upper_bound; lia).
  cbn [bind]. eexists. split; [reflexivity |].
  assert (Hu : uniform c (Np.rows a)) by now apply rectangular_spec.
  repeat split.
  - apply rectangular_spec. simpl. now apply uniform_update.
  - simpl. apply length_update.
  - unfold Np.flatten. simpl.
    rewrite <- (update_concat c) by
      (try assumption; apply Nat.mod_upper_bound; lia).
    f_equal. pose proof (Nat.div_mod_eq cnt c). lia.
Qed.

End FlatIndex.

(** ** The scanning loop of [split] *)

Lemma split_at (l : list Z) n :
  (n < length l)%nat ->
  exists pre post, l = pre ++ nth n l 0 :: post /\ length pre = n.
Proof.
  revert n. induction l as [| x l IH]; intros n Hn; simpl in *; [lia |].
  destruct n as [| n].
  - exists [], l. auto.
  - destruct (IH n) as (pre & post & E & Hlen); [lia |].
    exists (x :: pre), post. simpl. split; [now rewrite <- E | now rewrite Hlen].
Qed.

Lemma firstn_pre {A} (pre l : list A) : firstn (length pre) (pre ++ l) = pre.
Proof.
  rewrite firstn_app, Nat.sub_diag, firstn_O, app_nil_r. apply firstn_all.
Qed.

Lemma skipn_pre {A} (pre l : list A) : skipn (length pre) (pre ++ l) = l.
Proof.
  rewrite skipn_app, Nat.sub_diag, skipn_all. reflexivity.
Qed.

Lemma drop_claimed_0 l : drop_claimed 0 l = l.
Proof.
  induction l as [| x l IH]; simpl; [reflexivity |].
  rewrite IH. now destruct (x =? 0).
Qed.

Lemma reshape_like_dims a a' cells :
  Np.ncols a' = Np.ncols a -> length (Np.rows a') = length (Np.rows a) ->
  reshape_like a' cells = reshape_like a cells.
Proof. unfold reshape_like. now intros -> ->. Qed.

(** The loop clears the first [t] claimed cells at or after position [cnt],
    and raises when fewer are left.  The statement holds for every [fuel]
    above the bound, so the result does not depend on it. *)
Lemma split_loop_flat fuel : forall a t cnt,
  Np.rectangular a = true -> (0 < Np.ncols a)%nat ->
  (length (Np.flatten a) - cnt + t + 1 <= fuel)%nat ->
  DeviceMesh.split_loop fuel (Z.of_nat (Np.ncols a)) a (Z.of_nat t) (Z.of_nat cnt)
  = if (t <=? count_claimed (skipn cnt (Np.flatten a)))%nat
    then Ok (reshape_like a (firstn cnt (Np.flatten a)
                               ++ drop_claimed t (skipn cnt (Np.flatten a))))
    else Raise out_of_grid.
Proof.
  induction fuel as [| fuel IH]; intros a t cnt Hrect Hcols Hfuel; [lia |].
  cbn [DeviceMesh.split_loop].
  destruct t as [| t].
  - simpl (Z.of_nat 0 >? 0). cbn iota.
    rewrite drop_claimed_0, firstn_skipn, reshape_like_flatten by assumption.
    reflexivity.
  - replace (Z.of_nat (S t) >? 0) with true by (symmetry; apply Z.gtb_lt; lia).
    unfold py_floordiv, py_mod.
    replace (Z.of_nat (Np.ncols a) =? 0) with false
      by (symmetry; apply Z.eqb_neq; lia).
    cbn [bind].
    pose proof (length_flatten a Hrect) as Hlen.
    destruct (Nat.lt_ge_cases cnt (length (Np.flatten a))) as [Hin | Hout].
    + rewrite get_flat by (try assumption; lia). cbn [bind].
      destruct (split_at (Np.flatten a) cnt Hin) as (pre & post & E & Hpre).
      set (x := nth cnt (Np.flatten a) 0) in *.
      assert (Hskip : skipn cnt (Np.flatten a) = x :: post)
        by (rewrite E, <- Hpre; apply skipn_pre).
      assert (Hfirst : firstn cnt (Np.flatten a) = pre)
        by (rewrite E, <- Hpre; apply firstn_pre).
      assert (Hskip' : forall y, skipn (S cnt) (pre ++ y :: post) = post).
      { intros y. replace (pre ++ y :: post) with ((pre ++ [y]) ++ post)
          by now rewrite <- app_assoc.
        replace (S cnt) with (length (pre ++ [y]))
          by (rewrite length_app; simpl; lia).
        apply skipn_pre. }
      assert (Hfirst' : forall y, firstn (S cnt) (pre ++ y :: post) = pre ++ [y]).
      { intros y. replace (pre ++ y :: post) with ((pre ++ [y]) ++ post)
          by now rewrite <- app_assoc.
        replace (S cnt) with (length (pre ++ [y]))
          by (rewrite length_app; simpl; lia).
        apply firstn_pre. }
      rewrite Hskip, Hfirst. unfold count_claimed. cbn [filter drop_claimed].
      destruct (x =? 0) eqn:Hx.
      * replace (Z.of_nat cnt + 1) with (Z.of_nat (S cnt)) by lia.
        rewrite IH by (try assumption; lia).
        rewrite E, Hskip', Hfirst'. cbn [negb]. fold (count_claimed post).
        now rewrite <- app_assoc.
      * destruct (set_flat a Hrect Hcols cnt 0) as (a' & Hset & Hr' & Hc' & Hn' & Hf');
          [lia |].
        rewrite Hset. cbn [bind].
        replace (Z.of_nat (S t) - 1) with (Z.of_nat t) by lia.
        rewrite <- Hc'.
        assert (Hflat' : Np.flatten a' = pre ++ 0 :: post).
        { rewrite Hf', E. rewrite <- Hpre at 1.
          replace (length pre) with (length pre + 0)%nat by lia.
          rewrite update_app_r. simpl.
          replace (nth cnt (pre ++ x :: post) 0) with x; [reflexivity |].
          now rewrite <- E. }
        assert (Hlen' : length (Np.flatten a') = length (Np.flatten a)).
        { rewrite Hflat', E, !length_app. reflexivity. }
        rewrite IH by (try assumption; lia).
        rewrite Hflat'. rewrite <- Hpre.
        rewrite skipn_pre, firstn_pre. cbn [filter drop_claimed].
        rewrite Z.eqb_refl. cbn [negb length].
        rewrite (reshape_like_dims a a') by assumption.
        reflexivity.
    + rewrite get_flat_out by (try assumption; lia). cbn [bind].
      rewrite skipn_all2 by lia. reflexivity.
Qed.

Lemma split_loop_nonpos fuel n a t cnt :
  t <= 0 -> DeviceMesh.split_loop fuel n a t cnt = Ok a.
Proof.
  intros H. destruct fuel; simpl; [reflexivity |].
  destruct (t >? 0) eqn:E; [apply Z.gtb_lt in E; lia | reflexivity].
Qed.

(** ** Claimed cells of a binary sequence *)

Lemma binary_flatten a :
  Spec.invariant Spec.BadValues 0 0 a -> binary_cells (Np.flatten a).
Proof.
  simpl. unfold Np.flatten, binary_cells.
  induction 1 as [| r rs Hr _ IH]; simpl; [constructor |].
  apply Forall_app. now split.
Qed.

Section ClaimedCells.

#[local] Arguments Z.add : simpl never.
#[local] Arguments Z.sub : simpl never.
#[local] Arguments Z.of_nat : simpl never.

Lemma count_claimed_sum l :
  binary_cells l -> Z.of_nat (count_claimed l) = Np.sum_list l.
Proof.
  unfold count_claimed, Np.sum_list.
  induction 1 as [| x l [-> | ->] _ IH]; simpl in *; lia.
Qed.

Lemma length_keep_claimed k l : length (keep_claimed k l) = length l.
Proof.
  revert k. induction l as [| x l IH]; intros k; simpl; [reflexivity |].
  destruct (x =? 0); [| destruct k]; simpl; now rewrite IH.
Qed.

Lemma length_drop_claimed k l : length (drop_claimed k l) = length l.
Proof.
  revert k. induction l as [| x l IH]; intros k; simpl; [reflexivity |].
  destruct (x =? 0); [| destruct k]; simpl; now rewrite IH.
Qed.

Lemma sum_keep_claimed k l :
  binary_cells l -> (k <= count_claimed l)%nat ->
  Np.sum_list (keep_claimed k l) = Z.of_nat k.
Proof.
  unfold count_claimed, Np.sum_list. intros H. revert k.
  induction H as [| x l [-> | ->] _ IH]; intros k Hk; simpl in *.
  - lia.
  - rewrite IH by assumption. lia.
  - destruct k as [| k]; simpl.
    + rewrite IH by lia. lia.
    + rewrite IH by lia. lia.
Qed.

Lemma sum_drop_claimed k l :
  binary_cells l -> (k <= count_claimed l)%nat ->
  Np.sum_list (drop_claimed k l) = Np.sum_list l - Z.of_nat k.
Proof.
  unfold count_claimed, Np.sum_list. intros H. revert k.
  induction H as [| x l [-> | ->] _ IH]; intros k Hk; simpl in *.
  - lia.
  - rewrite IH by assumption. lia.
  - destruct k as [| k]; simpl.
    + rewrite IH by lia. lia.
    + rewrite IH by lia. lia.
Qed.

End ClaimedCells.

Lemma sub_drop_claimed k l : map2 Z.sub l (drop_claimed k l) = keep_claimed k l.
Proof.
  unfold map2. revert k. induction l as [| x l IH]; intros k; simpl; [reflexivity |].
  destruct (x =? 0) eqn:Hx.
  - apply Z.eqb_eq in Hx. subst. simpl. now rewrite IH.
  - destruct k; simpl; rewrite IH; f_equal; lia.
Qed.

Lemma lor_keep_drop k l :
  map2 Z.lor (keep_claimed k l) (drop_claimed k l) = l.
Proof.
  unfold map2. revert k. induction l as [| x l IH]; intros k; simpl; [reflexivity |].
  destruct (x =? 0) eqn:Hx.
  - apply Z.eqb_eq in Hx. subst. simpl. now rewrite IH.
  - destruct k; simpl; rewrite IH; f_equal.
    apply Z.lor_0_r.
Qed.

Lemma land_keep_drop k l :
  map2 Z.land (keep_claimed k l) (drop_claimed k l) = repeat 0 (length l).
Proof.
  unfold map2. revert k. induction l as [| x l IH]; intros k; simpl; [reflexivity |].
  destruct (x =? 0) eqn:Hx.
  - simpl. now rewrite IH.
  - destruct k; simpl; rewrite IH; f_equal.
    apply Z.land_0_r.
Qed.

(** ** Reshaping *)

Lemma chunks_spec c r : forall cells,
  length cells = (r * c)%nat ->
  uniform c (chunks c r cells) /\ length (chunks c r cells) = r
  /\ concat (chunks c r cells) = cells.
Proof.
  induction r as [| r IH]; intros cells Hlen; simpl in *.
  - destruct cells; [| discriminate]. repeat split. constructor.
  - destruct (IH (skipn c cells)) as (Hu & Hl & Hc).
    { rewrite length_skipn. lia. }
    repeat split.
    + constructor; [| assumption]. rewrite length_firstn. lia.
    + now rewrite Hl.
    + rewrite Hc. apply firstn_skipn.
Qed.

Lemma reshape_like_spec a cells :
  length cells = length (Np.flatten a) -> Np.rectangular a = true ->
  let a' := reshape_like a cells in
  Np.rectangular a' = true /\ Np.ncols a' = Np.ncols a
  /\ length (Np.rows a') = length (Np.rows a)
  /\ Np.flatten a' = cells.
Proof.
  intros Hlen Hrect. rewrite (length_flatten a Hrect) in Hlen.
  destruct (chunks_spec _ _ _ Hlen) as (Hu & Hl & Hc).
  simpl. repeat split; auto. now apply rectangular_spec.
Qed.

Lemma map2_app f xs ys us vs :
  length xs = length us ->
  map2 f (xs ++ ys) (us ++ vs) = map2 f xs us ++ map2 f ys vs.
Proof.
  unfold map2. revert us.
  induction xs as [| x xs IH]; intros [| u us] Hlen; simpl in *;
    try discriminate; [reflexivity |].
  f_equal. apply IH. lia.
Qed.

Lemma zip_with_flat f a b :
  Np.rectangular a = true -> Np.rectangular b = true ->
  Np.ncols b = Np.ncols a -> length (Np.rows b) = length (Np.rows a) ->
  Np.zip_with f a b = reshape_like a (map2 f (Np.flatten a) (Np.flatten b)).
Proof.
  intros Ha Hb Hc Hr. apply rectangular_spec in Ha, Hb. rewrite Hc in Hb.
  destruct a as [c ra], b as [c' rb]. simpl in *. subst c'.
  unfold Np.zip_with, reshape_like, Np.flatten. simpl. f_equal.
  set (rs := map _ (combine ra rb)).
  assert (H : uniform c rs /\ length rs = length ra
              /\ concat rs = map2 f (concat ra) (concat rb)).
  { subst rs. clear -Ha Hb Hr. revert rb Hb Hr.
    induction Ha as [| x ra Hx _ IH]; intros [| y rb] Hb Hr; simpl in *;
      try discriminate.
    - repeat split. constructor.
    - inversion Hb; subst.
      destruct (IH rb) as (Hu & Hl & Hcat); [assumption | lia |].
      repeat split.
      + constructor; [| assumption].
        rewrite length_map, length_combine. lia.
      + now rewrite Hl.
      + rewrite map2_app, <- Hcat by lia. reflexivity. }
  destruct H as (Hu & Hl & Hcat).
  rewrite <- Hcat, <- Hl. symmetry. now apply chunks_concat.
Qed.

Lemma concat_repeat_zero c r :
  concat (repeat (repeat 0 c) r) = repeat 0 (r * c).
Proof.
  induction r as [| r IH]; simpl; [reflexivity |].
  now rewrite IH, repeat_app.
Qed.

Lemma reshape_like_zeros a :
  reshape_like a (repeat 0 (length (Np.rows a) * Np.ncols a))
  = Np.zeros (length (Np.rows a)) (Np.ncols a).
Proof.
  unfold reshape_like, Np.zeros. f_equal.
  rewrite <- concat_repeat_zero.
  rewrite <- (repeat_length (repeat 0 (Np.ncols a)) (length (Np.rows a))) at 1.
  apply chunks_concat. apply Forall_forall. intros x Hx.
  apply repeat_spec in Hx. subst. apply repeat_length.
Qed.

(** ** [split] *)

Section SplitOfValidMesh.

Variable e : env.
Variable self : DeviceMesh.t.
Variable a : Np.ndarray.
Hypothesis Hmap : DeviceMesh.mapping self = NdArray a.
Hypothesis Hvalid : Spec.valid self.

Abbreviation nodes := (DeviceMesh.n_nodes self).
Abbreviation gpus := (DeviceMesh.n_gpus_per_node self).

Lemma valid_invariants : Spec.invariants nodes gpus a.
Proof.
  apply valid_iff_invariants in Hvalid as (a' & Ha' & Hinv).
  rewrite Hmap in Ha'. now injection Ha' as <-.
Qed.

Lemma valid_rectangular : Np.rectangular a = true.
Proof. apply (valid_invariants Spec.BadShape). Qed.

Lemma valid_gpus : gpus = Z.of_nat (Np.ncols a) /\ (0 < Np.ncols a)%nat.
Proof.
  destruct (valid_invariants Spec.BadShape) as [Hs _].
  pose proof (pow2_pos _ (valid_invariants Spec.GpusNotPowerOfTwo)) as Hp.
  unfold Np.shape in Hs. injection Hs as _ Hc. lia.
Qed.

Lemma valid_count : Z.of_nat (count_claimed (Np.flatten a)) = Np.sum a.
Proof.
  apply count_claimed_sum, binary_flatten, (valid_invariants Spec.BadValues).
Qed.

Lemma split_loop_valid k :
  k < Np.sum a ->
  DeviceMesh.split_loop (DeviceMesh.split_fuel a k) gpus a k 0
  = Ok (rest_claimed k a).
Proof.
  intros Hk. destruct valid_gpus as [Hg Hc].
  destruct (Z_le_gt_dec k 0) as [Hle | Hgt].
  - rewrite split_loop_nonpos by assumption.
    unfold rest_claimed.
    replace (Z.to_nat k) with 0%nat by lia.
    now rewrite drop_claimed_0, reshape_like_flatten by apply valid_rectangular.
  - rewrite Hg. rewrite <- (Z2Nat.id k) at 2 by lia.
    change 0 with (Z.of_nat 0).
    rewrite split_loop_flat;
      [| apply valid_rectangular | assumption | unfold DeviceMesh.split_fuel; lia].
    cbn [skipn firstn app].
    pose proof valid_count as Hcount.
    destruct (Nat.leb_spec (Z.to_nat k) (count_claimed (Np.flatten a))); [| lia].
    reflexivity.
Qed.

Lemma rest_claimed_spec k :
  let a2 := rest_claimed k a in
  Np.rectangular a2 = true /\ Np.ncols a2 = Np.ncols a
  /\ length (Np.rows a2) = length (Np.rows a)
  /\ Np.flatten a2 = drop_claimed (Z.to_nat k) (Np.flatten a).
Proof.
  apply reshape_like_spec;
    [apply length_drop_claimed | apply valid_rectangular].
Qed.

Lemma first_claimed_spec k :
  let a1 := first_claimed k a in
  Np.rectangular a1 = true /\ Np.ncols a1 = Np.ncols a
  /\ length (Np.rows a1) = length (Np.rows a)
  /\ Np.flatten a1 = keep_claimed (Z.to_nat k) (Np.flatten a).
Proof.
  apply reshape_like_spec;
    [apply length_keep_claimed | apply valid_rectangular].
Qed.

Lemma sub_rest_claimed k : Np.sub a (rest_claimed k a) = first_claimed k a.
Proof.
  destruct (rest_claimed_spec k) as (Hr & Hc & Hn & Hf).
  unfold Np.sub. rewrite zip_with_flat; try assumption;
    [| apply valid_rectangular].
  now rewrite Hf, sub_drop_claimed.
Qed.

(** On a valid mesh and below its total, [split] is the construction of
    the two halves, one after the other. *)
Lemma split_unfold k :
  k < Np.sum a ->
  DeviceMesh.split e self k
  = let gmn := DeviceMesh.global_mesh_name self in
    let* name1 :=
      DeviceMesh.device_mesh_name_from_mapping e gmn
        (NdArray (first_claimed k a)) in
    let* d1 :=
      DeviceMesh.new e nodes gpus (NdArray (first_claimed k a)) gmn (Some name1) in
    let* name2 :=
      DeviceMesh.device_mesh_name_from_mapping e gmn
        (NdArray (rest_claimed k a)) in
    let* d2 :=
      DeviceMesh.new e nodes gpus (NdArray (rest_claimed k a)) gmn (Some name2) in
    Ok (d1, d2).
Proof.
  intros Hk. unfold DeviceMesh.split.
  unfold Spec.valid in Hvalid. rewrite Hvalid, Hmap. cbn [bind DeviceMesh.ndarray_attr].
  replace (Np.sum a >? k) with true by (symmetry; apply Z.gtb_lt; lia).
  cbn [py_assert bind].
  rewrite split_loop_valid by assumption. cbn [bind].
  rewrite sub_rest_claimed. cbv zeta.
  destruct (DeviceMesh.device_mesh_name_from_mapping e _ (NdArray (first_claimed k a)))
    as [name1 | err]; cbn [bind]; [| reflexivity].
  destruct (DeviceMesh.new e nodes gpus (NdArray (first_claimed k a)) _ _)
    as [d1 | err] eqn:Hd1; cbn [bind]; [| reflexivity].
  destruct (DeviceMesh.device_mesh_name_from_mapping e _ (NdArray (rest_claimed k a)))
    as [name2 | err]; cbn [bind]; [| reflexivity].
  destruct (DeviceMesh.new e nodes gpus (NdArray (rest_claimed k a)) _ _)
    as [d2 | err] eqn:Hd2; cbn [bind]; [| reflexivity].
  apply post_init_ok in Hd1 as (Hv1 & _). apply post_init_ok in Hd2 as (Hv2 & _).
  unfold Spec.valid in Hv1, Hv2. rewrite Hv1, Hv2. reflexivity.
Qed.

Lemma new_named_valid b s :
  Spec.invariants nodes gpus b ->
  exists d,
    DeviceMesh.new e nodes gpus (NdArray b) (DeviceMesh.global_mesh_name self)
      (Some s) = Ok d
    /\ DeviceMesh.mapping d = NdArray b
    /\ DeviceMesh.n_nodes d = nodes
    /\ DeviceMesh.n_gpus_per_node d = gpus
    /\ DeviceMesh.name d = Some s
    /\ Spec.valid d.
Proof.
  intros Hinv. unfold DeviceMesh.new. rewrite post_init_named. cbv zeta.
  match goal with
  | |- context [DeviceMesh._is_valid_mapping ?m] =>
      assert (Hv : Spec.valid m)
        by (apply valid_iff_invariants; exists b; split; [reflexivity | exact Hinv])
  end.
  pose proof Hv as Hv'. unfold Spec.valid in Hv'. rewrite Hv'. cbn [bind].
  eexists. repeat split. exact Hv.
Qed.

Lemma new_named_invalid b s :
  (exists v, Spec.violates v nodes gpus b) ->
  raises (DeviceMesh.new e nodes gpus (NdArray b)
            (DeviceMesh.global_mesh_name self) (Some s)).
Proof.
  intros Hviol. unfold DeviceMesh.new. rewrite post_init_named. cbv zeta.
  match goal with
  | |- context [DeviceMesh._is_valid_mapping (DeviceMesh.mk _ _ _ ?g ?n ?c)] =>
      destruct (validator_rejects nodes gpus b g n c Hviol) as (err & _ & Herr & _)
  end.
  rewrite Herr. now exists err.
Qed.

End SplitOfValidMesh.

(** The invariants of a concrete array, by running the validator. *)
Lemma invariants_of_check nodes gpus a :
  DeviceMesh._is_valid_mapping (DeviceMesh.mk nodes gpus (NdArray a) None None 0)
  = Ok true ->
  Spec.invariants nodes gpus a.
Proof.
  intros H. apply valid_iff_invariants in H as (a' & Ha' & Hinv).
  simpl in *. now injection Ha' as <-.
Qed.



(** Claim C3.  On a valid mesh, [split k] fails its assertion when [k] is
    at least the total, and raises whenever one of the two halves selected
    in row-major order breaks an invariant. *)
Theorem split_rejects_illegal_requests e self a k :
  DeviceMesh.mapping self = NdArray a ->
  Spec.valid self ->
  (Np.sum a <= k -> DeviceMesh.split e self k = Raise split_too_large)
  /\ (k < Np.sum a ->
      (exists v, Spec.violates v (DeviceMesh.n_nodes self)
                   (DeviceMesh.n_gpus_per_node self) (first_claimed k a))
      \/ (exists v, Spec.violates v (DeviceMesh.n_nodes self)
                      (DeviceMesh.n_gpus_per_node self) (rest_claimed k a)) ->
      raises (DeviceMesh.split e self k)).
Proof.
  intros Hmap Hvalid. split.
  - intros Hk. unfold DeviceMesh.split.
    unfold Spec.valid in Hvalid. rewrite Hvalid, Hmap.
    cbn [bind DeviceMesh.ndarray_attr].
    destruct (Np.sum a >? k) eqn:E; [apply Z.gtb_lt in E; lia | reflexivity].
  - intros Hk Hviol.
    rewrite (split_unfold e self a Hmap Hvalid) by assumption. cbv zeta.
    destruct (DeviceMesh.device_mesh_name_from_mapping e _ (NdArray (first_claimed k a)))
      as [name1 | err]; cbn [bind]; [| now exists err].
    destruct (DeviceMesh.new e _ _ (NdArray (first_claimed k a)) _ _)
      as [d1 | err] eqn:Hd1; cbn [bind]; [| now exists err].
    destruct (DeviceMesh.device_mesh_name_from_mapping e _ (NdArray (rest_claimed k a)))
      as [name2 | err]; cbn [bind]; [| now exists err].
    destruct Hviol as [Hviol | Hviol].
    + destruct (new_named_invalid e self _ name1 Hviol) as (err & Herr).
      rewrite Herr in Hd1. discriminate.
    + destruct (new_named_invalid e self _ name2 Hviol) as (err & Herr).
      rewrite Herr. now exists err.
Qed.

Lemma split_rejects_illegal_requests_witness :
  DeviceMesh.split Topology.cluster mesh_1x8 8 = Raise split_too_large
  /\ raises (DeviceMesh.split Topology.cluster mesh_1x8 3).
Proof.
  pose proof (split_rejects_illegal_requests Topology.cluster mesh_1x8 (ones 1 8))
    as H.
  split.
  - apply (proj1 (H 8 eq_refl eq_refl)). vm_compute. discriminate.
  - apply (proj2 (H 3 eq_refl eq_refl)).
    + reflexivity.
    + left. exists Spec.SubNodeCount. intros Hinv.
      apply three_is_not_a_power_of_two. apply Hinv. reflexivity.
Defined.

(** The scenario of the specification: eight GPUs of one node split 3/5. *)
Example split_three_five_rejected :
  DeviceMesh.split Topology.cluster mesh_1x8 3
  = Raise (RuntimeError DeviceMesh.msg_sub_node).
Proof. reflexivity. Qed.

(** ** Set operations *)

Lemma op_assertion_compatible m1 m2 :
  compatible m1 m2 -> MeshOps.__op_assertion m1 m2 = Ok tt.
Proof.
  intros (Hg & Hn & Hc). unfold MeshOps.__op_assertion.
  rewrite Hg, Hn, Hc, !Z.eqb_refl.
  replace (DeviceMesh.option_string_eqb _ _) with true
    by (symmetry; now apply option_string_eqb_spec).
  rewrite orb_true_r. reflexivity.
Qed.

Lemma np_and_same_shape a b :
  Np.shape a = Np.shape b ->
  Np.rectangular a = true -> Np.rectangular b = true ->
  MeshOps.np_and a b = Ok (Np.bit_and a b).
Proof.
  intros Hshape Ha Hb. unfold Np.shape in Hshape.
  injection Hshape as Hr Hc.
  apply Nat2Z.inj in Hr. apply Nat2Z.inj in Hc.
  unfold MeshOps.np_and. cbv zeta. rewrite <- Hr, <- Hc.
  unfold Np.broadcastable, Np.broadcast_dim. rewrite !Nat.eqb_refl.
  cbn [orb andb]. rewrite !if_both.
  rewrite (broadcast_to_id a Ha).
  rewrite Hr, Hc, (broadcast_to_id b Hb). reflexivity.
Qed.

(** Two valid meshes of equal node and GPU counts have arrays of one
    shape. *)
Lemma valid_same_shape m1 m2 a b :
  Spec.valid m1 -> Spec.valid m2 ->
  DeviceMesh.mapping m1 = NdArray a -> DeviceMesh.mapping m2 = NdArray b ->
  DeviceMesh.n_nodes m1 = DeviceMesh.n_nodes m2 ->
  DeviceMesh.n_gpus_per_node m1 = DeviceMesh.n_gpus_per_node m2 ->
  Np.shape a = Np.shape b
  /\ Np.rectangular a = true /\ Np.rectangular b = true
  /\ Spec.invariant Spec.BadValues 0 0 a /\ Spec.invariant Spec.BadValues 0 0 b.
Proof.
  intros H1 H2 Ha Hb Hn Hc.
  pose proof (valid_invariants m1 a Ha H1) as I1.
  pose proof (valid_invariants m2 b Hb H2) as I2.
  destruct (I1 Spec.BadShape) as [S1 R1]. destruct (I2 Spec.BadShape) as [S2 R2].
  repeat split; try assumption.
  - rewrite S1, S2, Hn, Hc. reflexivity.
  - apply (I1 Spec.BadValues).
  - apply (I2 Spec.BadValues).
Qed.

Lemma ndarray_eq a b :
  Np.ncols a = Np.ncols b -> Np.rows a = Np.rows b -> a = b.
Proof. destruct a, b. simpl. now intros -> ->. Qed.

Section Cells.

Variables a b : Np.ndarray.
Hypothesis Hshape : Np.shape a = Np.shape b.
Hypothesis Ha : Np.rectangular a = true.
Hypothesis Hb : Np.rectangular b = true.

Lemma same_dims :
  length (Np.rows b) = length (Np.rows a) /\ Np.ncols b = Np.ncols a.
Proof.
  unfold Np.shape in Hshape. injection Hshape as Hr Hc.
  apply Nat2Z.inj in Hr. apply Nat2Z.inj in Hc. auto.
Qed.

Lemma row_lengths i :
  length (nth i (Np.rows a) []) = length (nth i (Np.rows b) []).
Proof.
  destruct same_dims as [Hr Hc].
  apply rectangular_spec in Ha, Hb.
  unfold uniform in *. rewrite Forall_forall in Ha, Hb.
  destruct (Nat.lt_ge_cases i (length (Np.rows a))) as [Hi | Hi].
  - rewrite (Ha (nth i (Np.rows a) [])) by (apply nth_In; lia).
    rewrite (Hb (nth i (Np.rows b) [])) by (apply nth_In; lia).
    now rewrite Hc.
  - rewrite !nth_overflow by lia. reflexivity.
Qed.

Lemma cell_zip_with f i j :
  f 0 0 = 0 ->
  cell (Np.zip_with f a b) i j = f (cell a i j) (cell b i j).
Proof.
  intros Hf. destruct same_dims as [Hr Hc]. unfold cell, Np.zip_with. simpl.
  set (g := fun '(r1, r2) => map (fun '(x, y) => f x y) (combine r1 r2)).
  change (@nil Z) with (g (@nil Z, @nil Z)) at 1.
  rewrite map_nth, combine_nth by lia. unfold g.
  set (h := fun '(x, y) => f x y).
  transitivity (nth j (map h (combine (nth i (Np.rows a) []) (nth i (Np.rows b) [])))
                  (h (0, 0))).
  { simpl (h (0, 0)). now rewrite Hf. }
  rewrite map_nth, combine_nth by apply row_lengths.
  reflexivity.
Qed.

Lemma zip_with_shape f :
  Np.rectangular (Np.zip_with f a b) = true
  /\ Np.shape (Np.zip_with f a b) = Np.shape a.
Proof.
  destruct same_dims as [Hr Hc].
  rewrite zip_with_flat by assumption.
  destruct (reshape_like_spec a (map2 f (Np.flatten a) (Np.flatten b)))
    as (R & C & N & _); try assumption.
  - unfold map2. rewrite length_map, length_combine.
    rewrite (length_flatten a Ha), (length_flatten b Hb), Hr, Hc. lia.
  - split; [assumption |]. unfold Np.shape. now rewrite C, N.
Qed.

(** Arrays of one shape are equal when their cells are. *)
Lemma array_ext : (forall i j, cell a i j = cell b i j) -> a = b.
Proof.
  intros Hcell. destruct same_dims as [Hr Hc].
  apply ndarray_eq; [congruence |].
  apply (nth_ext _ _ [] []); [lia |]. intros i Hi.
  apply (nth_ext _ _ 0 0).
  - apply row_lengths.
  - intros j _. apply (Hcell i j).
Qed.

End Cells.

Lemma cell_binary a i j :
  Spec.invariant Spec.BadValues 0 0 a -> cell a i j = 0 \/ cell a i j = 1.
Proof.
  simpl. intros H. unfold cell.
  destruct (Nat.lt_ge_cases i (length (Np.rows a))) as [Hi | Hi].
  - rewrite Forall_forall in H.
    pose proof (H (nth i (Np.rows a) []) (nth_In _ _ Hi)) as Hrow.
    destruct (Nat.lt_ge_cases j (length (nth i (Np.rows a) []))) as [Hj | Hj].
    + rewrite Forall_forall in Hrow. apply Hrow. now apply nth_In.
    + left. now apply nth_overflow.
  - rewrite (nth_overflow (Np.rows a)) by lia. left. now destruct j.
Qed.

Lemma np_any_cell a :
  MeshOps.np_any a = true <-> exists i j, cell a i j <> 0.
Proof.
  unfold MeshOps.np_any. rewrite existsb_exists. split.
  - intros (r & Hr & Hex). apply existsb_exists in Hex as (x & Hx & Hnz).
    apply (In_nth _ _ []) in Hr as (i & Hi & <-).
    apply (In_nth _ _ 0) in Hx as (j & Hj & <-).
    exists i, j. unfold cell. apply negb_true_iff, Z.eqb_neq in Hnz. exact Hnz.
  - intros (i & j & Hnz). unfold cell in Hnz.
    assert (Hi : (i < length (Np.rows a))%nat).
    { destruct (Nat.lt_ge_cases i (length (Np.rows a))); [assumption |].
      rewrite (nth_overflow (Np.rows a)) in Hnz by lia. now destruct j. }
    assert (Hj : (j < length (nth i (Np.rows a) []))%nat).
    { destruct (Nat.lt_ge_cases j (length (nth i (Np.rows a) []))); [assumption |].
      rewrite nth_overflow in Hnz by lia. congruence. }
    exists (nth i (Np.rows a) []). split; [now apply nth_In |].
    apply existsb_exists. exists (nth j (nth i (Np.rows a) []) 0).
    split; [now apply nth_In |]. now apply negb_true_iff, Z.eqb_neq.
Qed.

Lemma land_binary_nonzero x y :
  (x = 0 \/ x = 1) -> (y = 0 \/ y = 1) ->
  Z.land x y <> 0 <-> x = 1 /\ y = 1.
Proof. intros [-> | ->] [-> | ->]; simpl; split; intros H; try lia; tauto. Qed.

Lemma land_binary_subset x y :
  (x = 0 \/ x = 1) -> (y = 0 \/ y = 1) ->
  Z.land x y = x <-> (x = 1 -> y = 1).
Proof. intros [-> | ->] [-> | ->]; simpl; split; intros H; try lia; tauto. Qed.

Section CompatibleMeshes.

Variables m1 m2 : DeviceMesh.t.
Variables a b : Np.ndarray.
Hypothesis Hv1 : Spec.valid m1.
Hypothesis Hv2 : Spec.valid m2.
Hypothesis Hm1 : DeviceMesh.mapping m1 = NdArray a.
Hypothesis Hm2 : DeviceMesh.mapping m2 = NdArray b.
Hypothesis Hcompat : compatible m1 m2.

Lemma compatible_sym : compatible m2 m1.
Proof. destruct Hcompat as (Hg & Hn & Hc). now repeat split. Qed.

Lemma compatible_arrays :
  Np.shape a = Np.shape b
  /\ Np.rectangular a = true /\ Np.rectangular b = true
  /\ Spec.invariant Spec.BadValues 0 0 a /\ Spec.invariant Spec.BadValues 0 0 b.
Proof.
  destruct Hcompat as (_ & Hn & Hc). now apply (valid_same_shape m1 m2).
Qed.

Lemma mapping_and_compatible :
  MeshOps.mapping_and (DeviceMesh.mapping m1) (DeviceMesh.mapping m2)
  = MeshOps.Value (Np.bit_and a b).
Proof.
  destruct compatible_arrays as (Hs & Ha & Hb & _).
  rewrite Hm1, Hm2. simpl. now rewrite np_and_same_shape.
Qed.

Lemma cell_bit_and i j :
  cell (Np.bit_and a b) i j = Z.land (cell a i j) (cell b i j).
Proof.
  destruct compatible_arrays as (Hs & Ha & Hb & _).
  now apply cell_zip_with.
Qed.

Lemma any_bit_and :
  MeshOps.np_any (Np.bit_and a b) = true
  <-> exists i j, claimed a i j /\ claimed b i j.
Proof.
  destruct compatible_arrays as (_ & _ & _ & Ba & Bb).
  rewrite np_any_cell. unfold claimed.
  split; intros (i & j & H); exists i, j.
  - rewrite cell_bit_and in H. apply land_binary_nonzero in H;
      [assumption | now apply cell_binary | now apply cell_binary].
  - rewrite cell_bit_and. apply land_binary_nonzero;
      [now apply cell_binary | now apply cell_binary | assumption].
Qed.

Lemma bit_and_is_left :
  Np.bit_and a b = a <-> forall i j, claimed a i j -> claimed b i j.
Proof.
  destruct compatible_arrays as (Hs & Ha & Hb & Ba & Bb).
  unfold claimed. split.
  - intros E i j. apply land_binary_subset; try now apply cell_binary.
    rewrite <- cell_bit_and. now rewrite E.
  - intros H.
    destruct (zip_with_shape a b Hs Ha Hb Z.land) as [Hr Hshape].
    apply array_ext; try assumption.
    intros i j. rewrite cell_bit_and.
    apply land_binary_subset; try now apply cell_binary. apply H.
Qed.

Lemma overlap_value :
  MeshOps.overlap m1 m2 = MeshOps.Value (MeshOps.np_any (Np.bit_and a b)).
Proof.
  unfold MeshOps.overlap.
  rewrite (op_assertion_compatible m1 m2 Hcompat), mapping_and_compatible.
  reflexivity.
Qed.

Lemma contain_value :
  exists r, MeshOps.contain m1 m2 = MeshOps.Value r
            /\ (r = true <-> Np.bit_and a b = a).
Proof.
  destruct compatible_arrays as (Hs & Ha & Hb & _).
  destruct (zip_with_shape a b Hs Ha Hb Z.land) as [Hr Hshape].
  destruct (all_eq_same_shape (Np.bit_and a b) a Hshape Hr Ha) as (r & Hall & Hiff).
  exists r. split; [| exact Hiff].
  unfold MeshOps.contain.
  rewrite (op_assertion_compatible m1 m2 Hcompat), mapping_and_compatible.
  cbn [MeshOps.lift MeshOps.and_then]. rewrite Hm1. cbn [DeviceMesh.np_array].
  now rewrite Hall.
Qed.

Lemma contained_by_value :
  exists r, MeshOps.contained_by m1 m2 = MeshOps.Value r
            /\ (r = true <-> Np.bit_and a b = b).
Proof.
  destruct compatible_arrays as (Hs & Ha & Hb & _).
  destruct (zip_with_shape a b Hs Ha Hb Z.land) as [Hr Hshape].
  destruct (all_eq_same_shape (Np.bit_and a b) b (eq_trans Hshape Hs) Hr Hb)
    as (r & Hall & Hiff).
  exists r. split; [| exact Hiff].
  unfold MeshOps.contained_by.
  rewrite (op_assertion_compatible m1 m2 Hcompat), mapping_and_compatible.
  cbn [MeshOps.lift MeshOps.and_then]. rewrite Hm2. cbn [DeviceMesh.np_array].
  now rewrite Hall.
Qed.

End CompatibleMeshes.

Lemma bit_and_comm a b :
  Np.shape a = Np.shape b ->
  Np.rectangular a = true -> Np.rectangular b = true ->
  Np.bit_and b a = Np.bit_and a b.
Proof.
  intros Hs Ha Hb.
  destruct (zip_with_shape a b Hs Ha Hb Z.land) as [R1 S1].
  destruct (zip_with_shape b a (eq_sym Hs) Hb Ha Z.land) as [R2 S2].
  unfold Np.bit_and.
  apply array_ext; try assumption; [congruence |].
  intros i j.
  rewrite (cell_zip_with b a (eq_sym Hs) Hb Ha), (cell_zip_with a b Hs Ha Hb)
    by reflexivity.
  apply Z.land_comm.
Qed.





(** The set operations stop at their guard, before reading any mapping,
    when the left mesh names another cluster than the right one or the node
    or GPU counts differ. *)
Theorem set_operations_guard self other :
  (forall g,
      DeviceMesh.global_mesh_name self = Some g ->
      DeviceMesh.global_mesh_name other <> Some g ->
      MeshOps.overlap self other = MeshOps.Error not_same_cluster
      /\ MeshOps.contain self other = MeshOps.Error not_same_cluster
      /\ MeshOps.contained_by self other = MeshOps.Error not_same_cluster)
  /\ (DeviceMesh.global_mesh_name self = None
      \/ DeviceMesh.global_mesh_name self = DeviceMesh.global_mesh_name other ->
      DeviceMesh.n_nodes self <> DeviceMesh.n_nodes other
      \/ DeviceMesh.n_gpus_per_node self <> DeviceMesh.n_gpus_per_node other ->
      MeshOps.overlap self other = MeshOps.Error (AssertionError "")
      /\ MeshOps.contain self other = MeshOps.Error (AssertionError "")
      /\ MeshOps.contained_by self other = MeshOps.Error (AssertionError "")).
Proof.
  split.
  - intros g Hg Hother.
    assert (E : MeshOps.__op_assertion self other = Raise not_same_cluster).
    { unfold MeshOps.__op_assertion. rewrite Hg.
      destruct (DeviceMesh.option_string_eqb (Some g)
                  (DeviceMesh.global_mesh_name other)) eqn:E; [| reflexivity].
      apply option_string_eqb_spec in E. congruence. }
    unfold MeshOps.overlap, MeshOps.contain, MeshOps.contained_by.
    rewrite E. repeat split.
  - intros Hname Hdims.
    assert (E : MeshOps.__op_assertion self other = Raise (AssertionError "")).
    { unfold MeshOps.__op_assertion.
      replace (_ || DeviceMesh.option_string_eqb _ _) with true.
      - cbn [py_assert bind].
        destruct (DeviceMesh.n_nodes self =? DeviceMesh.n_nodes other) eqn:En;
          [| reflexivity].
        cbn [py_assert bind].
        destruct (DeviceMesh.n_gpus_per_node self
                  =? DeviceMesh.n_gpus_per_node other) eqn:Ec; [| reflexivity].
        apply Z.eqb_eq in En, Ec. destruct Hdims; contradiction.
      - symmetry. destruct Hname as [-> | Heq]; [reflexivity |].
        apply orb_true_iff. right. now apply option_string_eqb_spec. }
    unfold MeshOps.overlap, MeshOps.contain, MeshOps.contained_by.
    rewrite E. repeat split.
Qed.

Lemma set_operations_guard_witness :
  MeshOps.overlap mesh_1x8 mesh_3x4 = MeshOps.Error not_same_cluster
  /\ MeshOps.overlap mesh_1x8_unnamed mesh_3x4 = MeshOps.Error (AssertionError "").
Proof.
  split.
  - apply (proj1 (set_operations_guard mesh_1x8 mesh_3x4) "NODE01");
      [reflexivity | discriminate].
  - apply (proj2 (set_operations_guard mesh_1x8_unnamed mesh_3x4));
      [now left | left; discriminate].
Defined.

(** ** What [split] returns *)

Lemma land_keep_self k l : map2 Z.land (keep_claimed k l) l = keep_claimed k l.
Proof.
  unfold map2. revert k. induction l as [| x l IH]; intros k; simpl; [reflexivity |].
  destruct (x =? 0) eqn:Hx.
  - simpl. now rewrite IH.
  - destruct k; simpl; rewrite IH; f_equal. apply Z.land_diag.
Qed.

Lemma land_drop_self k l : map2 Z.land (drop_claimed k l) l = drop_claimed k l.
Proof.
  unfold map2. revert k. induction l as [| x l IH]; intros k; simpl; [reflexivity |].
  destruct (x =? 0) eqn:Hx.
  - simpl. rewrite IH. f_equal. apply Z.land_diag.
  - destruct k; simpl; rewrite IH; f_equal. apply Z.land_diag.
Qed.

Lemma np_any_zeros r c : MeshOps.np_any (Np.zeros r c) = false.
Proof.
  unfold MeshOps.np_any, Np.zeros. simpl.
  assert (Hrow : existsb (fun x => negb (x =? 0)) (repeat 0 c) = false)
    by (induction c as [| c IHc]; simpl; auto).
  induction r as [| r IH]; simpl; [reflexivity |].
  now rewrite Hrow, IH.
Qed.

Section Halves.

Variable self : DeviceMesh.t.
Variable a : Np.ndarray.
Variable k : Z.
Hypothesis Hmap : DeviceMesh.mapping self = NdArray a.
Hypothesis Hvalid : Spec.valid self.

Lemma halves_disjoint :
  Np.bit_and (first_claimed k a) (rest_claimed k a)
  = Np.zeros (length (Np.rows a)) (Np.ncols a).
Proof.
  destruct (first_claimed_spec self a Hmap Hvalid k) as (Hr1 & Hc1 & Hn1 & Hf1).
  destruct (rest_claimed_spec self a Hmap Hvalid k) as (Hr2 & Hc2 & Hn2 & Hf2).
  unfold Np.bit_and. rewrite zip_with_flat; try assumption; try congruence.
  rewrite Hf1, Hf2, land_keep_drop, (reshape_like_dims a) by assumption.
  rewrite (length_flatten a (valid_rectangular self a Hmap Hvalid)).
  apply reshape_like_zeros.
Qed.

Lemma first_within_parent :
  Np.bit_and (first_claimed k a) a = first_claimed k a.
Proof.
  destruct (first_claimed_spec self a Hmap Hvalid k) as (Hr1 & Hc1 & Hn1 & Hf1).
  pose proof (valid_rectangular self a Hmap Hvalid) as Hr.
  unfold Np.bit_and. rewrite zip_with_flat; try assumption; try congruence.
  rewrite Hf1, land_keep_self, <- Hf1. now apply reshape_like_flatten.
Qed.

Lemma rest_within_parent :
  Np.bit_and (rest_claimed k a) a = rest_claimed k a.
Proof.
  destruct (rest_claimed_spec self a Hmap Hvalid k) as (Hr2 & Hc2 & Hn2 & Hf2).
  pose proof (valid_rectangular self a Hmap Hvalid) as Hr.
  unfold Np.bit_and. rewrite zip_with_flat; try assumption; try congruence.
  rewrite Hf2, land_drop_self, <- Hf2. now apply reshape_like_flatten.
Qed.

Lemma first_claimed_empty : k <= 0 -> Np.sum (first_claimed k a) = 0.
Proof.
  intros Hk.
  destruct (first_claimed_spec self a Hmap Hvalid k) as (_ & _ & _ & Hf1).
  unfold Np.sum. rewrite Hf1.
  replace (Z.to_nat k) with 0%nat by lia.
  rewrite sum_keep_claimed; [reflexivity | | lia].
  apply binary_flatten, (valid_invariants self a Hmap Hvalid Spec.BadValues).
Qed.

End Halves.

(** Everything that a returned pair tells about the call. *)
Lemma split_ok_inv e self a k d1 d2 :
  DeviceMesh.mapping self = NdArray a ->
  DeviceMesh.split e self k = Ok (d1, d2) ->
  Spec.valid self /\ k < Np.sum a
  /\ DeviceMesh.new e (DeviceMesh.n_nodes self) (DeviceMesh.n_gpus_per_node self)
       (NdArray (first_claimed k a)) (DeviceMesh.global_mesh_name self)
       (DeviceMesh.name d1) = Ok d1
  /\ DeviceMesh.new e (DeviceMesh.n_nodes self) (DeviceMesh.n_gpus_per_node self)
       (NdArray (rest_claimed k a)) (DeviceMesh.global_mesh_name self)
       (DeviceMesh.name d2) = Ok d2
  /\ DeviceMesh.device_mesh_name_from_mapping e (DeviceMesh.global_mesh_name self)
       (NdArray (first_claimed k a)) = Ok (match DeviceMesh.name d1 with
                                           | Some s => s | None => "" end)
  /\ DeviceMesh.device_mesh_name_from_mapping e (DeviceMesh.global_mesh_name self)
       (NdArray (rest_claimed k a)) = Ok (match DeviceMesh.name d2 with
                                          | Some s => s | None => "" end).
Proof.
  intros Hmap Hsplit.
  assert (Hvalid : Spec.valid self).
  { unfold DeviceMesh.split in Hsplit.
    destruct (DeviceMesh._is_valid_mapping self) as [b0 | err] eqn:E;
      [| discriminate].
    now rewrite (valid_returns_true _ _ E) in E. }
  assert (Hk : k < Np.sum a).
  { unfold DeviceMesh.split in Hsplit. unfold Spec.valid in Hvalid.
    rewrite Hvalid, Hmap in Hsplit. cbn [bind DeviceMesh.ndarray_attr] in Hsplit.
    destruct (Np.sum a >? k) eqn:E; [apply Z.gtb_lt in E; lia | discriminate]. }
  rewrite (split_unfold e self a Hmap Hvalid k Hk) in Hsplit. cbv zeta in Hsplit.
  destruct (DeviceMesh.device_mesh_name_from_mapping e _ (NdArray (first_claimed k a)))
    as [name1 | err]; cbn [bind] in Hsplit; [| discriminate].
  destruct (DeviceMesh.new e _ _ (NdArray (first_claimed k a)) _ _)
    as [x1 | err] eqn:Hd1; cbn [bind] in Hsplit; [| discriminate].
  destruct (DeviceMesh.device_mesh_name_from_mapping e _ (NdArray (rest_claimed k a)))
    as [name2 | err]; cbn [bind] in Hsplit; [| discriminate].
  destruct (DeviceMesh.new e _ _ (NdArray (rest_claimed k a)) _ _)
    as [x2 | err] eqn:Hd2; cbn [bind] in Hsplit; [| discriminate].
  injection Hsplit as <- <-.
  pose proof Hd1 as P1. apply post_init_ok in P1 as (_ & _ & _ & _ & _ & _ & _ & _ & N1).
  pose proof Hd2 as P2. apply post_init_ok in P2 as (_ & _ & _ & _ & _ & _ & _ & _ & N2).
  rewrite (N1 name1 eq_refl), (N2 name2 eq_refl).
  repeat split; assumption.
Qed.

(** [split] returns only for [0 < k < total], and then its halves are the
    first [k] claimed cells and the rest, both valid: it never returns a
    broken mesh. *)
Theorem split_returns_only_legal_halves e self a k d1 d2 :
  DeviceMesh.mapping self = NdArray a ->
  DeviceMesh.split e self k = Ok (d1, d2) ->
  0 < k < Np.sum a
  /\ DeviceMesh.mapping d1 = NdArray (first_claimed k a)
  /\ DeviceMesh.mapping d2 = NdArray (rest_claimed k a)
  /\ Spec.valid d1 /\ Spec.valid d2.
Proof.
  intros Hmap Hsplit.
  destruct (split_ok_inv e self a k d1 d2 Hmap Hsplit)
    as (Hvalid & Hk & Hd1 & Hd2 & _).
  apply post_init_ok in Hd1 as (Hv1 & _ & _ & Hm1 & _).
  apply post_init_ok in Hd2 as (Hv2 & _ & _ & Hm2 & _).
  simpl in Hm1, Hm2.
  repeat split; try assumption.
  destruct (Z_le_gt_dec k 0) as [Hle | Hgt]; [| lia].
  pose proof (valid_total_pos d1 Hv1) as Hpos.
  unfold Spec.total in Hpos. rewrite Hm1 in Hpos. simpl in Hpos.
  rewrite (first_claimed_empty self a k Hmap Hvalid Hle) in Hpos. lia.
Qed.

Lemma split_returns_only_legal_halves_witness :
  0 < 4 < Np.sum (ones 1 8)
  /\ DeviceMesh.mapping half_low = NdArray (first_claimed 4 (ones 1 8))
  /\ DeviceMesh.mapping half_high = NdArray (rest_claimed 4 (ones 1 8))
  /\ Spec.valid half_low /\ Spec.valid half_high.
Proof.
  apply (split_returns_only_legal_halves Topology.cluster mesh_1x8 (ones 1 8) 4
           half_low half_high); reflexivity.
Defined.

(** The halves keep the node count, the GPU count and the cluster name of
    the mesh and carry the names derived from their mappings; their
    [gpu_memory_capacity] is the default, whatever the mesh had. *)
Theorem split_halves_fields e self a k d1 d2 g :
  DeviceMesh.mapping self = NdArray a ->
  DeviceMesh.global_mesh_name self = Some g ->
  DeviceMesh.split e self k = Ok (d1, d2) ->
  (forall d, d = d1 \/ d = d2 ->
     DeviceMesh.n_nodes d = DeviceMesh.n_nodes self
     /\ DeviceMesh.n_gpus_per_node d = DeviceMesh.n_gpus_per_node self
     /\ DeviceMesh.global_mesh_name d = Some g
     /\ DeviceMesh.gpu_memory_capacity d = DeviceMesh.default_gpu_memory_capacity
     /\ exists s, DeviceMesh.name d = Some s
                  /\ DeviceMesh.device_mesh_name_from_mapping e (Some g)
                       (DeviceMesh.mapping d) = Ok s).
Proof.
  intros Hmap Hg Hsplit.
  destruct (split_ok_inv e self a k d1 d2 Hmap Hsplit)
    as (_ & _ & Hd1 & Hd2 & Hn1 & Hn2).
  rewrite Hg in *.
  pose proof Hd1 as P1.
  apply post_init_ok in P1 as (_ & A1 & B1 & M1 & C1 & _ & (s1 & S1) & G1 & _).
  pose proof Hd2 as P2.
  apply post_init_ok in P2 as (_ & A2 & B2 & M2 & C2 & _ & (s2 & S2) & G2 & _).
  simpl in *. rewrite S1 in Hn1. rewrite S2 in Hn2.
  intros d [-> | ->]; repeat split; auto.
  - exists s1. rewrite M1. auto.
  - exists s2. rewrite M2. auto.
Qed.

Lemma split_halves_fields_witness :
  DeviceMesh.split Topology.cluster mesh_1x8_small 4 = Ok (half_low, half_high)
  /\ DeviceMesh.gpu_memory_capacity half_low
     = DeviceMesh.default_gpu_memory_capacity.
Proof.
  split; [reflexivity |].
  apply (split_halves_fields Topology.cluster mesh_1x8_small (ones 1 8) 4
           half_low half_high "NODE01"); try reflexivity.
  now left.
Defined.



(** ** What construction returns *)

(** A mesh that construction returns passes validation again, keeps the
    counts, the mapping and the capacity it was given, has the cluster name
    of the caller or the whole-cluster default, and has the name of the
    caller or the one derived from the mapping. *)
Theorem construction_fills_names e self m :
  DeviceMesh.__post_init__ e self = Ok m ->
  DeviceMesh._is_valid_mapping m = Ok true
  /\ DeviceMesh.n_nodes m = DeviceMesh.n_nodes self
  /\ DeviceMesh.n_gpus_per_node m = DeviceMesh.n_gpus_per_node self
  /\ DeviceMesh.mapping m = DeviceMesh.mapping self
  /\ DeviceMesh.gpu_memory_capacity m = DeviceMesh.gpu_memory_capacity self
  /\ DeviceMesh.global_mesh_name m = cluster_name e self
  /\ exists s,
       DeviceMesh.name m = Some s
       /\ (DeviceMesh.name self = Some s
           \/ (DeviceMesh.name self = None
               /\ DeviceMesh.device_mesh_name_from_mapping e (cluster_name e self)
                    (DeviceMesh.mapping self) = Ok s)).
Proof.
  unfold DeviceMesh.__post_init__, cluster_name.
  set (gmn := match DeviceMesh.global_mesh_name self with
              | Some g => Some g
              | None => _ end).
  destruct (DeviceMesh.name self) as [s |] eqn:Hname.
  - cbn [bind].
    destruct (DeviceMesh._is_valid_mapping _) as [b0 | err] eqn:Hv; cbn [bind];
      [| discriminate].
    intros H. injection H as <-. simpl.
    rewrite (valid_returns_true _ _ Hv) in Hv.
    repeat split; try assumption. exists s. auto.
  - destruct (DeviceMesh.device_mesh_name_from_mapping e gmn (DeviceMesh.mapping self))
      as [s | err] eqn:Hd; cbn [bind]; [| discriminate].
    destruct (DeviceMesh._is_valid_mapping _) as [b0 | err] eqn:Hv; cbn [bind];
      [| discriminate].
    intros H. injection H as <-. simpl.
    rewrite (valid_returns_true _ _ Hv) in Hv.
    repeat split; try assumption. exists s. auto.
Qed.

Lemma construction_fills_names_witness :
  DeviceMesh._is_valid_mapping mesh_3x4 = Ok true
  /\ DeviceMesh.global_mesh_name mesh_3x4 = Some "NODE[01-03]"
  /\ DeviceMesh.name mesh_3x4 = Some "NODE[01-03]".
Proof.
  destruct (construction_fills_names Topology.cluster
              (DeviceMesh.mk 3 4 (NdArray (ones 3 4)) None None
                 DeviceMesh.default_gpu_memory_capacity) mesh_3x4 eq_refl)
    as (Hv & _ & _ & _ & _ & Hg & _).
  repeat split; assumption.
Defined.

(** ** The totals of valid meshes *)

Section Totals.

#[local] Arguments Z.add : simpl never.
#[local] Arguments Z.mul : simpl never.
#[local] Arguments Z.of_nat : simpl never.

Lemma sum_list_app l1 l2 :
  Np.sum_list (l1 ++ l2) = Np.sum_list l1 + Np.sum_list l2.
Proof.
  unfold Np.sum_list. induction l1 as [| x l1 IH]; simpl; [lia |].
  rewrite IH. lia.
Qed.

Lemma sum_by_rows a : Np.sum a = Np.sum_list (Np.sum_axis1 a).
Proof.
  unfold Np.sum, Np.flatten, Np.sum_axis1.
  induction (Np.rows a) as [| r rs IH]; simpl; [reflexivity |].
  rewrite sum_list_app, IH. reflexivity.
Qed.

Lemma sum_of_full_rows gpus sums :
  Forall (fun s => s = gpus \/ s = 0) sums -> gpus <> 0 ->
  Np.sum_list sums
  = gpus * Z.of_nat (length (filter (fun s => s =? gpus) sums)).
Proof.
  intros H Hg. unfold Np.sum_list.
  induction H as [| s sums [-> | ->] _ IH]; cbn [fold_right filter].
  - simpl. lia.
  - rewrite Z.eqb_refl. cbn [length]. rewrite IH, Nat2Z.inj_succ. lia.
  - destruct (0 =? gpus) eqn:E; [apply Z.eqb_eq in E; congruence |].
    rewrite IH. lia.
Qed.

End Totals.

(** A valid mesh claims a power of two of GPUs below one node, or whole
    nodes: its total is then the GPU count times the number of fully
    claimed nodes.  In both cases the total lies between 1 and the size of
    the grid. *)
Theorem valid_mesh_total m a :
  Spec.valid m -> DeviceMesh.mapping m = NdArray a ->
  let n := DeviceMesh.n_gpus_per_node m in
  1 <= Np.sum a <= DeviceMesh.n_nodes m * n
  /\ ((Np.sum a < n /\ Spec.is_power_of_two (Np.sum a))
      \/ (n <= Np.sum a
          /\ Np.sum a = n * full_nodes n a
          /\ 1 <= full_nodes n a <= DeviceMesh.n_nodes m)).
Proof.
  intros Hv Hm n.
  pose proof (valid_invariants m a Hm Hv) as Hinv.
  pose proof (valid_total_pos m Hv) as Hpos.
  unfold Spec.total in Hpos. rewrite Hm in Hpos. simpl in Hpos.
  pose proof (pow2_pos _ (Hinv Spec.GpusNotPowerOfTwo)) as Hn. fold n in Hn.
  destruct (Hinv Spec.BadShape) as [Hshape _].
  unfold Np.shape in Hshape. injection Hshape as Hrows Hcols.
  assert (Hfull : full_nodes n a <= DeviceMesh.n_nodes m).
  { unfold full_nodes. rewrite <- Hrows.
    apply Nat2Z.inj_le. etransitivity; [apply filter_length_le |].
    unfold Np.sum_axis1. now rewrite length_map. }
  destruct (Z_lt_le_dec (Np.sum a) n) as [Hlt | Hge].
  - split.
    + split; [assumption |].
      assert (1 <= DeviceMesh.n_nodes m).
      { rewrite <- Hrows. destruct (Np.rows a) eqn:E; simpl; [| lia].
        unfold Np.sum, Np.flatten in Hpos. rewrite E in Hpos. simpl in Hpos. lia. }
      nia.
    + left. split; [assumption |]. now apply (Hinv Spec.SubNodeCount).
  - destruct (Hinv Spec.PartialNodes Hge) as [_ Hsums].
    assert (E : Np.sum a = n * full_nodes n a).
    { rewrite sum_by_rows. apply sum_of_full_rows; [assumption | lia]. }
    assert (1 <= full_nodes n a) by nia.
    split; [split; [assumption | nia] |].
    right. repeat split; assumption.
Qed.

Lemma valid_mesh_total_witness :
  1 <= Np.sum (ones 3 4) <= 3 * 4
  /\ ((Np.sum (ones 3 4) < 4 /\ Spec.is_power_of_two (Np.sum (ones 3 4)))
      \/ (4 <= Np.sum (ones 3 4)
          /\ Np.sum (ones 3 4) = 4 * full_nodes 4 (ones 3 4)
          /\ 1 <= full_nodes 4 (ones 3 4) <= 3)).
Proof.
  apply (valid_mesh_total mesh_3x4 (ones 3 4)); reflexivity.
Defined.

(** ** When the strategy search returns *)

Lemma divisors_ok_searchable n : divisors_ok n <-> searchable n.
Proof.
  unfold divisors_ok, searchable. split.
  - intros H.
    destruct (Z_lt_le_dec n 1) as [? | H1]; [now left |].
    destruct (Z_lt_le_dec n 8) as [H8 | H8].
    + assert (n = 1 \/ n = 2 \/ n = 3 \/ n = 4 \/ n = 5 \/ n = 6 \/ n = 7)
        as [-> | [-> | [-> | [-> | [-> | [-> | ->]]]]]] by lia; auto.
      * specialize (H 2 ltac:(simpl; auto) ltac:(lia)). discriminate.
      * specialize (H 2 ltac:(simpl; auto) ltac:(lia)). discriminate.
      * specialize (H 4 ltac:(simpl; auto) ltac:(lia)). discriminate.
      * specialize (H 2 ltac:(simpl; auto) ltac:(lia)). discriminate.
    + right; right; right; right. apply H; [simpl; auto | assumption].
  - intros H mp Hin Hle. simpl in Hin.
    destruct Hin as [<- | [<- | [<- | [<- | []]]]];
      destruct H as [? | [-> | [-> | [-> | H]]]]; try lia; try reflexivity;
      Z.div_mod_to_equations; lia.
Qed.

Lemma find_returns_iff_divisors d :
  (divisors_ok (Spec.total d) -> exists res, find_parallel_strategies d = Ok res)
  /\ ((exists res, find_parallel_strategies d = Ok res) -> divisors_ok (Spec.total d)).
Proof.
  destruct (find_parallel_strategies_verdict d) as [[Hdiv Hres] | [Hdiv Hres]].
  - split; eauto.
  - split; [tauto |]. intros (res & H). rewrite Hres in H. discriminate.
Qed.

(** The search returns exactly on the device counts below 1, on 1, 2, 4
    and on the multiples of 8; on every other count its divisibility
    assertion fails. *)
Theorem search_returns_iff d :
  ((exists res, find_parallel_strategies d = Ok res) <-> searchable (Spec.total d))
  /\ (~ searchable (Spec.total d) ->
      find_parallel_strategies d = Raise (AssertionError "")).
Proof.
  destruct (find_parallel_strategies_verdict d) as [[Hdiv Hres] | [Hdiv Hres]].
  - split.
    + split; [intros _; now apply divisors_ok_searchable | eauto].
    + intros H. elim H. now apply divisors_ok_searchable.
  - split.
    + split.
      * intros (res & H). rewrite Hres in H. discriminate.
      * intros H. elim Hdiv. now apply divisors_ok_searchable.
    + intros _. exact Hres.
Qed.

Lemma pow2_mod_small_divisor t mp :
  Spec.is_power_of_two t -> In mp [1; 2; 4; 8] -> mp <= t -> t mod mp = 0.
Proof.
  intros (j & Hj & ->) Hin Hle.
  assert (Hmp : exists i, 0 <= i /\ mp = 2 ^ i).
  { simpl in Hin. destruct Hin as [<- | [<- | [<- | [<- | []]]]];
      [exists 0 | exists 1 | exists 2 | exists 3]; split; try lia; reflexivity. }
  destruct Hmp as (i & Hi & ->).
  assert (i <= j) by (apply (Z.pow_le_mono_r_iff 2); lia).
  replace j with ((j - i) + i) by lia.
  rewrite Z.pow_add_r by lia. apply Z.mod_mul.
  apply Z.pow_nonzero; lia.
Qed.

(** On every valid mesh of a cluster with at least eight GPUs per node the
    search returns: the total is a power of two or a multiple of 8. *)
Theorem search_returns_on_valid_meshes m a :
  Spec.valid m -> DeviceMesh.mapping m = NdArray a ->
  8 <= DeviceMesh.n_gpus_per_node m ->
  exists res, find_parallel_strategies m = Ok res.
Proof.
  intros Hv Hm H8.
  apply (proj1 (find_returns_iff_divisors m)).
  pose proof (valid_invariants m a Hm Hv) as Hinv.
  unfold Spec.total. rewrite Hm. simpl.
  intros mp Hin Hle.
  destruct (Z_lt_le_dec (Np.sum a) (DeviceMesh.n_gpus_per_node m)) as [Hlt | Hge].
  - apply pow2_mod_small_divisor; try assumption.
    now apply (Hinv Spec.SubNodeCount).
  - destruct (Hinv Spec.PartialNodes Hge) as [Hmod _].
    destruct (Hinv Spec.GpusNotPowerOfTwo) as (K & HK & EK).
    assert (3 <= K).
    { destruct (Z_lt_le_dec K 3); [| assumption].
      assert (2 ^ K < 2 ^ 3) by (apply Z.pow_lt_mono_r; lia).
      change (2 ^ 3) with 8 in *. lia. }
    assert (E8 : DeviceMesh.n_gpus_per_node m = 2 ^ (K - 3) * 8).
    { rewrite EK. replace K with ((K - 3) + 3) at 1 by lia.
      rewrite Z.pow_add_r by lia. reflexivity. }
    pose proof (Z.pow_pos_nonneg 2 (K - 3) ltac:(lia) ltac:(lia)) as Hp.
    set (q := 2 ^ (K - 3)) in *.
    apply Z.mod_divide in Hmod; [| lia]. destruct Hmod as (c & Hc).
    assert (E : Np.sum a = c * q * 8) by (rewrite Hc, E8; ring).
    simpl in Hin. destruct Hin as [<- | [<- | [<- | [<- | []]]]];
      rewrite E; Z.div_mod_to_equations; lia.
Qed.

Lemma search_returns_on_valid_meshes_witness :
  exists res, find_parallel_strategies mesh_1x8 = Ok res.
Proof.
  apply (search_returns_on_valid_meshes mesh_1x8 (ones 1 8)); reflexivity.
Defined.

Lemma search_returns_iff_witness :
  find_parallel_strategies mesh_3x4 = Raise (AssertionError "").
Proof.
  apply (proj2 (search_returns_iff mesh_3x4)).
  intros [H | [H | [H | [H | H]]]]; vm_compute in H; discriminate.
Defined.

(** ** What the strategy search returns *)

Lemma find_ok_legal d res :
  find_parallel_strategies d = Ok res ->
  divisors_ok (Spec.total d)
  /\ (forall p, In p res <-> legal_triple (Spec.total d) p)
  /\ StronglySorted triple_lt res.
Proof.
  intros Hres.
  destruct (find_parallel_strategies_verdict d) as [[Hdiv Hc] | [_ Hc]];
    [| rewrite Hc in Hres; discriminate].
  rewrite Hc in Hres. injection Hres as <-.
  split; [assumption |]. split; [| apply chunks_sorted].
  intros p. now apply in_chunks_legal.
Qed.

Lemma legal_triple_product n p :
  legal_triple n p ->
  pipeline_parallel_size p * model_parallel_size p * data_parallel_size p = n
  /\ 1 <= pipeline_parallel_size p /\ 1 <= model_parallel_size p.
Proof.
  intros (Hin & Hle & Hmod & Hpp & Hdp & Hex & _).
  assert (0 < model_parallel_size p) by (simpl in Hin; lia).
  pose proof (Z.div_mod n (pipeline_parallel_size p * model_parallel_size p)
                ltac:(nia)) as E.
  rewrite Hex, <- Hdp in E. repeat split; lia.
Qed.

Lemma triple_lt_irrefl p : ~ triple_lt p p.
Proof. unfold triple_lt. lia. Qed.

Lemma sorted_nodup (l : list ParallelismConfig) :
  StronglySorted triple_lt l -> NoDup l.
Proof.
  induction 1 as [| p l _ IH Hall]; constructor; [| assumption].
  intros Hin. rewrite Forall_forall in Hall.
  apply (triple_lt_irrefl p). now apply Hall.
Qed.

(** For a positive device count, a returned result is never empty: it holds
    the pure data-parallel and the pure pipeline strategy.  It lists no
    strategy twice, and all degrees are positive. *)
Theorem search_results_contain_extremes d res :
  find_parallel_strategies d = Ok res ->
  1 <= Spec.total d ->
  In (mk_parallel 1 1 (Spec.total d)) res
  /\ In (mk_parallel (Spec.total d) 1 1) res
  /\ NoDup res
  /\ forall p, In p res ->
       1 <= pipeline_parallel_size p /\ 1 <= model_parallel_size p
       /\ 1 <= data_parallel_size p.
Proof.
  intros Hres Hpos.
  destruct (find_ok_legal d res Hres) as (Hdiv & Hlegal & Hsorted).
  set (n := Spec.total d) in *.
  assert (Hs : searchable n) by now apply divisors_ok_searchable.
  assert (Hw : width_ok n).
  { unfold width_ok. simpl.
    destruct Hs as [? | [-> | [-> | [-> | ?]]]]; try lia; auto. }
  split; [| split; [| split]].
  - apply Hlegal. unfold legal_triple. simpl.
    rewrite Z.mod_1_r, !Z.div_1_r.
    repeat split; auto; try lia; apply Z.mod_1_r.
  - apply Hlegal. unfold legal_triple. simpl.
    rewrite Z.mod_1_r, Z.div_1_r, Z.mul_1_r, Z.mod_same, Z.div_same by lia.
    repeat split; auto; try lia. left. simpl. auto.
  - now apply sorted_nodup.
  - intros p Hp. apply Hlegal in Hp.
    destruct (legal_triple_product n p Hp) as (E & H1 & H2).
    repeat split; try assumption. nia.
Qed.

Lemma search_results_contain_extremes_witness :
  In (mk_parallel 1 1 (Spec.total mesh_1x8))
     [mk_parallel 1 1 8; mk_parallel 2 1 4; mk_parallel 4 1 2;
      mk_parallel 8 1 1; mk_parallel 1 2 4; mk_parallel 2 2 2;
      mk_parallel 4 2 1; mk_parallel 1 4 2; mk_parallel 2 4 1;
      mk_parallel 1 8 1]
  /\ NoDup
       [mk_parallel 1 1 8; mk_parallel 2 1 4; mk_parallel 4 1 2;
        mk_parallel 8 1 1; mk_parallel 1 2 4; mk_parallel 2 2 2;
        mk_parallel 4 2 1; mk_parallel 1 4 2; mk_parallel 2 4 1;
        mk_parallel 1 8 1].
Proof.
  destruct (search_results_contain_extremes mesh_1x8 _ eq_refl) as (H1 & _ & H3 & _).
  - vm_compute. discriminate.
  - split; assumption.
Defined.

(** ** Allocation records *)

(** Every strategy that the search returns for a mesh forms an allocation
    record with that mesh; a triple whose product differs from the mesh's
    total is rejected with an [AssertionError]. *)
Theorem allocation_accepts_search_results
    (MFCDef : Type) (r : RPCAllocation.rpc_value MFCDef) d a :
  DeviceMesh.mapping d = NdArray a ->
  (forall res p,
      find_parallel_strategies d = Ok res -> In p res ->
      RPCAllocation.new MFCDef r d p = Ok (RPCAllocation.mk MFCDef r d p))
  /\ (forall p,
        model_parallel_size p * pipeline_parallel_size p * data_parallel_size p
        <> Np.sum a ->
        exists msg,
          RPCAllocation.new MFCDef r d p = Raise (AssertionError msg)).
Proof.
  intros Hm. unfold RPCAllocation.new, RPCAllocation.__post_init__. simpl.
  rewrite Hm. cbn [DeviceMesh.ndarray_attr bind]. split.
  - intros res p Hres Hp.
    destruct (find_ok_legal d res Hres) as (_ & Hlegal & _).
    apply Hlegal in Hp. apply legal_triple_product in Hp as (E & _).
    unfold Spec.total in E. rewrite Hm in E. simpl in E.
    replace (_ =? Np.sum a) with true by (symmetry; apply Z.eqb_eq; lia).
    reflexivity.
  - intros p Hne.
    destruct (_ =? Np.sum a) eqn:E; [apply Z.eqb_eq in E; contradiction |].
    eexists. reflexivity.
Qed.

Lemma allocation_accepts_search_results_witness :
  RPCAllocation.new string (RPCAllocation.RpcDef string "actor_train")
    mesh_1x8 (mk_parallel 2 2 2)
  = Ok (RPCAllocation.mk string (RPCAllocation.RpcDef string "actor_train")
          mesh_1x8 (mk_parallel 2 2 2))
  /\ exists msg,
       RPCAllocation.new string (RPCAllocation.RpcDef string "actor_train")
         mesh_3x4 (mk_parallel 2 2 2) = Raise (AssertionError msg).
Proof.
  split.
  - apply (proj1 (allocation_accepts_search_results string
                    (RPCAllocation.RpcDef string "actor_train") mesh_1x8 (ones 1 8)
                    eq_refl)
             [mk_parallel 1 1 8; mk_parallel 2 1 4; mk_parallel 4 1 2;
              mk_parallel 8 1 1; mk_parallel 1 2 4; mk_parallel 2 2 2;
              mk_parallel 4 2 1; mk_parallel 1 4 2; mk_parallel 2 4 1;
              mk_parallel 1 8 1]); [reflexivity |].
    simpl. tauto.
  - apply (proj2 (allocation_accepts_search_results string
                    (RPCAllocation.RpcDef string "actor_train") mesh_3x4 (ones 3 4)
                    eq_refl)).
    vm_compute. discriminate.
Defined.

(** ** What the sub-mesh enumeration returns *)

Lemma comprehension_inv {A B} (f : A -> result B) xs : forall ys,
  comprehension f xs = Ok ys -> Forall2 (fun x y => f x = Ok y) xs ys.
Proof.
  induction xs as [| x xs IH]; intros ys H; simpl in H.
  - injection H as <-. constructor.
  - destruct (f x) as [y | err] eqn:Hy; simpl in H; [| discriminate].
    destruct (comprehension f xs) as [ys' | err]; simpl in H; [| discriminate].
    injection H as <-. constructor; auto.
Qed.

Lemma forall2_in_right {A B} (R : A -> B -> Prop) xs ys y :
  Forall2 R xs ys -> In y ys -> exists x, In x xs /\ R x y.
Proof.
  induction 1 as [| x0 y0 xs ys HR _ IH]; intros Hin; simpl in Hin; [contradiction |].
  destruct Hin as [<- | Hin].
  - exists x0. simpl. auto.
  - destruct (IH Hin) as (x & Hx & HRx). exists x. simpl. auto.
Qed.

(** Every mesh that the enumeration returns went through construction: it
    is valid, has the node and GPU counts of the mesh it comes from, the
    name derived from its mapping and the default memory capacity. *)
Theorem sub_meshes_are_constructed e self min_n_gpus l d :
  DeviceMesh.sub_device_meshes e self min_n_gpus = Ok l ->
  In d l ->
  Spec.valid d
  /\ DeviceMesh.n_nodes d = DeviceMesh.n_nodes self
  /\ DeviceMesh.n_gpus_per_node d = DeviceMesh.n_gpus_per_node self
  /\ DeviceMesh.gpu_memory_capacity d = DeviceMesh.default_gpu_memory_capacity
  /\ exists s, DeviceMesh.name d = Some s
               /\ DeviceMesh.device_mesh_name_from_mapping e
                    (DeviceMesh.global_mesh_name self) (DeviceMesh.mapping d) = Ok s.
Proof.
  unfold DeviceMesh.sub_device_meshes. intros H Hin.
  destruct (DeviceMesh.sub_mappings self min_n_gpus) as [sms | err]; simpl in H;
    [| discriminate].
  apply comprehension_inv in H.
  destruct (forall2_in_right _ _ _ _ H Hin) as (sm & _ & Hd).
  destruct (DeviceMesh.device_mesh_name_from_mapping e _ (NdArray sm))
    as [s | err] eqn:Hname; simpl in Hd; [| discriminate].
  apply post_init_ok in Hd as (Hv & Hn & Hg & Hm & Hc & _ & _ & _ & Hs).
  simpl in *. repeat split; try assumption.
  exists s. rewrite Hm. auto.
Qed.

Lemma sub_meshes_are_constructed_witness :
  Spec.valid half_low
  /\ DeviceMesh.n_nodes half_low = DeviceMesh.n_nodes mesh_1x8
  /\ DeviceMesh.n_gpus_per_node half_low = DeviceMesh.n_gpus_per_node mesh_1x8
  /\ DeviceMesh.gpu_memory_capacity half_low
     = DeviceMesh.default_gpu_memory_capacity
  /\ exists s, DeviceMesh.name half_low = Some s
               /\ DeviceMesh.device_mesh_name_from_mapping Topology.cluster
                    (DeviceMesh.global_mesh_name mesh_1x8)
                    (DeviceMesh.mapping half_low) = Ok s.
Proof.
  apply (sub_meshes_are_constructed Topology.cluster mesh_1x8 4
           [half_low; half_high; mesh_1x8]); [reflexivity |].
  now left.
Defined.

(** *** Positions of the claimed cells *)

Lemma in_enumerate_from {A} (l : list A) : forall s i x,
  In (i, x) (combine (seq s (length l)) l)
  <-> (s <= i)%nat /\ nth_error l (i - s) = Some x.
Proof.
  induction l as [| y l IH]; intros s i x; simpl.
  - split; [contradiction |]. intros [_ H]. now destruct (i - s)%nat.
  - rewrite IH. split.
    + intros [H | [Hle Hnth]].
      * injection H as <- <-. rewrite Nat.sub_diag. auto.
      * split; [lia |]. replace (i - s)%nat with (S (i - S s)) by lia. exact Hnth.
    + intros [Hle Hnth]. destruct (Nat.eq_dec s i) as [<- | Hne].
      * rewrite Nat.sub_diag in Hnth. injection Hnth as <-. now left.
      * right. split; [lia |].
        replace (i - s)%nat with (S (i - S s)) in Hnth by lia. exact Hnth.
Qed.

Lemma in_enumerate {A} (l : list A) i x :
  In (i, x) (Np.enumerate l) <-> nth_error l i = Some x.
Proof.
  unfold Np.enumerate. rewrite in_enumerate_from, Nat.sub_0_r.
  split; [tauto | intros; split; [lia | assumption]].
Qed.

(** [np.where(a == v)] lists exactly the positions of the cells equal to
    [v]. *)
Lemma in_where_eq v a i j :
  In (i, j) (combine (fst (Np.where_eq v a)) (snd (Np.where_eq v a)))
  <-> exists r, nth_error (Np.rows a) i = Some r /\ nth_error r j = Some v.
Proof.
  unfold Np.where_eq. cbn [fst snd].
  set (hits := flat_map _ _).
  replace (combine (map fst hits) (map snd hits)) with hits.
  2: { clear. induction hits as [| [x y] hits IH]; simpl; [reflexivity |].
       now rewrite <- IH. }
  subst hits. rewrite in_flat_map. split.
  - intros ([i' r] & Hr & Hin). apply in_enumerate in Hr.
    apply in_map_iff in Hin as ([j' x] & E & Hf). injection E as <- <-.
    apply filter_In in Hf as [Hx Hv]. apply in_enumerate in Hx.
    apply Z.eqb_eq in Hv. subst x. eauto.
  - intros (r & Hr & Hj). exists (i, r). split; [now apply in_enumerate |].
    apply in_map_iff. exists (j, v). split; [reflexivity |].
    apply filter_In. split; [now apply in_enumerate | apply Z.eqb_refl].
Qed.

Lemma insert_unique_nonempty x l : Np.insert_unique x l <> [].
Proof.
  destruct l as [| y l]; simpl; [discriminate |].
  destruct (Nat.ltb x y); [discriminate |].
  destruct (Nat.eqb x y); discriminate.
Qed.

Lemma unique_nonempty l : l <> [] -> Np.unique l <> [].
Proof.
  destruct l as [| x l]; [congruence |]. intros _. simpl.
  apply insert_unique_nonempty.
Qed.

Lemma claimed_rows_nonempty a :
  Spec.invariant Spec.BadValues 0 0 a -> 1 <= Np.sum a ->
  fst (Np.where_eq 1 a) <> [].
Proof.
  intros Hbin Hsum Hnil.
  assert (Hzero : Forall (Forall (fun x => x = 0)) (Np.rows a)).
  { simpl in Hbin. rewrite Forall_forall in Hbin |- *. intros r Hr.
    specialize (Hbin r Hr). rewrite Forall_forall in Hbin |- *. intros x Hx.
    destruct (Hbin x Hx) as [-> | ->]; [reflexivity |]. exfalso.
    apply In_nth_error in Hr as (i & Hi). apply In_nth_error in Hx as (j & Hj).
    assert (Hin : In (i, j) (combine (fst (Np.where_eq 1 a)) (snd (Np.where_eq 1 a))))
      by (apply in_where_eq; eauto).
    rewrite Hnil in Hin. exact Hin. }
  rewrite (sum_all_zero a Hzero) in Hsum. lia.
Qed.

(** With [min_n_gpus = 0] the enumeration divides by zero on every valid
    mesh. *)
Theorem sub_meshes_of_zero_width e self :
  Spec.valid self ->
  DeviceMesh.sub_device_meshes e self 0 = Raise ZeroDivisionError.
Proof.
  intros Hv. pose proof Hv as Hv'.
  apply valid_iff_invariants in Hv' as (a & Hm & Hinv).
  pose proof (valid_total_pos self Hv) as Hpos.
  unfold Spec.total in Hpos. rewrite Hm in Hpos. simpl in Hpos.
  unfold DeviceMesh.sub_device_meshes, DeviceMesh.sub_mappings. rewrite Hm.
  cbn [bind].
  pose proof (unique_nonempty _ (claimed_rows_nonempty a (Hinv Spec.BadValues) Hpos))
    as Hne.
  destruct (Np.where_eq 1 a) as [rows cols]. cbn [fst] in Hne.
  destruct (Np.unique rows) as [| row rest]; [congruence |].
  reflexivity.
Qed.

Lemma sub_meshes_of_zero_width_witness :
  DeviceMesh.sub_device_meshes Topology.cluster mesh_3x4 0 = Raise ZeroDivisionError.
Proof.
  apply (sub_meshes_of_zero_width Topology.cluster mesh_3x4). reflexivity.
Defined.

(** *** Whole-node sub-meshes *)

Lemma for_each_ext {A S} (xs : list A) (f g : S -> A -> result S) :
  (forall acc x, In x xs -> f acc x = g acc x) ->
  forall acc, for_each xs f acc = for_each xs g acc.
Proof.
  induction xs as [| x xs IH]; intros H acc; simpl; [reflexivity |].
  rewrite H by now left. destruct (g acc x); simpl; [| reflexivity].
  apply IH. intros; apply H; now right.
Qed.

Lemma for_each_append {A B} (xs : list A) (h : A -> list B) :
  forall acc,
    for_each xs (fun acc x => Ok (acc ++ h x)) acc = Ok (acc ++ flat_map h xs).
Proof.
  induction xs as [| x xs IH]; intros acc; simpl.
  - now rewrite app_nil_r.
  - rewrite IH. now rewrite <- app_assoc.
Qed.

Lemma flat_map_single {A B} (g : A -> B) xs :
  flat_map (fun x => [g x]) xs = map g xs.
Proof. induction xs as [| x xs IH]; simpl; [reflexivity | now rewrite IH]. Qed.

Lemma for_each_skip {A S} (xs : list A) (f : S -> A -> result S) :
  (forall acc x, In x xs -> f acc x = Ok acc) ->
  forall acc, for_each xs f acc = Ok acc.
Proof.
  induction xs as [| x xs IH]; intros H acc; simpl; [reflexivity |].
  rewrite H by now left. simpl. apply IH. intros; apply H; now right.
Qed.

Lemma widths_loop_skip fuel self row this_cols bound n_gpus acc :
  bound <= n_gpus ->
  DeviceMesh.widths_loop fuel self row this_cols bound n_gpus acc = Ok acc.
Proof.
  intros H. destruct fuel; simpl;
    (destruct (n_gpus <? bound) eqn:E; [apply Z.ltb_lt in E; lia | reflexivity]).
Qed.

Lemma map_enumerate_repeat {A B} (f : nat -> A -> B) (x : A) n :
  map (fun '(i, y) => f i y) (Np.enumerate (repeat x n))
  = map (fun i => f i x) (seq 0 n).
Proof.
  unfold Np.enumerate. rewrite repeat_length.
  generalize 0%nat. induction n as [| n IH]; intros s; simpl; [reflexivity |].
  now rewrite IH.
Qed.

Lemma set_rows_zeros nodes gpus start n_rows :
  Np.set_rows (Z.of_nat start) (Z.of_nat (start + n_rows)) 1 (Np.zeros nodes gpus)
  = node_span nodes gpus start n_rows.
Proof.
  unfold Np.set_rows, Np.set_slice, Np.zeros, node_span. simpl. f_equal.
  rewrite repeat_length.
  rewrite (map_enumerate_repeat
             (fun i x => if Nat.leb (Np.slice_bound nodes (Z.of_nat start)) i
                            && Nat.ltb i (Np.slice_bound nodes (Z.of_nat (start + n_rows)))
                         then map (fun _ => 1) x else x)).
  apply map_ext_in. intros i Hi. apply in_seq in Hi.
  unfold Np.slice_bound.
  destruct (Z.of_nat start <? 0) eqn:E1; [apply Z.ltb_lt in E1; lia |].
  destruct (Z.of_nat (start + n_rows) <? 0) eqn:E2; [apply Z.ltb_lt in E2; lia |].
  rewrite !Nat2Z.id.
  replace (Nat.leb (Nat.min start nodes) i) with (Nat.leb start i).
  2: { destruct (Nat.leb_spec start i), (Nat.leb_spec (Nat.min start nodes) i);
       try reflexivity; lia. }
  replace (Nat.ltb i (Nat.min (start + n_rows) nodes)) with (Nat.ltb i (start + n_rows)).
  2: { destruct (Nat.ltb_spec i (start + n_rows)),
         (Nat.ltb_spec i (Nat.min (start + n_rows) nodes)); try reflexivity; lia. }
  destruct (Nat.leb start i && Nat.ltb i (start + n_rows)); [| reflexivity].
  clear. induction gpus as [| g IH]; simpl; [reflexivity | now rewrite IH].
Qed.

(** The array part of the enumeration for a width that is a positive
    multiple of the node width. *)
Lemma sub_mappings_whole_nodes self a min_n_gpus :
  DeviceMesh.mapping self = NdArray a ->
  0 <= DeviceMesh.n_nodes self ->
  0 < DeviceMesh.n_gpus_per_node self ->
  0 < min_n_gpus ->
  min_n_gpus mod DeviceMesh.n_gpus_per_node self = 0 ->
  DeviceMesh.sub_mappings self min_n_gpus
  = Ok (whole_node_spans (Z.to_nat (DeviceMesh.n_nodes self))
          (Z.to_nat (DeviceMesh.n_gpus_per_node self)) (claimed_nodes a)).
Proof.
  intros Hm Hnodes Hgpus Hmin Hmod.
  assert (Hle : DeviceMesh.n_gpus_per_node self <= min_n_gpus).
  { apply Z.mod_divide in Hmod; [| lia]. destruct Hmod as (q & Hq).
    assert (1 <= q) by (destruct (Z_lt_le_dec q 1); [nia | lia]). nia. }
  unfold DeviceMesh.sub_mappings, claimed_nodes, whole_node_spans. rewrite Hm.
  cbn [bind]. destruct (Np.where_eq 1 a) as [rows cols]. cbn [fst].
  rewrite for_each_skip.
  2: { intros acc row _. unfold py_mod.
       replace (min_n_gpus =? 0) with false by (symmetry; apply Z.eqb_neq; lia).
       replace (DeviceMesh.n_gpus_per_node self =? 0) with false
         by (symmetry; apply Z.eqb_neq; lia).
       cbn [bind]. rewrite Hmod, Z.eqb_refl.
       rewrite if_both. cbn [bind py_assert].
       apply widths_loop_skip. lia. }
  cbn [bind].
  assert (Hz : DeviceMesh.np_zeros (DeviceMesh.n_nodes self)
                 (DeviceMesh.n_gpus_per_node self)
               = Ok (Np.zeros (Z.to_nat (DeviceMesh.n_nodes self))
                       (Z.to_nat (DeviceMesh.n_gpus_per_node self)))).
  { unfold DeviceMesh.np_zeros.
    destruct (DeviceMesh.n_nodes self <? 0) eqn:E1; [apply Z.ltb_lt in E1; lia |].
    destruct (DeviceMesh.n_gpus_per_node self <? 0) eqn:E2;
      [apply Z.ltb_lt in E2; lia | reflexivity]. }
  rewrite (for_each_ext _ _
             (fun acc n_rows =>
                Ok (acc ++ map (fun start =>
                                  node_span (Z.to_nat (DeviceMesh.n_nodes self))
                                    (Z.to_nat (DeviceMesh.n_gpus_per_node self))
                                    start n_rows)
                             (seq 0 (length (Np.unique rows) - n_rows + 1))))).
  - rewrite for_each_append. reflexivity.
  - intros acc n_rows _.
    rewrite (for_each_ext _ _
               (fun acc start =>
                  Ok (acc ++ [node_span (Z.to_nat (DeviceMesh.n_nodes self))
                                (Z.to_nat (DeviceMesh.n_gpus_per_node self))
                                start n_rows]))).
    + rewrite for_each_append, flat_map_single. reflexivity.
    + intros acc' start _. rewrite Hz. cbn [bind].
      now rewrite set_rows_zeros.
Qed.

(** When [min_n_gpus] is a positive multiple of the node width, the
    enumeration returns only whole-node meshes: one for every span of 1 to
    [j] nodes that starts at node 0 or later and ends before node [j], where
    [j] is the number of nodes on which the mesh claims a GPU. *)
Theorem sub_meshes_of_node_width e self a min_n_gpus l :
  DeviceMesh.mapping self = NdArray a ->
  0 <= DeviceMesh.n_nodes self ->
  0 < DeviceMesh.n_gpus_per_node self ->
  0 < min_n_gpus ->
  min_n_gpus mod DeviceMesh.n_gpus_per_node self = 0 ->
  DeviceMesh.sub_device_meshes e self min_n_gpus = Ok l ->
  map DeviceMesh.mapping l
  = map NdArray
      (whole_node_spans (Z.to_nat (DeviceMesh.n_nodes self))
         (Z.to_nat (DeviceMesh.n_gpus_per_node self)) (claimed_nodes a)).
Proof.
  intros Hm Hnodes Hgpus Hmin Hmod Hl.
  unfold DeviceMesh.sub_device_meshes in Hl.
  rewrite (sub_mappings_whole_nodes self a min_n_gpus Hm Hnodes Hgpus Hmin Hmod) in Hl.
  cbn [bind] in Hl. apply comprehension_inv in Hl.
  apply mappings_of_forall2.
  eapply Forall2_impl; [| exact Hl].
  intros sm d Hd. cbv beta in Hd.
  destruct (DeviceMesh.device_mesh_name_from_mapping e _ (NdArray sm));
    simpl in Hd; [| discriminate].
  now apply post_init_ok in Hd as (_ & _ & _ & Hmap & _).
Qed.

Lemma sub_meshes_of_node_width_witness :
  map DeviceMesh.mapping
    [DeviceMesh.mk 2 8 (NdArray (node_span 2 8 0 1)) (Some "NODE[01-02]")
       (Some "NODE01") DeviceMesh.default_gpu_memory_capacity]
  = map NdArray (whole_node_spans 2 8 (claimed_nodes (node_span 2 8 1 1))).
Proof.
  apply (sub_meshes_of_node_width Topology.cluster mesh_node_1_of_2
           (node_span 2 8 1 1) 8); try reflexivity; simpl; lia.
Defined.

(** ** Dictionaries *)

Lemma array_of_rows a :
  Np.rectangular a = true -> Np.rows a <> [] -> Np.array (Np.tolist a) = a.
Proof.
  intros Hr Hne. apply rectangular_spec in Hr. unfold uniform in Hr.
  destruct a as [c rs]. unfold Np.array, Np.tolist. simpl in *.
  destruct rs as [| r rs]; [congruence |].
  inversion Hr; subst. reflexivity.
Qed.

(** [from_dict] raises on every dictionary whose mapping is a nested list.
    The dictionary of a constructed mesh still holds the whole mesh: once
    its mapping is an array again, [from_dict] returns the mesh. *)
Theorem from_dict_needs_array_mapping e :
  (forall d l,
      DeviceMesh.d_mapping d = NestedList l -> raises (DeviceMesh.from_dict e d))
  /\ (forall self m d,
        DeviceMesh.__post_init__ e self = Ok m ->
        DeviceMesh.to_dict m = Ok d ->
        DeviceMesh.from_dict e (with_array_mapping d) = Ok m).
Proof.
  split.
  - intros d l Hl. unfold DeviceMesh.from_dict, DeviceMesh.__post_init__.
    rewrite Hl. cbn [DeviceMesh.name DeviceMesh.mapping DeviceMesh.global_mesh_name].
    destruct (DeviceMesh.d_name d) as [s |].
    + cbn. eexists. reflexivity.
    + unfold DeviceMesh.device_mesh_name_from_mapping.
      destruct (parse_nodelist e _ _) as [nl | err]; cbn; eexists; reflexivity.
  - intros self m d Hm Hd.
    apply post_init_ok in Hm as (Hv & _ & _ & _ & _ & (g & Hg) & (s & Hs) & _).
    pose proof Hv as Hv'. apply valid_iff_invariants in Hv' as (a & Ha & Hinv).
    pose proof (valid_total_pos m Hv) as Hpos.
    unfold Spec.total in Hpos. rewrite Ha in Hpos. simpl in Hpos.
    destruct m as [nodes gpus mp gmn nm cap]. simpl in *. subst.
    unfold DeviceMesh.to_dict in Hd. simpl in Hd. injection Hd as <-.
    unfold with_array_mapping, DeviceMesh.from_dict. simpl.
    rewrite array_of_rows.
    + rewrite post_init_named. cbv zeta.
      unfold Spec.valid in Hv. rewrite Hv. reflexivity.
    + apply (Hinv Spec.BadShape).
    + intros E. unfold Np.sum, Np.flatten in Hpos. rewrite E in Hpos.
      simpl in Hpos. lia.
Qed.

Lemma from_dict_needs_array_mapping_witness :
  DeviceMesh.from_dict Topology.cluster (with_array_mapping dict_1x8) = Ok mesh_1x8.
Proof.
  apply (proj2 (from_dict_needs_array_mapping Topology.cluster)
           (DeviceMesh.mk 1 8 (NdArray (ones 1 8)) None None
              DeviceMesh.default_gpu_memory_capacity));
    reflexivity.
Defined.

(** ** Equality of valid meshes *)

Lemma arrays_equal_iff_cells m1 m2 a b :
  Spec.valid m1 -> Spec.valid m2 ->
  DeviceMesh.mapping m1 = NdArray a -> DeviceMesh.mapping m2 = NdArray b ->
  compatible m1 m2 ->
  a = b <-> forall i j, claimed a i j <-> claimed b i j.
Proof.
  intros Hv1 Hv2 Hm1 Hm2 Hc.
  destruct (compatible_arrays m1 m2 a b Hv1 Hv2 Hm1 Hm2 Hc)
    as (Hs & Ha & Hb & Ba & Bb).
  split; [intros ->; tauto |].
  intros H. apply array_ext; try assumption.
  intros i j. specialize (H i j). unfold claimed in H.
  destruct (cell_binary a i j Ba) as [E1 | E1],
    (cell_binary b i j Bb) as [E2 | E2]; rewrite E1, E2 in *; try reflexivity.
  - destruct H as [_ H]. specialize (H eq_refl). discriminate.
  - destruct H as [H _]. specialize (H eq_refl). discriminate.
Qed.

(** On valid meshes of one cluster, [==] is symmetric and every mesh
    equals itself; two meshes are equal exactly when they claim the same
    GPUs. *)
Theorem equality_of_valid_meshes m1 m2 a b :
  Spec.valid m1 -> Spec.valid m2 ->
  DeviceMesh.mapping m1 = NdArray a -> DeviceMesh.mapping m2 = NdArray b ->
  compatible m1 m2 ->
  DeviceMesh.__eq__ m1 m1 = Ok true
  /\ exists r,
       DeviceMesh.__eq__ m1 m2 = Ok r
       /\ DeviceMesh.__eq__ m2 m1 = Ok r
       /\ (r = true <-> forall i j, claimed a i j <-> claimed b i j).
Proof.
  intros Hv1 Hv2 Hm1 Hm2 Hc.
  destruct (compatible_arrays m1 m2 a b Hv1 Hv2 Hm1 Hm2 Hc) as (Hs & Ha & Hb & _).
  destruct Hc as (Hg & Hn & Hgp).
  assert (Hguard : forall x y,
             DeviceMesh.global_mesh_name x = DeviceMesh.global_mesh_name y ->
             (match DeviceMesh.global_mesh_name x with None => true | Some _ => false end
              || DeviceMesh.option_string_eqb (DeviceMesh.global_mesh_name x)
                   (DeviceMesh.global_mesh_name y)) = true).
  { intros x y E. apply orb_true_iff. right. now apply option_string_eqb_spec. }
  unfold DeviceMesh.__eq__.
  rewrite (Hguard m1 m1 eq_refl), (Hguard m1 m2 Hg), (Hguard m2 m1 (eq_sym Hg)).
  cbn [py_assert bind]. rewrite Hm1, Hm2.
  destruct (all_eq_same_shape a a eq_refl Ha Ha) as (r0 & E0 & I0).
  destruct (all_eq_same_shape a b Hs Ha Hb) as (r & E & I).
  destruct (all_eq_same_shape b a (eq_sym Hs) Hb Ha) as (r' & E' & I').
  assert (r0 = true) by now apply I0. subst r0.
  assert (r' = r).
  { apply eq_iff_eq_true. rewrite I, I'. split; congruence. }
  subst r'. split; [assumption |].
  exists r. split; [assumption |]. split; [assumption |]. split.
  - intros Ht. apply I in Ht. subst b. tauto.
  - intros H. apply I.
    apply (arrays_equal_iff_cells m1 m2 a b Hv1 Hv2 Hm1 Hm2); [| assumption].
    now repeat split.
Qed.

Lemma equality_of_valid_meshes_witness :
  DeviceMesh.__eq__ half_low half_low = Ok true
  /\ exists r,
       DeviceMesh.__eq__ half_low half_high = Ok r
       /\ DeviceMesh.__eq__ half_high half_low = Ok r
       /\ (r = true <->
           forall i j, claimed (row_block 1 8 0 0 4) i j
                       <-> claimed (row_block 1 8 0 4 4) i j).
Proof.
  apply (equality_of_valid_meshes half_low half_high); try reflexivity.
  repeat split.
Defined.

Example from_name_examples :
  MeshNames.make_device_mesh_from_name MeshNames.int_of_decimal Topology.cluster
    "NODE01" "NODE01:0,1,2,3" 8 = Ok half_low
  /\ MeshNames.make_device_mesh_from_name MeshNames.int_of_decimal Topology.cluster
    "NODE[01-02]" "NODE02" 8 = Ok mesh_node_1_of_2
  /\ MeshNames.make_device_mesh_from_name MeshNames.int_of_decimal Topology.cluster
    "NODE[01-03]" "NODE[01-03]" 4 = Ok mesh_3x4.
Proof. repeat split. Qed.

(** ** Names and meshes: reading back a derived name *)

(** *** Strings *)

Lemma contains_app c s1 s2 :
  MeshNames.contains c (s1 ++ s2)%string
  = MeshNames.contains c s1 || MeshNames.contains c s2.
Proof.
  unfold MeshNames.contains.
  induction s1 as [| x s1 IH]; simpl; [reflexivity |].
  now rewrite IH, orb_assoc.
Qed.

Lemma split_on_whole c s :
  MeshNames.contains c s = false -> Topology.split_on c s = [s].
Proof.
  unfold MeshNames.contains.
  induction s as [| x s IH]; simpl; [reflexivity |].
  intros H. apply orb_false_iff in H as [Hx Hs].
  rewrite Ascii.eqb_sym in Hx. rewrite Hx, (IH Hs). reflexivity.
Qed.

Lemma split_on_cut c s1 s2 :
  MeshNames.contains c s1 = false ->
  Topology.split_on c (s1 ++ String c s2)%string = s1 :: Topology.split_on c s2.
Proof.
  unfold MeshNames.contains.
  induction s1 as [| x s1 IH]; simpl.
  - intros _. now rewrite Ascii.eqb_refl.
  - intros H. apply orb_false_iff in H as [Hx Hs].
    rewrite Ascii.eqb_sym in Hx. rewrite Hx, (IH Hs). reflexivity.
Qed.

Lemma split_on_join c x xs :
  Forall (fun s => MeshNames.contains c s = false) (x :: xs) ->
  Topology.split_on c (String.concat (String c "") (x :: xs)) = x :: xs.
Proof.
  revert x. induction xs as [| y ys IH]; intros x H.
  - inversion H; subst. now apply split_on_whole.
  - inversion H as [| ? ? Hx Hrest]; subst.
    change (String.concat (String c "") (x :: y :: ys))
      with (x ++ String c (String.concat (String c "") (y :: ys)))%string.
    rewrite split_on_cut by assumption. now rewrite IH.
Qed.

Lemma contains_join c sep l :
  MeshNames.contains c sep = false ->
  Forall (fun s => MeshNames.contains c s = false) l ->
  MeshNames.contains c (String.concat sep l) = false.
Proof.
  intros Hsep. induction l as [| x [| y l] IH]; intros H.
  - reflexivity.
  - now inversion H.
  - inversion H as [| ? ? Hx Hrest]; subst.
    change (String.concat sep (x :: y :: l))
      with (x ++ sep ++ String.concat sep (y :: l))%string.
    rewrite !contains_app, Hx, Hsep, (IH Hrest). reflexivity.
Qed.

(** [str] of a number holds digits only. *)
Lemma digits_only c n :
  c = ":"%char \/ c = ","%char \/ c = "-"%char ->
  MeshNames.contains c (str_of_nat n) = false.
Proof.
  intros Hc. unfold str_of_nat.
  assert (H : forall d, MeshNames.contains c (NilEmpty.string_of_uint d) = false).
  { induction d; destruct Hc as [-> | [-> | ->]]; simpl in *; auto. }
  unfold NilZero.string_of_uint.
  destruct (Nat.to_uint n) eqn:E; try apply H.
  destruct Hc as [-> | [-> | ->]]; reflexivity.
Qed.

Lemma int_of_decimal_str n :
  MeshNames.int_of_decimal (str_of_nat n) = Ok (Z.of_nat n).
Proof.
  pose proof (digits_only "-" n (or_intror (or_intror eq_refl))) as Hminus.
  unfold MeshNames.int_of_decimal, str_of_nat in *.
  assert (Hnil : Nat.to_uint n <> Decimal.Nil).
  { intros E. pose proof (Unsigned.of_to n) as H. rewrite E in H.
    simpl in H. subst n. discriminate E. }
  pose proof (NilZero.usu _ Hnil) as Hu.
  unfold NilZero.int_of_string.
  destruct (NilZero.string_of_uint (Nat.to_uint n)) as [| c s] eqn:Es;
    [discriminate Hu |].
  unfold MeshNames.contains in Hminus.
  cbn [list_ascii_of_string existsb] in Hminus.
  apply orb_false_iff in Hminus as [Hc _]. rewrite Ascii.eqb_sym in Hc.
  rewrite Hc, Hu. simpl. now rewrite Unsigned.of_to.
Qed.

(** *** Indexed assignment *)

Lemma nth_update {A} (f : A -> A) d : forall l i j,
  nth j (Np.update i f l) d
  = if Nat.eqb i j && Nat.ltb j (length l) then f (nth j l d) else nth j l d.
Proof.
  induction l as [| x l IH]; intros i j.
  - destruct i, j; simpl; rewrite ?andb_false_r; reflexivity.
  - destruct i as [| i], j as [| j]; simpl; try reflexivity.
    rewrite IH. reflexivity.
Qed.

Lemma nth_fold_update {A} (f : A -> A) d idx :
  (forall x, f (f x) = f x) ->
  forall l j,
    nth j (fold_left (fun l i => Np.update i f l) idx l) d
    = if existsb (Nat.eqb j) idx && Nat.ltb j (length l)
      then f (nth j l d) else nth j l d.
Proof.
  intros Hidem. induction idx as [| i idx IH]; intros l j; [reflexivity |].
  cbn [fold_left existsb]. rewrite IH, length_update, nth_update.
  rewrite (Nat.eqb_sym j i).
  destruct (Nat.eqb i j), (existsb (Nat.eqb j) idx), (Nat.ltb j (length l));
    simpl; try reflexivity.
  apply Hidem.
Qed.

Lemma list_index_nth x : forall l i,
  NoDup l -> nth_error l i = Some x -> MeshNames.list_index x l = Ok i.
Proof.
  induction l as [| y l IH]; intros i Hnd Hi; [now destruct i |].
  inversion Hnd as [| ? ? Hnot Hnd']; subst. simpl.
  destruct i as [| i]; simpl in Hi.
  - injection Hi as ->. now rewrite String.eqb_refl.
  - destruct (String.eqb y x) eqn:E.
    + apply String.eqb_eq in E. subst y. exfalso. apply Hnot.
      eapply nth_error_In; eauto.
    + rewrite (IH i Hnd' Hi). reflexivity.
Qed.

Lemma in_insert_unique x y l :
  In y (Np.insert_unique x l) <-> y = x \/ In y l.
Proof.
  induction l as [| z l IH]; simpl; [intuition |].
  destruct (Nat.ltb x z); [simpl; intuition |].
  destruct (Nat.eqb x z) eqn:E.
  - apply Nat.eqb_eq in E. subst z. simpl. intuition.
  - simpl. rewrite IH. intuition.
Qed.

Lemma in_unique y l : In y (Np.unique l) <-> In y l.
Proof.
  induction l as [| x l IH]; simpl; [reflexivity |].
  rewrite in_insert_unique, IH. intuition.
Qed.

Lemma cell_zeros r c i j : cell (Np.zeros r c) i j = 0.
Proof.
  unfold cell, Np.zeros. cbn [Np.rows].
  destruct (Nat.lt_ge_cases i r) as [Hi | Hi].
  - rewrite nth_repeat_lt by assumption. apply nth_repeat.
  - rewrite (nth_overflow (repeat (repeat 0 c) r))
      by (rewrite repeat_length; exact Hi).
    now destruct j.
Qed.

(** *** The cells that [np.where] lists *)

Lemma claimed_where a i j :
  claimed a i j
  <-> In (i, j) (combine (fst (Np.where_eq 1 a)) (snd (Np.where_eq 1 a))).
Proof.
  rewrite in_where_eq. unfold claimed, cell. split.
  - intros H.
    destruct (nth_error (Np.rows a) i) as [r |] eqn:Hr.
    + exists r. split; [reflexivity |].
      rewrite (nth_error_nth _ _ _ Hr) in H.
      destruct (nth_error r j) as [x |] eqn:Hx.
      * rewrite (nth_error_nth _ _ _ Hx) in H. now subst.
      * apply nth_error_None in Hx. rewrite nth_overflow in H by assumption.
        discriminate.
    + apply nth_error_None in Hr.
      rewrite (nth_overflow (Np.rows a)) in H by assumption.
      now destruct j.
  - intros (r & Hr & Hx).
    now rewrite (nth_error_nth _ _ _ Hr), (nth_error_nth _ _ _ Hx).
Qed.

Lemma where_lengths v a :
  length (fst (Np.where_eq v a)) = length (snd (Np.where_eq v a)).
Proof. unfold Np.where_eq. cbn [fst snd]. now rewrite !length_map. Qed.

Lemma in_split_l {A B} (l1 : list A) : forall (l2 : list B) x,
  length l1 = length l2 -> In x l1 -> exists y, In (x, y) (combine l1 l2).
Proof.
  induction l1 as [| a l1 IH]; intros [| b l2] x Hlen Hin; simpl in *;
    try contradiction; try discriminate.
  destruct Hin as [-> | Hin]; [eauto |].
  destruct (IH l2 x) as (y & Hy); [lia | assumption | eauto].
Qed.

Lemma in_split_r {A B} (l1 : list A) : forall (l2 : list B) y,
  length l1 = length l2 -> In y l2 -> exists x, In (x, y) (combine l1 l2).
Proof.
  induction l1 as [| a l1 IH]; intros [| b l2] y Hlen Hin; simpl in *;
    try contradiction; try discriminate.
  destruct Hin as [-> | Hin]; [eauto |].
  destruct (IH l2 y) as (x & Hx); [lia | assumption | eauto].
Qed.

Lemma claimed_in_range a i j :
  Np.rectangular a = true -> claimed a i j ->
  (i < length (Np.rows a))%nat /\ (j < Np.ncols a)%nat.
Proof.
  intros Hrect H. apply claimed_where, in_where_eq in H as (r & Hr & Hx).
  split; [apply nth_error_Some; congruence |].
  apply rectangular_spec in Hrect. unfold uniform in Hrect.
  rewrite Forall_forall in Hrect.
  rewrite <- (Hrect r) by (eapply nth_error_In; eauto).
  apply nth_error_Some. congruence.
Qed.

(** *** Reading back the name of a mesh *)

Lemma resolve_indices axis n cols :
  Forall (fun c => (c < n)%nat) cols ->
  comprehension (Np.axis_index axis n) (map Z.of_nat cols) = Ok cols.
Proof.
  induction cols as [| c cols IH]; intros H; [reflexivity |].
  inversion H; subst. cbn [map comprehension].
  rewrite axis_index_in by assumption. cbn [bind].
  rewrite IH by assumption. reflexivity.
Qed.

Lemma existsb_eqb_in j l : existsb (Nat.eqb j) l = true <-> In j l.
Proof.
  rewrite existsb_exists. split.
  - intros (x & Hx & E). apply Nat.eqb_eq in E. now subst.
  - intros H. exists j. split; [assumption | apply Nat.eqb_refl].
Qed.

Lemma binary_sum_bounds l :
  Forall (fun x => x = 0 \/ x = 1) l ->
  0 <= Np.sum_list l <= Z.of_nat (length l).
Proof.
  induction 1 as [| x l Hx _ IH]; [simpl; lia |].
  unfold Np.sum_list in *. cbn [fold_right length]. rewrite Nat2Z.inj_succ.
  destruct Hx; subst; lia.
Qed.

Lemma binary_full l :
  Forall (fun x => x = 0 \/ x = 1) l ->
  Np.sum_list l = Z.of_nat (length l) -> Forall (fun x => x = 1) l.
Proof.
  induction 1 as [| x l Hx Hl IH]; intros Hsum; [constructor |].
  pose proof (binary_sum_bounds l Hl) as Hb.
  unfold Np.sum_list in *. cbn [fold_right length] in Hsum.
  rewrite Nat2Z.inj_succ in Hsum.
  constructor; [destruct Hx; subst; lia | apply IH; destruct Hx; subst; lia].
Qed.

Lemma binary_sum_claimed l j :
  Forall (fun x => x = 0 \/ x = 1) l -> nth_error l j = Some 1 ->
  1 <= Np.sum_list l.
Proof.
  intros H. revert j. induction H as [| x l Hx Hl IH]; intros j Hj.
  - now destruct j.
  - pose proof (binary_sum_bounds l Hl) as Hb.
    unfold Np.sum_list in *. cbn [fold_right].
    destruct j as [| j]; simpl in Hj.
    + injection Hj as ->. lia.
    + specialize (IH j Hj). destruct Hx; subst; lia.
Qed.

Lemma items_in_range (node_list : list string) idx :
  Forall (fun r => (r < length node_list)%nat) idx ->
  comprehension (DeviceMesh.list_item node_list) idx
  = Ok (map (fun r => nth r node_list "") idx).
Proof.
  induction 1 as [| r rs Hr _ IH]; [reflexivity |].
  cbn [comprehension map]. unfold DeviceMesh.list_item at 1.
  rewrite (nth_error_nth' _ "" Hr). cbn [bind]. rewrite IH. reflexivity.
Qed.

Lemma indices_of_items (node_list : list string) idx :
  NoDup node_list ->
  Forall (fun r => (r < length node_list)%nat) idx ->
  comprehension (fun node_name => MeshNames.list_index node_name node_list)
    (map (fun r => nth r node_list "") idx)
  = Ok idx.
Proof.
  intros Hnd. induction 1 as [| r rs Hr _ IH]; [reflexivity |].
  cbn [comprehension map].
  rewrite (list_index_nth _ node_list r Hnd) by now apply nth_error_nth'.
  cbn [bind]. rewrite IH. reflexivity.
Qed.

Section ReadBack.

Variable py_int : string -> result Z.
Variable e : env.
Variables (g : string) (node_list : list string) (gpus : Z) (a : Np.ndarray).

Hypothesis Hint : forall n, py_int (str_of_nat n) = Ok (Z.of_nat n).
Hypothesis Hlist :
  parse_nodelist e (Some g) (node_name_prefix e) = Ok node_list.
Hypothesis Hnodup : NoDup node_list.
Hypothesis Hinv : Spec.invariants (Z.of_nat (length node_list)) gpus a.

Lemma read_back_dims :
  length (Np.rows a) = length node_list
  /\ gpus = Z.of_nat (Np.ncols a)
  /\ Np.rectangular a = true.
Proof.
  destruct (Hinv Spec.BadShape) as [Hs Hr]. unfold Np.shape in Hs.
  injection Hs as H1 H2. apply Nat2Z.inj in H1. auto.
Qed.

Lemma read_back_zeros :
  DeviceMesh.np_zeros (Z.of_nat (length node_list)) gpus
  = Ok (Np.zeros (length node_list) (Np.ncols a)).
Proof.
  destruct read_back_dims as (_ & -> & _). unfold DeviceMesh.np_zeros.
  replace (Z.of_nat (length node_list) <? 0) with false
    by (symmetry; apply Z.ltb_ge; lia).
  replace (Z.of_nat (Np.ncols a) <? 0) with false
    by (symmetry; apply Z.ltb_ge; lia).
  cbn [orb]. now rewrite !Nat2Z.id.
Qed.

Lemma read_back_constructs s :
  DeviceMesh.__post_init__ e
    (DeviceMesh.mk (Z.of_nat (length node_list)) gpus (NdArray a) (Some g)
       (Some s) DeviceMesh.default_gpu_memory_capacity)
  = Ok (DeviceMesh.mk (Z.of_nat (length node_list)) gpus (NdArray a) (Some g)
          (Some s) DeviceMesh.default_gpu_memory_capacity).
Proof.
  rewrite post_init_named. cbv zeta.
  match goal with
  | |- context [DeviceMesh._is_valid_mapping ?m] => assert (Hv : Spec.valid m)
  end.
  { apply valid_iff_invariants. exists a. split; [reflexivity | exact Hinv]. }
  unfold Spec.valid in Hv. rewrite Hv. reflexivity.
Qed.

Lemma parse_ids cols :
  comprehension py_int (map str_of_nat cols) = Ok (map Z.of_nat cols).
Proof.
  induction cols as [| c cols IH]; [reflexivity |].
  cbn [map comprehension]. rewrite Hint. cbn [bind]. rewrite IH. reflexivity.
Qed.

Lemma where_cols_in_range c :
  In c (snd (Np.where_eq 1 a)) -> (c < Np.ncols a)%nat.
Proof.
  intros Hc. destruct read_back_dims as (_ & _ & Hr).
  destruct (in_split_r _ _ c (where_lengths 1 a) Hc) as (r & Hrc).
  apply claimed_where in Hrc. now apply (claimed_in_range a r c Hr).
Qed.

Lemma where_rows_in_range r :
  In r (fst (Np.where_eq 1 a)) -> (r < length node_list)%nat.
Proof.
  intros Hin. destruct read_back_dims as (Hlen & _ & Hr).
  destruct (in_split_l _ _ r (where_lengths 1 a) Hin) as (c & Hrc).
  apply claimed_where in Hrc. rewrite <- Hlen.
  now apply (claimed_in_range a r c Hr).
Qed.

Lemma ids_below_width :
  forallb (fun gpu_id => gpu_id <? gpus) (map Z.of_nat (snd (Np.where_eq 1 a)))
  = true.
Proof.
  apply forallb_forall. intros x Hx. apply in_map_iff in Hx as (c & <- & Hc).
  apply where_cols_in_range in Hc. destruct read_back_dims as (_ & -> & _).
  apply Z.ltb_lt. lia.
Qed.

Section BelowOneNode.

Variables (i : nat) (node : string).
Hypothesis Hbelow : Np.sum a < gpus.
Hypothesis Hrow : forall r c, claimed a r c -> r = i.
Hypothesis Hnode : nth_error node_list i = Some node.
Hypothesis Hplain : MeshNames.contains ":" node = false.
Hypothesis Hself : parse_nodelist e (Some node) (node_name_prefix e) = Ok [node].

Lemma below_node_name :
  DeviceMesh.device_mesh_name_from_mapping e (Some g) (NdArray a)
  = Ok (node ++ ":"
          ++ String.concat "," (map str_of_nat (snd (Np.where_eq 1 a))))%string.
Proof.
  destruct read_back_dims as (Hlen & Hg & Hr).
  unfold DeviceMesh.device_mesh_name_from_mapping.
  rewrite Hlist. cbn [bind DeviceMesh.ndarray_attr].
  rewrite Hlen, Nat.eqb_refl. cbn [py_assert bind].
  pose proof (claimed_rows_nonempty a (Hinv Spec.BadValues)) as Hne.
  assert (Hpos : 1 <= Np.sum a).
  { pose proof (valid_total_pos
                  (DeviceMesh.mk (Z.of_nat (length node_list)) gpus (NdArray a)
                     None None 0)) as H.
    apply H. apply valid_iff_invariants. exists a. now split. }
  specialize (Hne Hpos).
  pose proof (fun r c => proj2 (claimed_where a r c)) as Hcl.
  pose proof (where_lengths 1 a) as Hwl.
  destruct (Np.where_eq 1 a) as [rows cols]. cbn [fst snd] in *.
  rewrite <- Hg. replace (Np.sum a <? gpus) with true
    by (symmetry; now apply Z.ltb_lt).
  destruct rows as [| r0 rows]; [congruence |].
  destruct cols as [| c0 cols]; [discriminate |].
  assert (r0 = i) by (apply (Hrow r0 c0), Hcl; now left). subst r0.
  unfold DeviceMesh.array_item, DeviceMesh.list_item. cbn [nth_error bind].
  rewrite Hnode. reflexivity.
Qed.

Lemma below_node_cells :
  MeshNames.set_cells_at (Z.of_nat i) (map Z.of_nat (snd (Np.where_eq 1 a))) 1
    (Np.zeros (length node_list) (Np.ncols a))
  = Ok a.
Proof.
  destruct read_back_dims as (Hlen & Hg & Hr).
  assert (Hi : (i < length node_list)%nat) by (apply nth_error_Some; congruence).
  unfold MeshNames.set_cells_at.
  cbn [Np.zeros Np.rows Np.ncols]. rewrite repeat_length.
  rewrite axis_index_in by assumption. cbn [bind].
  rewrite resolve_indices
    by (apply Forall_forall; intros c Hc; now apply where_cols_in_range).
  cbn [bind]. f_equal. symmetry.
  set (cols := snd (Np.where_eq 1 a)).
  set (b := Np.mk_ndarray _ _).
  assert (Hbrows : length (Np.rows b) = length node_list).
  { unfold b. cbn [Np.rows]. now rewrite length_update, repeat_length. }
  assert (Hcell : forall r c,
             cell b r c
             = if Nat.eqb i r && Nat.ltb r (length node_list)
                  && existsb (Nat.eqb c) cols && Nat.ltb c (Np.ncols a)
               then 1 else 0).
  { intros r c. unfold cell, b. cbn [Np.rows].
    rewrite nth_update, repeat_length.
    destruct (Nat.eqb i r && Nat.ltb r (length node_list)) eqn:E.
    - apply andb_true_iff in E as [_ E]. apply Nat.ltb_lt in E.
      rewrite nth_repeat_lt by assumption.
      rewrite (nth_fold_update (fun _ : Z => 1) 0 cols (fun _ => eq_refl)).
      rewrite repeat_length. cbn [andb].
      destruct (existsb (Nat.eqb c) cols && Nat.ltb c (Np.ncols a));
        [reflexivity | apply nth_repeat].
    - cbn [andb]. apply (cell_zeros (length node_list) (Np.ncols a) r c). }
  assert (Hbrect : Np.rectangular b = true).
  { apply rectangular_spec. unfold uniform, b. cbn [Np.rows Np.ncols].
    apply Forall_forall. intros row Hrow'.
    apply In_nth with (d := []) in Hrow' as (k & Hk & <-).
    rewrite length_update, repeat_length in Hk.
    rewrite nth_update, repeat_length, nth_repeat_lt by assumption.
    destruct (Nat.eqb i k && Nat.ltb k (length node_list));
      [| apply repeat_length].
    clear. generalize (repeat 0 (Np.ncols a)) (repeat_length 0 (Np.ncols a)).
    induction cols as [| c cs IH]; intros l Hl; [exact Hl |].
    cbn [fold_left]. apply IH. now rewrite length_update. }
  apply array_ext; try assumption.
  { unfold Np.shape. now rewrite Hbrows, Hlen. }
  intros r c. rewrite Hcell.
  destruct (cell_binary a r c (Hinv Spec.BadValues)) as [E | E]; rewrite E.
  - destruct (Nat.eqb i r && Nat.ltb r (length node_list)
              && existsb (Nat.eqb c) cols && Nat.ltb c (Np.ncols a)) eqn:B;
      [| reflexivity].
    exfalso. apply andb_true_iff in B as [B _].
    apply andb_true_iff in B as [B Hc]. apply andb_true_iff in B as [Hir _].
    apply Nat.eqb_eq in Hir. subst r. apply existsb_eqb_in in Hc.
    destruct (in_split_r _ _ c (where_lengths 1 a) Hc) as (r' & Hrc).
    apply claimed_where in Hrc. pose proof (Hrow r' c Hrc). subst r'.
    unfold claimed in Hrc. congruence.
  - assert (Hcl : claimed a r c) by exact E.
    pose proof (Hrow r c Hcl). subst r.
    destruct (claimed_in_range a i c Hr Hcl) as [_ Hc].
    apply claimed_where in Hcl. apply in_combine_r in Hcl.
    apply existsb_eqb_in in Hcl. fold cols in Hcl. rewrite Hcl.
    rewrite Nat.eqb_refl.
    replace (Nat.ltb i (length node_list)) with true
      by (symmetry; now apply Nat.ltb_lt).
    replace (Nat.ltb c (Np.ncols a)) with true
      by (symmetry; now apply Nat.ltb_lt).
    reflexivity.
Qed.


End BelowOneNode.

Section WholeNodes.

Variable s : string.
Hypothesis Hwhole : gpus <= Np.sum a.
Hypothesis Hname :
  nodelist_from_nodes e (claimed_node_names node_list a) (node_name_prefix e)
  = Ok s.
Hypothesis Hplain : MeshNames.contains ":" s = false.
Hypothesis Hback :
  parse_nodelist e (Some s) (node_name_prefix e)
  = Ok (claimed_node_names node_list a).

Lemma claimed_rows_in_range r :
  In r (Np.unique (fst (Np.where_eq 1 a))) -> (r < length node_list)%nat.
Proof.
  intros H. apply where_rows_in_range. now apply (in_unique r).
Qed.

Lemma whole_node_name :
  DeviceMesh.device_mesh_name_from_mapping e (Some g) (NdArray a) = Ok s.
Proof.
  destruct read_back_dims as (Hlen & Hg & Hr).
  unfold DeviceMesh.device_mesh_name_from_mapping.
  rewrite Hlist. cbn [bind DeviceMesh.ndarray_attr].
  rewrite Hlen, Nat.eqb_refl. cbn [py_assert bind].
  pose proof claimed_rows_in_range as Hrange.
  unfold claimed_node_names in Hname.
  destruct (Np.where_eq 1 a) as [rows cols]. cbn [fst snd] in *.
  rewrite <- Hg. replace (Np.sum a <? gpus) with false
    by (symmetry; now apply Z.ltb_ge).
  rewrite items_in_range by (apply Forall_forall; exact Hrange).
  cbn [bind]. exact Hname.
Qed.

Lemma whole_node_indices :
  comprehension (fun node_name => MeshNames.list_index node_name node_list)
    (claimed_node_names node_list a)
  = Ok (Np.unique (fst (Np.where_eq 1 a))).
Proof.
  apply indices_of_items; [exact Hnodup |].
  apply Forall_forall. exact claimed_rows_in_range.
Qed.

Lemma whole_node_full r c :
  In r (Np.unique (fst (Np.where_eq 1 a))) -> (c < Np.ncols a)%nat ->
  cell a r c = 1.
Proof.
  intros Hin Hc. destruct read_back_dims as (Hlen & Hg & Hr).
  apply (proj1 (in_unique _ _)) in Hin.
  destruct (in_split_l _ _ r (where_lengths 1 a) Hin) as (c' & Hrc).
  apply in_where_eq in Hrc as (row & Hrow & Hone).
  pose proof (Hinv Spec.BadValues) as Hbin. simpl in Hbin.
  rewrite Forall_forall in Hbin.
  pose proof (Hbin row (nth_error_In _ _ Hrow)) as Hrowbin.
  destruct (Hinv Spec.PartialNodes Hwhole) as [_ Hsums].
  rewrite Forall_forall in Hsums.
  assert (Hsum : Np.sum_list row = gpus \/ Np.sum_list row = 0).
  { apply Hsums. unfold Np.sum_axis1. apply in_map.
    eapply nth_error_In; eauto. }
  pose proof (binary_sum_claimed row c' Hrowbin Hone) as Hpos.
  assert (Hrowlen : length row = Np.ncols a).
  { apply rectangular_spec in Hr. unfold uniform in Hr.
    rewrite Forall_forall in Hr. apply Hr. eapply nth_error_In; eauto. }
  assert (Hfull : Forall (fun x => x = 1) row).
  { apply binary_full; [assumption |]. rewrite Hrowlen. lia. }
  unfold cell. rewrite (nth_error_nth _ _ _ Hrow).
  rewrite Forall_forall in Hfull. apply Hfull, nth_In. lia.
Qed.

Lemma whole_node_cells :
  MeshNames.set_rows_at (map Z.of_nat (Np.unique (fst (Np.where_eq 1 a)))) 1
    (Np.zeros (length node_list) (Np.ncols a))
  = Ok a.
Proof.
  destruct read_back_dims as (Hlen & Hg & Hr).
  unfold MeshNames.set_rows_at.
  cbn [Np.zeros Np.rows Np.ncols]. rewrite repeat_length.
  rewrite resolve_indices
    by (apply Forall_forall; intros r Hin; now apply claimed_rows_in_range).
  cbn [bind]. f_equal. symmetry.
  set (idx := Np.unique (fst (Np.where_eq 1 a))).
  set (b := Np.mk_ndarray _ _).
  assert (Hidem : forall l : list Z,
             map (fun _ => 1) (map (fun _ : Z => 1) l) = map (fun _ => 1) l)
    by (intros; now rewrite map_map).
  assert (Hlenb : forall rs : list (list Z),
             length (fold_left
                       (fun rs i => Np.update i (map (fun _ : Z => 1)) rs) idx rs)
             = length rs).
  { induction idx as [| k ks IH]; intros rs; [reflexivity |].
    cbn [fold_left]. now rewrite IH, length_update. }
  assert (Hrowb : forall r,
             nth r (Np.rows b) []
             = if existsb (Nat.eqb r) idx && Nat.ltb r (length node_list)
               then repeat 1 (Np.ncols a)
               else nth r (repeat (repeat 0 (Np.ncols a)) (length node_list)) []).
  { intros r. unfold b. cbn [Np.rows].
    rewrite (nth_fold_update (map (fun _ : Z => 1)) [] idx Hidem).
    rewrite repeat_length.
    destruct (existsb (Nat.eqb r) idx && Nat.ltb r (length node_list)) eqn:E;
      [| reflexivity].
    apply andb_true_iff in E as [_ E]. apply Nat.ltb_lt in E.
    rewrite nth_repeat_lt by assumption. apply map_repeat. }
  assert (Hbrect : Np.rectangular b = true).
  { apply rectangular_spec. unfold uniform. apply Forall_forall.
    intros row Hrow. apply In_nth with (d := []) in Hrow as (k & Hk & <-).
    rewrite Hrowb. unfold b in Hk. cbn [Np.rows Np.ncols] in *.
    rewrite Hlenb, repeat_length in Hk.
    destruct (existsb (Nat.eqb k) idx && Nat.ltb k (length node_list));
      [apply repeat_length |].
    rewrite nth_repeat_lt by assumption. apply repeat_length. }
  apply array_ext; try assumption.
  { unfold Np.shape, b. cbn [Np.rows Np.ncols].
    now rewrite Hlenb, repeat_length, Hlen. }
  intros r c. unfold cell at 2. rewrite Hrowb.
  destruct (existsb (Nat.eqb r) idx && Nat.ltb r (length node_list)) eqn:E.
  - apply andb_true_iff in E as [E _]. apply existsb_eqb_in in E.
    destruct (Nat.lt_ge_cases c (Np.ncols a)) as [Hc | Hc].
    + rewrite nth_repeat_lt by assumption. now apply whole_node_full.
    + rewrite nth_overflow by (now rewrite repeat_length).
      unfold cell. destruct (nth_error (Np.rows a) r) as [row |] eqn:Hrow.
      * rewrite (nth_error_nth _ _ _ Hrow). apply nth_overflow.
        apply rectangular_spec in Hr. unfold uniform in Hr.
        rewrite Forall_forall in Hr.
        rewrite (Hr row) by (eapply nth_error_In; eauto). exact Hc.
      * apply nth_error_None in Hrow.
        rewrite (nth_overflow (Np.rows a)) by assumption. now destruct c.
  - change (nth c (nth r (repeat (repeat 0 (Np.ncols a)) (length node_list)) []) 0)
      with (cell (Np.zeros (length node_list) (Np.ncols a)) r c).
    rewrite cell_zeros.
    destruct (cell_binary a r c (Hinv Spec.BadValues)) as [E0 | E1];
      [assumption |].
    exfalso. assert (Hcl : claimed a r c) by exact E1.
    destruct (claimed_in_range a r c Hr Hcl) as [Hrr _].
    apply claimed_where, in_combine_l in Hcl.
    apply (proj2 (in_unique _ _)) in Hcl.
    apply existsb_eqb_in in Hcl. fold idx in Hcl. rewrite Hcl in E.
    replace (Nat.ltb r (length node_list)) with true in E
      by (symmetry; apply Nat.ltb_lt; lia).
    discriminate.
Qed.


End WholeNodes.
End ReadBack.



(** *** What a mesh made from a name looks like *)

Lemma set_cells_one_row i cols v a b :
  MeshNames.set_cells_at i cols v a = Ok b ->
  exists i', forall r c, (r <> i')%nat -> cell b r c = cell a r c.
Proof.
  unfold MeshNames.set_cells_at. intros H.
  destruct (Np.axis_index "0" _ i) as [i' | err]; [| discriminate].
  cbn [bind] in H.
  destruct (comprehension _ cols) as [cols' | err]; [| discriminate].
  cbn [bind] in H. injection H as <-. exists i'. intros r c Hne.
  unfold cell. cbn [Np.rows]. rewrite nth_update.
  replace (Nat.eqb i' r) with false by (symmetry; apply Nat.eqb_neq; auto).
  reflexivity.
Qed.

(** Whatever the name, a mesh that [make_device_mesh_from_name] returns is
    valid, spans the node list of the cluster name, and carries the cluster
    name and the given name unchanged; when the name has a colon, all its
    GPUs lie on one node. *)
Theorem mesh_from_name_is_constructed py_int e g name gpus m :
  MeshNames.make_device_mesh_from_name py_int e g name gpus = Ok m ->
  exists node_list a,
    parse_nodelist e (Some g) (node_name_prefix e) = Ok node_list
    /\ Spec.valid m
    /\ DeviceMesh.n_nodes m = Z.of_nat (length node_list)
    /\ DeviceMesh.n_gpus_per_node m = gpus
    /\ DeviceMesh.global_mesh_name m = Some g
    /\ DeviceMesh.name m = Some name
    /\ DeviceMesh.gpu_memory_capacity m = DeviceMesh.default_gpu_memory_capacity
    /\ DeviceMesh.mapping m = NdArray a
    /\ (MeshNames.contains ":" name = true ->
        exists i, forall r c, claimed a r c -> r = i).
Proof.
  unfold MeshNames.make_device_mesh_from_name. intros H.
  destruct (parse_nodelist e (Some g) _) as [node_list | err]; [| discriminate].
  cbn [bind] in H.
  match type of H with
  | bind ?p _ = _ => destruct p as [[node_part ids] | err] eqn:Hp; [| discriminate]
  end.
  cbn [bind fst snd] in H.
  destruct (parse_nodelist e (Some node_part) _) as [node_names | err];
    [| discriminate].
  cbn [bind] in H.
  destruct (DeviceMesh.np_zeros _ gpus) as [zeros | err] eqn:Hz; [| discriminate].
  cbn [bind] in H.
  match type of H with
  | bind ?p _ = _ => destruct p as [b | err] eqn:Hb; [| discriminate]
  end.
  cbn [bind] in H.
  apply post_init_ok in H
    as (Hv & Hn & Hg & Hm & Hcap & _ & _ & Hgmn & Hname).
  cbn [DeviceMesh.n_nodes DeviceMesh.n_gpus_per_node DeviceMesh.mapping
       DeviceMesh.gpu_memory_capacity DeviceMesh.global_mesh_name
       DeviceMesh.name] in *.
  exists node_list, b. repeat (split; [now auto |]).
  intros Hcolon. rewrite Hcolon in Hp.
  destruct (MeshNames.unpack_pair _) as [halves | err]; [| discriminate].
  cbn [bind] in Hp.
  destruct (comprehension py_int _) as [gpu_ids | err]; [| discriminate].
  cbn [bind] in Hp.
  destruct (forallb _ gpu_ids); [| discriminate].
  cbn [py_assert bind] in Hp. injection Hp as <- <-.
  destruct (Nat.eqb (length node_names) 1); [| discriminate].
  cbn [py_assert bind] in Hb.
  destruct (DeviceMesh.list_item node_names 0) as [first | err]; [| discriminate].
  cbn [bind] in Hb.
  destruct (MeshNames.list_index first node_list) as [k | err]; [| discriminate].
  cbn [bind] in Hb.
  apply set_cells_one_row in Hb as (i' & Hcells).
  exists i'. intros r c Hcl.
  destruct (Nat.eq_dec r i') as [-> | Hne]; [reflexivity |].
  unfold claimed in Hcl. rewrite Hcells in Hcl by assumption.
  unfold DeviceMesh.np_zeros in Hz.
  destruct (_ || _); [discriminate |]. injection Hz as <-.
  rewrite cell_zeros in Hcl. discriminate.
Qed.

Lemma mesh_from_name_is_constructed_witness :
  exists node_list a,
    parse_nodelist Topology.cluster (Some "NODE01")
      (node_name_prefix Topology.cluster) = Ok node_list
    /\ Spec.valid half_low
    /\ DeviceMesh.n_nodes half_low = Z.of_nat (length node_list)
    /\ DeviceMesh.n_gpus_per_node half_low = 8
    /\ DeviceMesh.global_mesh_name half_low = Some "NODE01"
    /\ DeviceMesh.name half_low = Some "NODE01:0,1,2,3"
    /\ DeviceMesh.gpu_memory_capacity half_low
       = DeviceMesh.default_gpu_memory_capacity
    /\ DeviceMesh.mapping half_low = NdArray a
    /\ (MeshNames.contains ":" "NODE01:0,1,2,3" = true ->
        exists i, forall r c, claimed a r c -> r = i).
Proof.
  apply (mesh_from_name_is_constructed MeshNames.int_of_decimal Topology.cluster
           "NODE01" "NODE01:0,1,2,3" 8 half_low).
  reflexivity.
Defined.
